(** * TaskFlow backend: ownership-scoped CRUD handlers over the document store

    A shallow embedding of the Convex backend of the todo-list application:
    the database layer ([convex/db/*.ts]), the validation helpers
    ([convex/helpers/validation.ts]), the constants and the endpoint layer
    ([convex/endpoints/tasks.ts], [categories.ts], [dashboard.ts]).

    Conventions of the embedding.
    - A table is a finite map from document ids to documents.  The platform
      allocates the id of an inserted document; it is modelled as an id that
      is fresh for the table.
    - A handler runs in the monad [M]: it threads the store and may throw.
      The store that comes back with a thrown error is the store at the
      moment of the throw, so a theorem can say that nothing had been
      written when a handler gave up.
    - Every write ([insert], [patch], [delete]) is appended to a write log
      kept next to the tables, so the order of the writes of a handler is
      observable.
    - [Date.now()] is constant during one handler invocation (the platform
      freezes the clock of a query or mutation); it is the field [now] of
      the context.
    - JavaScript numbers that hold integers (epoch-millisecond timestamps,
      sort orders) are integers of [Z].  Where the source computes with
      them the rounding of IEEE 754 binary64 is written out: the sum
      [Math.max(..) + 1] that gives a new document its [order] is the
      exact sum rounded by [to_binary64], which changes nothing up to
      2^53.  The completion rate of the dashboard is the one place where
      the source divides, and there the numbers are primitive binary64
      floats.
    - Strings are [string]; [length] counts characters.
    - The order in which an index yields the documents of a query is the
      enumeration order of the map; no statement below depends on it. *)

From Stdlib Require Import ZArith Ascii Floats.
From stdpp Require Import gmap strings list.

#[global] Set Warnings "-clear-no-such-hyp".

Open Scope Z_scope.

(** ** Documents *)

(** [Id<"table">]: an opaque document identifier. *)
Abbreviation Id := N (only parsing).

(** [TaskPriority] and [TaskStatus] of [db/tasks.ts]. *)
Inductive TaskPriority := low | medium | high | urgent.
Inductive TaskStatus := todo | in_progress | completed | archived.

#[global] Instance TaskPriority_eq_dec : EqDecision TaskPriority.
Proof. solve_decision. Defined.
#[global] Instance TaskStatus_eq_dec : EqDecision TaskStatus.
Proof. solve_decision. Defined.

(** One field of a partial document handed to [ctx.db.patch]: the key is
    absent (the stored field is kept), present with value [undefined] (the
    stored field is removed) or present with a value. *)
Inductive Field (A : Type) := absent | undefined | value (a : A).
Arguments absent {A}.
Arguments undefined {A}.
Arguments value {A} a.

Definition patch_optional {A} (f : Field A) (old : option A) : option A :=
  match f with
  | absent => old
  | undefined => None
  | value a => Some a
  end.

Definition patch_required {A} (f : option A) (old : A) : A :=
  match f with
  | Some a => a
  | None => old
  end.

(** An optional argument of an endpoint, spread into a partial document. *)
Definition spread {A} (o : option A) : Field A :=
  match o with
  | Some a => value a
  | None => absent
  end.

(** A document of the [tasks] table (schema.ts). *)
Module Task.
Record t := mk {
  userId : string;
  title : string;
  description : option string;
  categoryId : option Id;
  priority : TaskPriority;
  status : TaskStatus;
  dueDate : option Z;
  completedAt : option Z;
  tags : option (list string);
  order : Z;
  createdAt : Z;
  updatedAt : Z
}.
End Task.

(** The partial task document of [ctx.db.patch]: the fields of
    [UpdateTaskArgs] together with [updatedAt]. *)
Module TaskPatch.
Record t := mk {
  title : option string;
  description : Field string;
  categoryId : Field Id;
  priority : option TaskPriority;
  status : option TaskStatus;
  dueDate : Field Z;
  completedAt : Field Z;
  tags : Field (list string);
  order : option Z;
  updatedAt : option Z
}.

(** Shallow merge of a partial document into a stored one. *)
Definition apply (p : t) (d : Task.t) : Task.t :=
  {| Task.userId := Task.userId d;
     Task.title := patch_required (title p) (Task.title d);
     Task.description := patch_optional (description p) (Task.description d);
     Task.categoryId := patch_optional (categoryId p) (Task.categoryId d);
     Task.priority := patch_required (priority p) (Task.priority d);
     Task.status := patch_required (status p) (Task.status d);
     Task.dueDate := patch_optional (dueDate p) (Task.dueDate d);
     Task.completedAt := patch_optional (completedAt p) (Task.completedAt d);
     Task.tags := patch_optional (tags p) (Task.tags d);
     Task.order := patch_required (order p) (Task.order d);
     Task.createdAt := Task.createdAt d;
     Task.updatedAt := patch_required (updatedAt p) (Task.updatedAt d) |}.
End TaskPatch.

(** A document of the [categories] table. *)
Module Category.
Record t := mk {
  userId : string;
  name : string;
  color : string;
  icon : option string;
  order : Z;
  createdAt : Z;
  updatedAt : Z
}.
End Category.

(** The partial category document of [ctx.db.patch]: the fields of
    [UpdateCategoryArgs] together with [updatedAt]. *)
Module CategoryPatch.
Record t := mk {
  name : option string;
  color : option string;
  icon : Field string;
  order : option Z;
  updatedAt : option Z
}.

Definition apply (p : t) (d : Category.t) : Category.t :=
  {| Category.userId := Category.userId d;
     Category.name := patch_required (name p) (Category.name d);
     Category.color := patch_required (color p) (Category.color d);
     Category.icon := patch_optional (icon p) (Category.icon d);
     Category.order := patch_required (order p) (Category.order d);
     Category.createdAt := Category.createdAt d;
     Category.updatedAt := patch_required (updatedAt p) (Category.updatedAt d) |}.
End CategoryPatch.

(** A document of the [taskComments] table. *)
Module TaskComment.
Record t := mk {
  taskId : Id;
  userId : string;
  content : string;
  createdAt : Z;
  updatedAt : Z
}.
End TaskComment.

(** [TaskActivityAction] and the payloads of an activity record.  The
    source types [changes] and [metadata] as [any]; the handlers build
    exactly these shapes. *)
Inductive TaskActivityAction :=
  created | updated | status_changed | action_completed | deleted | commented.

Inductive Changes :=
| StatusChange (oldStatus newStatus : TaskStatus)
| FieldChanges (title : option (string * string))
               (status : option (TaskStatus * TaskStatus))
               (priority : option (TaskPriority * TaskPriority)).

Inductive Metadata :=
| MetaTitle (title : string)
| MetaComment (commentId : Id).

(** A document of the [taskActivity] table. *)
Module Activity.
Record t := mk {
  taskId : Id;
  userId : string;
  action : TaskActivityAction;
  changes : option Changes;
  metadata : option Metadata;
  createdAt : Z
}.
End Activity.

(** ** The store and the handler monad *)

Inductive WriteOp := Inserted | Patched | Deleted.

(** One entry of the write log: the operation, the table and the document. *)
Record Write := { w_op : WriteOp; w_table : string; w_id : Id }.

Record DB := {
  tasks : gmap N Task.t;
  categories : gmap N Category.t;
  taskComments : gmap N TaskComment.t;
  taskActivity : gmap N Activity.t;
  writes : list Write
}.

(** What a handler throws.  The constructors follow the messages of the
    source: "Not authenticated", "Rate limit exceeded. Retry after ..ms",
    ".. not found", "Not authorized to ..", the messages of the validation
    step, "Maximum .. categories allowed per user", and the error of the
    platform when [patch] or [delete] is given the id of no document. *)
Inductive Error :=
| NotAuthenticated
| RateLimited (retryAfter : Z)
| NotFound
| NotAuthorized
| InvalidInput (message : string)
| LimitReached (limit : Z)
| NonexistentDocument.

Definition M (A : Type) : Type := DB → (Error + A) * DB.

#[global] Instance M_ret : MRet M := λ A a st, (inr a, st).

#[global] Instance M_bind : MBind M :=
  λ A B k m st, match m st with
                | (inr a, st') => k a st'
                | (inl e, st') => (inl e, st')
                end.

#[global] Instance M_throw : MThrow Error M := λ A e st, (inl e, st).

(** [if (cond) throw new Error(..)]. *)
Definition throw_if (cond : bool) (e : Error) : M unit :=
  if cond then mthrow e else mret tt.

(** [for (const x of xs) { await body(x) }]. *)
Fixpoint for_of {A} (xs : list A) (body : A → M unit) : M unit :=
  match xs with
  | [] => mret tt
  | x :: xs' => body x;; for_of xs' body
  end.

(** A table of the store, seen through the type of its documents. *)
Class Table (A : Type) := {
  table_name : string;
  get_table : DB → gmap N A;
  set_table : gmap N A → DB → DB
}.

Definition log (w : Write) (st : DB) : DB :=
  {| tasks := tasks st; categories := categories st;
     taskComments := taskComments st; taskActivity := taskActivity st;
     writes := writes st ++ [w] |}.

#[global] Instance tasks_table : Table Task.t := {|
  table_name := "tasks";
  get_table := tasks;
  set_table m st :=
    {| tasks := m; categories := categories st;
       taskComments := taskComments st; taskActivity := taskActivity st;
       writes := writes st |}
|}.

#[global] Instance categories_table : Table Category.t := {|
  table_name := "categories";
  get_table := categories;
  set_table m st :=
    {| tasks := tasks st; categories := m;
       taskComments := taskComments st; taskActivity := taskActivity st;
       writes := writes st |}
|}.

#[global] Instance taskComments_table : Table TaskComment.t := {|
  table_name := "taskComments";
  get_table := taskComments;
  set_table m st :=
    {| tasks := tasks st; categories := categories st;
       taskComments := m; taskActivity := taskActivity st;
       writes := writes st |}
|}.

#[global] Instance taskActivity_table : Table Activity.t := {|
  table_name := "taskActivity";
  get_table := taskActivity;
  set_table m st :=
    {| tasks := tasks st; categories := categories st;
       taskComments := taskComments st; taskActivity := m;
       writes := writes st |}
|}.

(** [ctx.db]: the operations of the platform on one table. *)
Module db.
Section ops.
Context {A : Type} `{Table A}.

Definition write (op : WriteOp) (id : Id) (m : gmap N A) (st : DB) : DB :=
  log {| w_op := op; w_table := table_name; w_id := id |} (set_table m st).

(** [ctx.db.insert(table, doc)] returns the id of the new document. *)
Definition insert (doc : A) : M Id :=
  λ st, let id := fresh (dom (get_table st)) in
        (inr id, write Inserted id (<[id := doc]> (get_table st)) st).

(** [ctx.db.get(id)]: the document, or [null]. *)
Definition get (id : Id) : M (option A) :=
  λ st, (inr (get_table st !! id), st).

(** [ctx.db.patch(id, partial)]; throws when there is no such
    document.  The partial document is given by its effect [merge]. *)
Definition patch (id : Id) (merge : A → A) : M unit :=
  λ st, match get_table st !! id with
        | Some d => (inr tt, write Patched id (<[id := merge d]> (get_table st)) st)
        | None => (inl NonexistentDocument, st)
        end.

(** [ctx.db.delete(id)]; throws when there is no such document. *)
Definition delete (id : Id) : M unit :=
  λ st, match get_table st !! id with
        | Some _ => (inr tt, write Deleted id (base.delete id (get_table st)) st)
        | None => (inl NonexistentDocument, st)
        end.

(** [ctx.db.query(table).withIndex(.., q => q.eq(..)).collect()]:
    the documents that satisfy the index range, with their ids. *)
Definition collect (range : A → bool) : M (list (Id * A)) :=
  λ st, (inr (List.filter (λ doc, range doc.2) (map_to_list (get_table st))), st).
End ops.
End db.

(** ** What the platform gives a handler besides the store *)

(** The authenticated user of [authComponent.getAuthUser]. *)
Record AuthUser := { _id : string }.

(** The answer of [rateLimiter.limit]. *)
Record RateLimitStatus := { ok : bool; retryAfter : Z }.

(** The context of one handler invocation: the caller, the frozen clock,
    the answer of the rate limiter for each (operation, key), and the
    full-text matching of the search index ([text_search field query]). *)
Record Ctx := {
  auth : option AuthUser;
  now : Z;
  limiter : string → string → RateLimitStatus;
  text_search : string → string → bool
}.

Definition getAuthUser (ctx : Ctx) : option AuthUser := auth ctx.

Definition rateLimiter_limit (ctx : Ctx) (name key : string) : RateLimitStatus :=
  limiter ctx name key.

(** [const authUser = await authComponent.getAuthUser(ctx);
    if (!authUser) throw new Error("Not authenticated")]. *)
Definition authenticate (ctx : Ctx) : M AuthUser :=
  match getAuthUser ctx with
  | Some authUser => mret authUser
  | None => mthrow NotAuthenticated
  end.

(** [const s = await rateLimiter.limit(ctx, name, { key });
    if (!s.ok) throw new Error(`Rate limit exceeded. ..`)]. *)
Definition rate_limit (ctx : Ctx) (name key : string) : M unit :=
  let rateLimitStatus := rateLimiter_limit ctx name key in
  throw_if (negb (ok rateLimitStatus)) (RateLimited (retryAfter rateLimitStatus)).

(** ** helpers/constants.ts *)

Definition PAGINATION_LIMIT : nat := 50.
Definition MAX_SEARCH_RESULTS : nat := 100.
Definition MAX_CATEGORIES_PER_USER : nat := 50.
Definition DEFAULT_PRIORITY : TaskPriority := medium.
Definition DEFAULT_STATUS : TaskStatus := todo.

(** ** helpers/validation.ts *)

Module validation.

Definition isValidTaskTitle (title : string) : bool :=
  (0 <? String.length title)%nat && (String.length title <=? 200)%nat.

Definition isValidTaskDescription (description : string) : bool :=
  (String.length description <=? 5000)%nat.

(** [Date.now()] is the argument [now]. *)
Definition isValidDueDate (now dueDate : Z) : bool :=
  let oneDayAgo := now - 24 * 60 * 60 * 1000 in
  oneDayAgo <=? dueDate.

Definition isValidTags (tags : list string) : bool :=
  if (10 <? length tags)%nat then false
  else forallb (λ tag, (0 <? String.length tag)%nat && (String.length tag <=? 30)%nat) tags.

Definition isValidCategoryName (name : string) : bool :=
  (0 <? String.length name)%nat && (String.length name <=? 50)%nat.

Definition in_range (lo hi : nat) (c : ascii) : bool :=
  (lo <=? nat_of_ascii c)%nat && (nat_of_ascii c <=? hi)%nat.

(** One character of [[0-9A-F]] under the flag [i]. *)
Definition is_hex_digit (c : ascii) : bool :=
  in_range 48 57 c || in_range 65 70 c || in_range 97 102 c.

(** [/^#[0-9A-F]{6}$/i.test(color)]. *)
Definition isValidHexColor (color : string) : bool :=
  match color with
  | String "#" digits =>
      (String.length digits =? 6)%nat && forallb is_hex_digit (String.list_ascii_of_string digits)
  | _ => false
  end.

(** One character of [[a-z-]] under the flag [i]. *)
Definition is_icon_char (c : ascii) : bool :=
  in_range 97 122 c || in_range 65 90 c || (nat_of_ascii c =? 45)%nat.

(** [icon.length > 0 && icon.length <= 50 && /^[a-z-]+$/i.test(icon)]. *)
Definition isValidIconName (icon : string) : bool :=
  (0 <? String.length icon)%nat && (String.length icon <=? 50)%nat
  && forallb is_icon_char (String.list_ascii_of_string icon).

(** White space of [String.prototype.trim] among the 8-bit characters. *)
Definition is_whitespace (c : ascii) : bool :=
  in_range 9 13 c || (nat_of_ascii c =? 32)%nat || (nat_of_ascii c =? 160)%nat.

Fixpoint trimStart (s : string) : string :=
  match s with
  | String c s' => if is_whitespace c then trimStart s' else s
  | EmptyString => EmptyString
  end.

(** [input.trim()]. *)
Definition sanitizeInput (input : string) : string :=
  String.rev (trimStart (String.rev (trimStart input))).

Definition isValidCommentContent (content : string) : bool :=
  (0 <? String.length content)%nat && (String.length content <=? 2000)%nat.

Definition isValidReminderHours (hours : Z) : bool :=
  (0 <=? hours) && (hours <=? 168).

(** [Number.isInteger(order) && order >= 0], on the integers. *)
Definition isValidOrder (order : Z) : bool := 0 <=? order.

End validation.

(** JavaScript truthiness of an optional string, number or array, as in
    [args.description && ..], [args.dueDate && ..], [args.tags && ..]. *)
Definition truthy_string (o : option string) : option string :=
  match o with
  | Some s => if bool_decide (s = "") then None else Some s
  | None => None
  end.

Definition truthy_number (o : option Z) : option Z :=
  match o with
  | Some n => if n =? 0 then None else Some n
  | None => None
  end.

(** [o && !valid(o)], for an [o] that has gone through the truthiness test. *)
Definition present_and_not {A} (o : option A) (valid : A → bool) : bool :=
  match o with
  | Some a => negb (valid a)
  | None => false
  end.

(** ** db/tasks.ts *)

Module Tasks.

Record CreateTaskArgs := {
  userId : string;
  title : string;
  description : option string;
  categoryId : option Id;
  priority : TaskPriority;
  status : TaskStatus;
  dueDate : option Z;
  tags : option (list string);
  order : Z
}.

Definition createTask (ctx : Ctx) (args : CreateTaskArgs) : M Id :=
  let now := now ctx in
  db.insert
    {| Task.userId := userId args; Task.title := title args;
       Task.description := description args; Task.categoryId := categoryId args;
       Task.priority := priority args; Task.status := status args;
       Task.dueDate := dueDate args; Task.completedAt := None;
       Task.tags := tags args; Task.order := order args;
       Task.createdAt := now; Task.updatedAt := now |}.

Definition getTaskById (ctx : Ctx) (id : Id) : M (option Task.t) :=
  db.get id.

(** Index [by_user], [order("desc")]. *)
Definition getTasksByUser (ctx : Ctx) (userId : string) : M (list (Id * Task.t)) :=
  docs ← db.collect (λ t, bool_decide (Task.userId t = userId));
  mret (reverse docs).

(** Index [by_user_and_due_date], then the filter of the source. *)
Definition getOverdueTasks (ctx : Ctx) (userId : string) : M (list (Id * Task.t)) :=
  let now := now ctx in
  tasks ← db.collect (λ t, bool_decide (Task.userId t = userId));
  mret (List.filter (λ task,
          match truthy_number (Task.dueDate task.2) with
          | Some dueDate =>
              (dueDate <? now)
              && negb (bool_decide (Task.status task.2 = completed))
              && negb (bool_decide (Task.status task.2 = archived))
          | None => false
          end) tasks).

(** Search index [search_title]: [q.search("title", searchQuery)
    .eq("userId", userId)], and [.eq("status", status)] when a status is
    given; then [collect()]. *)
Definition searchTasks (ctx : Ctx) (userId searchQuery : string)
    (status : option TaskStatus) : M (list (Id * Task.t)) :=
  db.collect (λ t,
    let search :=
      text_search ctx (Task.title t) searchQuery
      && bool_decide (Task.userId t = userId) in
    match status with
    | Some status => search && bool_decide (Task.status t = status)
    | None => search
    end).

(** Index [by_category]. *)
Definition getTasksByCategory (ctx : Ctx) (categoryId : Id) : M (list (Id * Task.t)) :=
  db.collect (λ t, bool_decide (Task.categoryId t = Some categoryId)).

(** [{ ...args, updatedAt: Date.now() }]. *)
Definition with_updatedAt (args : TaskPatch.t) (now : Z) : TaskPatch.t :=
  {| TaskPatch.title := TaskPatch.title args;
     TaskPatch.description := TaskPatch.description args;
     TaskPatch.categoryId := TaskPatch.categoryId args;
     TaskPatch.priority := TaskPatch.priority args;
     TaskPatch.status := TaskPatch.status args;
     TaskPatch.dueDate := TaskPatch.dueDate args;
     TaskPatch.completedAt := TaskPatch.completedAt args;
     TaskPatch.tags := TaskPatch.tags args;
     TaskPatch.order := TaskPatch.order args;
     TaskPatch.updatedAt := Some now |}.

Definition updateTask (ctx : Ctx) (id : Id) (args : TaskPatch.t) : M unit :=
  db.patch id (TaskPatch.apply (with_updatedAt args (now ctx))).

Definition completeTask (ctx : Ctx) (id : Id) : M unit :=
  db.patch id (TaskPatch.apply
    {| TaskPatch.title := None; TaskPatch.description := absent;
       TaskPatch.categoryId := absent; TaskPatch.priority := None;
       TaskPatch.status := Some completed;
       TaskPatch.dueDate := absent;
       TaskPatch.completedAt := value (now ctx);
       TaskPatch.tags := absent; TaskPatch.order := None;
       TaskPatch.updatedAt := Some (now ctx) |}).

Definition reopenTask (ctx : Ctx) (id : Id) : M unit :=
  db.patch id (TaskPatch.apply
    {| TaskPatch.title := None; TaskPatch.description := absent;
       TaskPatch.categoryId := absent; TaskPatch.priority := None;
       TaskPatch.status := Some todo;
       TaskPatch.dueDate := absent;
       TaskPatch.completedAt := undefined;
       TaskPatch.tags := absent; TaskPatch.order := None;
       TaskPatch.updatedAt := Some (now ctx) |}).

Definition archiveTask (ctx : Ctx) (id : Id) : M unit :=
  db.patch id (TaskPatch.apply
    {| TaskPatch.title := None; TaskPatch.description := absent;
       TaskPatch.categoryId := absent; TaskPatch.priority := None;
       TaskPatch.status := Some archived;
       TaskPatch.dueDate := absent;
       TaskPatch.completedAt := absent;
       TaskPatch.tags := absent; TaskPatch.order := None;
       TaskPatch.updatedAt := Some (now ctx) |}).

(** The partial document [{ order, updatedAt: now }]. *)
Definition order_patch (order now : Z) : TaskPatch.t :=
  {| TaskPatch.title := None; TaskPatch.description := absent;
     TaskPatch.categoryId := absent; TaskPatch.priority := None;
     TaskPatch.status := None;
     TaskPatch.dueDate := absent;
     TaskPatch.completedAt := absent;
     TaskPatch.tags := absent; TaskPatch.order := Some order;
     TaskPatch.updatedAt := Some now |}.

Definition updateTaskOrders (ctx : Ctx) (updates : list (Id * Z)) : M unit :=
  let now := now ctx in
  for_of updates (λ '(id, order), db.patch id (TaskPatch.apply (order_patch order now))).

Definition deleteTask (ctx : Ctx) (id : Id) : M unit :=
  db.delete (A := Task.t) id.

Definition deleteTasks (ctx : Ctx) (ids : list Id) : M unit :=
  for_of ids (λ id, db.delete (A := Task.t) id).

(** Index [by_user_and_status], [order("desc")]. *)
Definition getTasksByUserAndStatus (ctx : Ctx) (userId : string) (status : TaskStatus)
    : M (list (Id * Task.t)) :=
  docs ← db.collect (λ t, bool_decide (Task.userId t = userId)
                           && bool_decide (Task.status t = status));
  mret (reverse docs).

(** Index [by_user_and_category], [order("desc")]. *)
Definition getTasksByUserAndCategory (ctx : Ctx) (userId : string) (categoryId : Id)
    : M (list (Id * Task.t)) :=
  docs ← db.collect (λ t, bool_decide (Task.userId t = userId)
                           && bool_decide (Task.categoryId t = Some categoryId));
  mret (reverse docs).

(** Index [by_user_and_priority], [order("desc")]. *)
Definition getTasksByUserAndPriority (ctx : Ctx) (userId : string)
    (priority : TaskPriority) : M (list (Id * Task.t)) :=
  docs ← db.collect (λ t, bool_decide (Task.userId t = userId)
                           && bool_decide (Task.priority t = priority));
  mret (reverse docs).

(** Index [by_user_and_due_date] with the range [q.eq("userId", userId)]
    only, [order("asc")]: a task without [dueDate] is in the index too. *)
Definition getTasksByUserWithDueDates (ctx : Ctx) (userId : string)
    : M (list (Id * Task.t)) :=
  db.collect (λ t, bool_decide (Task.userId t = userId)).

End Tasks.

(** ** db/taskComments.ts *)

Module TaskComments.

(** Index [by_task], then one [delete] per comment. *)
Definition deleteCommentsByTask (ctx : Ctx) (taskId : Id) : M unit :=
  comments ← db.collect (λ c, bool_decide (TaskComment.taskId c = taskId));
  for_of comments (λ comment, db.delete (A := TaskComment.t) comment.1).

Record CreateTaskCommentArgs := {
  taskId : Id;
  userId : string;
  content : string
}.

Definition createTaskComment (ctx : Ctx) (args : CreateTaskCommentArgs) : M Id :=
  let now := now ctx in
  db.insert
    {| TaskComment.taskId := taskId args; TaskComment.userId := userId args;
       TaskComment.content := content args;
       TaskComment.createdAt := now; TaskComment.updatedAt := now |}.

Definition getTaskCommentById (ctx : Ctx) (id : Id) : M (option TaskComment.t) :=
  db.get id.

(** Index [by_task_and_created], [order("asc")]. *)
Definition getCommentsByTask (ctx : Ctx) (taskId : Id) : M (list (Id * TaskComment.t)) :=
  db.collect (λ c, bool_decide (TaskComment.taskId c = taskId)).

(** Index [by_user], [order("desc")]. *)
Definition getCommentsByUser (ctx : Ctx) (userId : string)
    : M (list (Id * TaskComment.t)) :=
  docs ← db.collect (λ c, bool_decide (TaskComment.userId c = userId));
  mret (reverse docs).

Definition getCommentCountByTask (ctx : Ctx) (taskId : Id) : M nat :=
  comments ← db.collect (λ c, bool_decide (TaskComment.taskId c = taskId));
  mret (length comments).

(** The effect of the partial document [{ content, updatedAt: now }]. *)
Definition content_patch (content : string) (now : Z) (c : TaskComment.t) : TaskComment.t :=
  {| TaskComment.taskId := TaskComment.taskId c;
     TaskComment.userId := TaskComment.userId c;
     TaskComment.content := content;
     TaskComment.createdAt := TaskComment.createdAt c;
     TaskComment.updatedAt := now |}.

(** [UpdateTaskCommentArgs] has the one field [content]. *)
Definition updateTaskComment (ctx : Ctx) (id : Id) (content : string) : M unit :=
  db.patch id (content_patch content (now ctx)).

Definition deleteTaskComment (ctx : Ctx) (id : Id) : M unit :=
  db.delete (A := TaskComment.t) id.

End TaskComments.

(** ** db/taskActivity.ts *)

Module TaskActivity.

Record CreateTaskActivityArgs := {
  taskId : Id;
  userId : string;
  action : TaskActivityAction;
  changes : option Changes;
  metadata : option Metadata
}.

Definition createTaskActivity (ctx : Ctx) (args : CreateTaskActivityArgs) : M Id :=
  db.insert
    {| Activity.taskId := taskId args; Activity.userId := userId args;
       Activity.action := action args; Activity.changes := changes args;
       Activity.metadata := metadata args; Activity.createdAt := now ctx |}.

Definition logTaskCreated (ctx : Ctx) (taskId : Id) (userId : string)
    (metadata : option Metadata) : M Id :=
  createTaskActivity ctx
    {| taskId := taskId; userId := userId; action := created;
       changes := None; metadata := metadata |}.

Definition logTaskUpdated (ctx : Ctx) (taskId : Id) (userId : string)
    (changes : Changes) : M Id :=
  createTaskActivity ctx
    {| taskId := taskId; userId := userId; action := updated;
       changes := Some changes; metadata := None |}.

Definition logStatusChanged (ctx : Ctx) (taskId : Id) (userId : string)
    (oldStatus newStatus : TaskStatus) : M Id :=
  createTaskActivity ctx
    {| taskId := taskId; userId := userId; action := status_changed;
       changes := Some (StatusChange oldStatus newStatus); metadata := None |}.

Definition logTaskCompleted (ctx : Ctx) (taskId : Id) (userId : string) : M Id :=
  createTaskActivity ctx
    {| taskId := taskId; userId := userId; action := action_completed;
       changes := None; metadata := None |}.

Definition logTaskDeleted (ctx : Ctx) (taskId : Id) (userId : string)
    (metadata : option Metadata) : M Id :=
  createTaskActivity ctx
    {| taskId := taskId; userId := userId; action := deleted;
       changes := None; metadata := metadata |}.

(** Index [by_task], then one [delete] per activity record. *)
Definition deleteActivityByTask (ctx : Ctx) (taskId : Id) : M unit :=
  activities ← db.collect (λ a, bool_decide (Activity.taskId a = taskId));
  for_of activities (λ activity, db.delete (A := Activity.t) activity.1).

Definition logTaskCommented (ctx : Ctx) (taskId : Id) (userId : string)
    (commentId : Id) : M Id :=
  createTaskActivity ctx
    {| taskId := taskId; userId := userId; action := commented;
       changes := None; metadata := Some (MetaComment commentId) |}.

(** Index [by_task_and_created], [order("desc")]. *)
Definition getActivityByTask (ctx : Ctx) (taskId : Id) : M (list (Id * Activity.t)) :=
  docs ← db.collect (λ a, bool_decide (Activity.taskId a = taskId));
  mret (reverse docs).

(** Index [by_user], [order("desc")]. *)
Definition getActivityByUser (ctx : Ctx) (userId : string) : M (list (Id * Activity.t)) :=
  docs ← db.collect (λ a, bool_decide (Activity.userId a = userId));
  mret (reverse docs).

(** Index [by_user], [order("desc")], [take(limit)]. *)
Definition getRecentActivityByUser (ctx : Ctx) (userId : string) (limit : nat)
    : M (list (Id * Activity.t)) :=
  docs ← db.collect (λ a, bool_decide (Activity.userId a = userId));
  mret (take limit (reverse docs)).

End TaskActivity.

(** ** Arithmetic on the orders

    An [order] is a JavaScript number, an IEEE 754 binary64 value that no
    handler validates ([v.number()]; [isValidOrder] is called nowhere).
    The model keeps the orders that are integers, by their value.  A
    binary64 number has 53 significant bits: every integer of magnitude up
    to 2^53 is one, and beyond that only the multiples of [ulp]. *)


(** The distance between neighbouring binary64 numbers at the magnitude
    of [z], for [z] of magnitude 2^53 or more. *)
Definition ulp (z : Z) : Z := 2 ^ (Z.log2 (Z.abs z) - 52).

(** The result of a binary64 operation whose exact result is the integer
    [z] (of magnitude below 2^1024): the binary64 number nearest to [z],
    and of two equally near ones the one with the even significand
    (roundTiesToEven). *)
Definition to_binary64 (z : Z) : Z :=
  if Z.abs z <? 2 ^ 53 then z
  else
    let u := ulp z in
    let q := Z.abs z / u in
    let r := Z.abs z mod u in
    let q' := if 2 * r <? u then q
              else if u <? 2 * r then q + 1
              else if Z.even q then q else q + 1 in
    Z.sgn z * (q' * u).

(** [Math.max(x, ...xs)] of integers: the greatest of its arguments;
    [Math.max] selects and does not round. *)
Definition Math_max (x : Z) (xs : list Z) : Z := foldl Z.max x xs.

(** [xs.length > 0 ? Math.max(...xs) + 1 : 0]; the sum is a binary64
    sum. *)
Definition next_order (orders : list Z) : Z :=
  match orders with
  | x :: xs => to_binary64 (Math_max x xs + 1)
  | [] => 0
  end.

(** ** db/categories.ts *)

Module Categories.

Record CreateCategoryArgs := {
  userId : string;
  name : string;
  color : string;
  icon : option string;
  order : Z
}.

Definition createCategory (ctx : Ctx) (args : CreateCategoryArgs) : M Id :=
  let now := now ctx in
  db.insert
    {| Category.userId := userId args; Category.name := name args;
       Category.color := color args; Category.icon := icon args;
       Category.order := order args;
       Category.createdAt := now; Category.updatedAt := now |}.

Definition getCategoryById (ctx : Ctx) (id : Id) : M (option Category.t) :=
  db.get id.

(** Index [by_user_and_order], [order("asc")]. *)
Definition getCategoriesByUser (ctx : Ctx) (userId : string)
    : M (list (Id * Category.t)) :=
  db.collect (λ c, bool_decide (Category.userId c = userId)).

Definition getNextCategoryOrder (ctx : Ctx) (userId : string) : M Z :=
  categories ← db.collect (λ c, bool_decide (Category.userId c = userId));
  mret (next_order (map (λ c, Category.order c.2) categories)).

Definition deleteCategory (ctx : Ctx) (id : Id) : M unit :=
  db.delete (A := Category.t) id.

(** [{ ...args, updatedAt: Date.now() }]. *)
Definition with_updatedAt (args : CategoryPatch.t) (now : Z) : CategoryPatch.t :=
  {| CategoryPatch.name := CategoryPatch.name args;
     CategoryPatch.color := CategoryPatch.color args;
     CategoryPatch.icon := CategoryPatch.icon args;
     CategoryPatch.order := CategoryPatch.order args;
     CategoryPatch.updatedAt := Some now |}.

Definition updateCategory (ctx : Ctx) (id : Id) (args : CategoryPatch.t) : M unit :=
  db.patch id (CategoryPatch.apply (with_updatedAt args (now ctx))).

(** The partial document [{ order, updatedAt: now }]. *)
Definition order_patch (order now : Z) : CategoryPatch.t :=
  {| CategoryPatch.name := None; CategoryPatch.color := None;
     CategoryPatch.icon := absent; CategoryPatch.order := Some order;
     CategoryPatch.updatedAt := Some now |}.

Definition updateCategoryOrders (ctx : Ctx) (updates : list (Id * Z)) : M unit :=
  let now := now ctx in
  for_of updates (λ '(id, order), db.patch id (CategoryPatch.apply (order_patch order now))).

End Categories.

(** ** endpoints/tasks.ts *)

Module TasksEndpoint.

(** [search]: the empty or blank query yields no result. *)
Definition search (ctx : Ctx) (query : string) (status : option TaskStatus)
    : M (list (Id * Task.t)) :=
  authUser ← authenticate ctx;
  if bool_decide (query = "")
     || (String.length (validation.sanitizeInput query) =? 0)%nat
  then mret []
  else Tasks.searchTasks ctx (_id authUser) query status.

Definition get (ctx : Ctx) (id : Id) : M Task.t :=
  authUser ← authenticate ctx;
  task ← Tasks.getTaskById ctx id;
  match task with
  | None => mthrow NotFound
  | Some task =>
      throw_if (negb (bool_decide (Task.userId task = _id authUser))) NotAuthorized;;
      mret task
  end.

Record CreateArgs := {
  c_title : string;
  c_description : option string;
  c_categoryId : option Id;
  c_priority : option TaskPriority;
  c_dueDate : option Z;
  c_tags : option (list string)
}.

Definition create (ctx : Ctx) (args : CreateArgs) : M Id :=
  (* Authentication *)
  authUser ← authenticate ctx;
  (* Rate limiting *)
  rate_limit ctx "createTask" (_id authUser);;
  (* Validation *)
  let title := validation.sanitizeInput (c_title args) in
  throw_if (negb (validation.isValidTaskTitle title))
    (InvalidInput "Title must be between 1 and 200 characters");;
  throw_if (present_and_not (truthy_string (c_description args))
              validation.isValidTaskDescription)
    (InvalidInput "Description must be less than 5000 characters");;
  throw_if (present_and_not (c_tags args) validation.isValidTags)
    (InvalidInput "Invalid tags: maximum 10 tags, each up to 30 characters");;
  throw_if (present_and_not (truthy_number (c_dueDate args))
              (validation.isValidDueDate (now ctx)))
    (InvalidInput "Invalid due date");;
  (* Get next order for this user *)
  existingTasks ← Tasks.getTasksByUser ctx (_id authUser);
  let nextOrder := next_order (map (λ t, Task.order t.2) existingTasks) in
  (* Create task *)
  taskId ← Tasks.createTask ctx
    {| Tasks.userId := _id authUser;
       Tasks.title := title;
       Tasks.description := c_description args;
       Tasks.categoryId := c_categoryId args;
       Tasks.priority := default DEFAULT_PRIORITY (c_priority args);
       Tasks.status := DEFAULT_STATUS;
       Tasks.dueDate := c_dueDate args;
       Tasks.tags := c_tags args;
       Tasks.order := nextOrder |};
  (* Log activity *)
  TaskActivity.logTaskCreated ctx taskId (_id authUser) None;;
  mret taskId.

Record UpdateArgs := {
  u_id : Id;
  u_title : option string;
  u_description : option string;
  u_categoryId : option Id;
  u_priority : option TaskPriority;
  u_status : option TaskStatus;
  u_dueDate : option Z;
  u_tags : option (list string)
}.

(** [const { id, ...updateArgs } = args]. *)
Definition updateArgs (args : UpdateArgs) : TaskPatch.t :=
  {| TaskPatch.title := u_title args;
     TaskPatch.description := spread (u_description args);
     TaskPatch.categoryId := spread (u_categoryId args);
     TaskPatch.priority := u_priority args;
     TaskPatch.status := u_status args;
     TaskPatch.dueDate := spread (u_dueDate args);
     TaskPatch.completedAt := absent;
     TaskPatch.tags := spread (u_tags args);
     TaskPatch.order := None;
     TaskPatch.updatedAt := None |}.

(** [args.x !== undefined && args.x !== task.x], with the old and the
    new value. *)
Definition changed {A} `{EqDecision A} (new : option A) (old : A) : option (A * A) :=
  match new with
  | Some v => if bool_decide (v = old) then None else Some (old, v)
  | None => None
  end.

Definition update (ctx : Ctx) (args : UpdateArgs) : M Id :=
  (* Authentication *)
  authUser ← authenticate ctx;
  (* Rate limiting *)
  rate_limit ctx "updateTask" (_id authUser);;
  (* Verify ownership *)
  task ← Tasks.getTaskById ctx (u_id args);
  match task with
  | None => mthrow NotFound
  | Some task =>
      throw_if (negb (bool_decide (Task.userId task = _id authUser))) NotAuthorized;;
      (* Validation *)
      throw_if (present_and_not (u_title args)
                  (λ title, validation.isValidTaskTitle (validation.sanitizeInput title)))
        (InvalidInput "Title must be between 1 and 200 characters");;
      throw_if (present_and_not (truthy_string (u_description args))
                  validation.isValidTaskDescription)
        (InvalidInput "Description must be less than 5000 characters");;
      throw_if (present_and_not (u_tags args) validation.isValidTags)
        (InvalidInput "Invalid tags: maximum 10 tags, each up to 30 characters");;
      throw_if (present_and_not (truthy_number (u_dueDate args))
                  (validation.isValidDueDate (now ctx)))
        (InvalidInput "Invalid due date");;
      (* Track changes for activity log *)
      let title_change := (λ title, (Task.title task, title)) <$> u_title args in
      let status_change := changed (u_status args) (Task.status task) in
      let priority_change := changed (u_priority args) (Task.priority task) in
      (* Update task *)
      let id := u_id args in
      Tasks.updateTask ctx id (updateArgs args);;
      (* Log activity *)
      match status_change with
      | Some (oldStatus, newStatus) =>
          TaskActivity.logStatusChanged ctx id (_id authUser) oldStatus newStatus;;
          mret id
      | None =>
          match title_change, priority_change with
          | None, None => mret id
          | _, _ =>
              TaskActivity.logTaskUpdated ctx id (_id authUser)
                (FieldChanges title_change status_change priority_change);;
              mret id
          end
      end
  end.

(** The first steps shared by [complete], [reopen], [archive]:
    authentication, then the ownership check. *)
Definition owned_task (ctx : Ctx) (id : Id) : M (AuthUser * Task.t) :=
  authUser ← authenticate ctx;
  task ← Tasks.getTaskById ctx id;
  match task with
  | None => mthrow NotFound
  | Some task =>
      throw_if (negb (bool_decide (Task.userId task = _id authUser))) NotAuthorized;;
      mret (authUser, task)
  end.

Definition complete (ctx : Ctx) (id : Id) : M Id :=
  '(authUser, task) ← owned_task ctx id;
  Tasks.completeTask ctx id;;
  TaskActivity.logTaskCompleted ctx id (_id authUser);;
  mret id.

Definition reopen (ctx : Ctx) (id : Id) : M Id :=
  '(authUser, task) ← owned_task ctx id;
  Tasks.reopenTask ctx id;;
  TaskActivity.logStatusChanged ctx id (_id authUser) completed todo;;
  mret id.

Definition archive (ctx : Ctx) (id : Id) : M Id :=
  '(authUser, task) ← owned_task ctx id;
  Tasks.archiveTask ctx id;;
  TaskActivity.logStatusChanged ctx id (_id authUser) (Task.status task) archived;;
  mret id.

Definition remove (ctx : Ctx) (id : Id) : M Id :=
  (* Authentication *)
  authUser ← authenticate ctx;
  (* Rate limiting *)
  rate_limit ctx "deleteTask" (_id authUser);;
  (* Verify ownership *)
  task ← Tasks.getTaskById ctx id;
  match task with
  | None => mthrow NotFound
  | Some task =>
      throw_if (negb (bool_decide (Task.userId task = _id authUser))) NotAuthorized;;
      (* Log activity before deletion *)
      TaskActivity.logTaskDeleted ctx id (_id authUser)
        (Some (MetaTitle (Task.title task)));;
      (* Delete related data *)
      TaskComments.deleteCommentsByTask ctx id;;
      TaskActivity.deleteActivityByTask ctx id;;
      (* Delete task *)
      Tasks.deleteTask ctx id;;
      mret id
  end.

(** The ownership check of one entry of a reorder request. *)
Definition verify_update (ctx : Ctx) (authUser : AuthUser) (update : Id * Z) : M unit :=
  task ← Tasks.getTaskById ctx update.1;
  match task with
  | None => mthrow NotFound
  | Some task =>
      throw_if (negb (bool_decide (Task.userId task = _id authUser))) NotAuthorized
  end.

Definition reorder (ctx : Ctx) (updates : list (Id * Z)) : M bool :=
  (* Authentication *)
  authUser ← authenticate ctx;
  (* Verify ownership of all tasks *)
  for_of updates (verify_update ctx authUser);;
  (* Update orders *)
  Tasks.updateTaskOrders ctx updates;;
  mret true.

Definition listByStatus (ctx : Ctx) (status : TaskStatus) : M (list (Id * Task.t)) :=
  authUser ← authenticate ctx;
  Tasks.getTasksByUserAndStatus ctx (_id authUser) status.

Definition listByCategory (ctx : Ctx) (categoryId : Id) : M (list (Id * Task.t)) :=
  authUser ← authenticate ctx;
  Tasks.getTasksByUserAndCategory ctx (_id authUser) categoryId.

Definition listByPriority (ctx : Ctx) (priority : TaskPriority)
    : M (list (Id * Task.t)) :=
  authUser ← authenticate ctx;
  Tasks.getTasksByUserAndPriority ctx (_id authUser) priority.

Definition listWithDueDates (ctx : Ctx) : M (list (Id * Task.t)) :=
  authUser ← authenticate ctx;
  Tasks.getTasksByUserWithDueDates ctx (_id authUser).

Definition listOverdue (ctx : Ctx) : M (list (Id * Task.t)) :=
  authUser ← authenticate ctx;
  Tasks.getOverdueTasks ctx (_id authUser).

Definition list (ctx : Ctx) : M (list (Id * Task.t)) :=
  authUser ← authenticate ctx;
  Tasks.getTasksByUser ctx (_id authUser).

End TasksEndpoint.

(** ** endpoints/categories.ts *)

Inductive DeleteMode := unlink | deleteTasks.

Module CategoriesEndpoint.

Record CreateArgs := {
  c_name : string;
  c_color : string;
  c_icon : option string
}.

Definition create (ctx : Ctx) (args : CreateArgs) : M Id :=
  (* Authentication *)
  authUser ← authenticate ctx;
  (* Rate limiting *)
  rate_limit ctx "createCategory" (_id authUser);;
  (* Check category limit *)
  existingCategories ← Categories.getCategoriesByUser ctx (_id authUser);
  throw_if (MAX_CATEGORIES_PER_USER <=? length existingCategories)%nat
    (LimitReached (Z.of_nat MAX_CATEGORIES_PER_USER));;
  (* Validation *)
  let name := validation.sanitizeInput (c_name args) in
  throw_if (negb (validation.isValidCategoryName name))
    (InvalidInput "Category name must be between 1 and 50 characters");;
  throw_if (negb (validation.isValidHexColor (c_color args)))
    (InvalidInput "Invalid color format. Must be a hex color (e.g., #FF0000)");;
  throw_if (present_and_not (truthy_string (c_icon args)) validation.isValidIconName)
    (InvalidInput "Invalid icon name");;
  (* Get next order *)
  nextOrder ← Categories.getNextCategoryOrder ctx (_id authUser);
  (* Create category *)
  categoryId ← Categories.createCategory ctx
    {| Categories.userId := _id authUser;
       Categories.name := name;
       Categories.color := c_color args;
       Categories.icon := c_icon args;
       Categories.order := nextOrder |};
  mret categoryId.

(** The partial document [{ categoryId: undefined }]. *)
Definition unlink_patch : TaskPatch.t :=
  {| TaskPatch.title := None; TaskPatch.description := absent;
     TaskPatch.categoryId := undefined; TaskPatch.priority := None;
     TaskPatch.status := None;
     TaskPatch.dueDate := absent;
     TaskPatch.completedAt := absent;
     TaskPatch.tags := absent; TaskPatch.order := None;
     TaskPatch.updatedAt := None |}.

Definition remove (ctx : Ctx) (id : Id) (deleteMode : DeleteMode) : M Id :=
  (* Authentication *)
  authUser ← authenticate ctx;
  (* Rate limiting *)
  rate_limit ctx "deleteCategory" (_id authUser);;
  (* Verify ownership *)
  category ← Categories.getCategoryById ctx id;
  match category with
  | None => mthrow NotFound
  | Some category =>
      throw_if (negb (bool_decide (Category.userId category = _id authUser)))
        NotAuthorized;;
      (* Handle tasks in this category *)
      tasksInCategory ← Tasks.getTasksByCategory ctx id;
      match deleteMode with
      | deleteTasks =>
          (* Delete all tasks in this category *)
          Tasks.deleteTasks ctx (map (λ t, t.1) tasksInCategory)
      | unlink =>
          (* Unlink tasks from this category *)
          for_of tasksInCategory (λ task, Tasks.updateTask ctx task.1 unlink_patch)
      end;;
      (* Delete category *)
      Categories.deleteCategory ctx id;;
      mret id
  end.

Definition get (ctx : Ctx) (id : Id) : M Category.t :=
  authUser ← authenticate ctx;
  category ← Categories.getCategoryById ctx id;
  match category with
  | None => mthrow NotFound
  | Some category =>
      throw_if (negb (bool_decide (Category.userId category = _id authUser)))
        NotAuthorized;;
      mret category
  end.

Definition getTaskCount (ctx : Ctx) (categoryId : Id) : M nat :=
  authUser ← authenticate ctx;
  (* Verify category ownership *)
  category ← Categories.getCategoryById ctx categoryId;
  match category with
  | None => mthrow NotFound
  | Some category =>
      throw_if (negb (bool_decide (Category.userId category = _id authUser)))
        NotAuthorized;;
      tasks ← Tasks.getTasksByCategory ctx categoryId;
      mret (length tasks)
  end.

Record UpdateArgs := {
  u_id : Id;
  u_name : option string;
  u_color : option string;
  u_icon : option string
}.

(** [const { id, ...updateArgs } = args]. *)
Definition updateArgs (args : UpdateArgs) : CategoryPatch.t :=
  {| CategoryPatch.name := u_name args;
     CategoryPatch.color := u_color args;
     CategoryPatch.icon := spread (u_icon args);
     CategoryPatch.order := None;
     CategoryPatch.updatedAt := None |}.

Definition update (ctx : Ctx) (args : UpdateArgs) : M Id :=
  (* Authentication *)
  authUser ← authenticate ctx;
  (* Rate limiting *)
  rate_limit ctx "updateCategory" (_id authUser);;
  (* Verify ownership *)
  category ← Categories.getCategoryById ctx (u_id args);
  match category with
  | None => mthrow NotFound
  | Some category =>
      throw_if (negb (bool_decide (Category.userId category = _id authUser)))
        NotAuthorized;;
      (* Validation *)
      throw_if (present_and_not (u_name args)
                  (λ name, validation.isValidCategoryName (validation.sanitizeInput name)))
        (InvalidInput "Category name must be between 1 and 50 characters");;
      throw_if (present_and_not (truthy_string (u_color args)) validation.isValidHexColor)
        (InvalidInput "Invalid color format. Must be a hex color (e.g., #FF0000)");;
      throw_if (present_and_not (truthy_string (u_icon args)) validation.isValidIconName)
        (InvalidInput "Invalid icon name");;
      (* Update category *)
      let id := u_id args in
      Categories.updateCategory ctx id (updateArgs args);;
      mret id
  end.

(** The ownership check of one entry of a reorder request. *)
Definition verify_update (ctx : Ctx) (authUser : AuthUser) (update : Id * Z) : M unit :=
  category ← Categories.getCategoryById ctx update.1;
  match category with
  | None => mthrow NotFound
  | Some category =>
      throw_if (negb (bool_decide (Category.userId category = _id authUser)))
        NotAuthorized
  end.

Definition reorder (ctx : Ctx) (updates : list (Id * Z)) : M bool :=
  (* Authentication *)
  authUser ← authenticate ctx;
  (* Verify ownership of all categories *)
  for_of updates (verify_update ctx authUser);;
  (* Update orders *)
  Categories.updateCategoryOrders ctx updates;;
  mret true.

Definition list (ctx : Ctx) : M (list (Id * Category.t)) :=
  authUser ← authenticate ctx;
  Categories.getCategoriesByUser ctx (_id authUser).

End CategoriesEndpoint.

(** ** endpoints/dashboard.ts *)

(** A count (the [length] of an array) as a JavaScript number. *)
Definition toNumber (n : nat) : float :=
  PrimFloat.of_uint63 (Uint63.of_Z (Z.of_nat n)).

(** [Math.round(x)] of a finite [x]: the integer nearest to [x], the one
    towards plus infinity of two equally near ones, that is the floor of
    [x + 1/2] computed exactly.  (For a NaN or an infinity, which a ratio
    of counts with a positive denominator never is, the value here is 0.) *)
Definition Math_round (x : float) : Z :=
  match Prim2SF x with
  | S754_finite negative m e =>
      let '(num, den) :=
        if 0 <=? e then (Z.pos m * 2 ^ e, 1) else (Z.pos m, 2 ^ (- e)) in
      let num := if negative then - num else num in
      (2 * num + den) `div` (2 * den)
  | _ => 0
  end.

Module DashboardEndpoint.

(** The metrics of [summary] that are computed from the tasks and the
    categories of the caller; [recentActivityCount] and [perTable], which
    read other tables, are left out. *)
Record Summary := {
  totalTasks : nat;
  todoTasks : nat;
  inProgressTasks : nat;
  completedTasks : nat;
  overdueTasks : nat;
  highPriorityTasks : nat;
  totalCategories : nat;
  completionRate : Z
}.

(** [allTasks.filter((t) => t.status === s).length]. *)
Definition count_status (s : TaskStatus) (allTasks : list (Id * Task.t)) : nat :=
  length (List.filter (λ t, bool_decide (Task.status t.2 = s)) allTasks).

(** [activeTasksCount > 0
      ? Math.round((completedTasks / activeTasksCount) * 100) : 0]. *)
Definition completion_rate (completedTasks activeTasksCount : nat) : Z :=
  if (0 <? activeTasksCount)%nat
  then Math_round (PrimFloat.mul
                     (PrimFloat.div (toNumber completedTasks) (toNumber activeTasksCount))
                     100%float)
  else 0.

Definition summary (ctx : Ctx) : M Summary :=
  authUser ← authenticate ctx;
  (* Get all tasks for the user *)
  allTasks ← Tasks.getTasksByUser ctx (_id authUser);
  (* Calculate metrics *)
  let totalTasks := length allTasks in
  let todoTasks := count_status todo allTasks in
  let inProgressTasks := count_status in_progress allTasks in
  let completedTasks := count_status completed allTasks in
  (* Get overdue tasks *)
  overdueTasks ← Tasks.getOverdueTasks ctx (_id authUser);
  (* Get high priority tasks *)
  let highPriorityTasks :=
    length (List.filter (λ t,
      (bool_decide (Task.priority t.2 = high) || bool_decide (Task.priority t.2 = urgent))
      && negb (bool_decide (Task.status t.2 = completed))
      && negb (bool_decide (Task.status t.2 = archived))) allTasks) in
  (* Get categories count *)
  categories ← Categories.getCategoriesByUser ctx (_id authUser);
  let totalCategories := length categories in
  (* Calculate completion rate *)
  let activeTasksCount :=
    length (List.filter (λ t, negb (bool_decide (Task.status t.2 = archived))) allTasks) in
  let completionRate := completion_rate completedTasks activeTasksCount in
  mret {| totalTasks := totalTasks;
          todoTasks := todoTasks;
          inProgressTasks := inProgressTasks;
          completedTasks := completedTasks;
          overdueTasks := length overdueTasks;
          highPriorityTasks := highPriorityTasks;
          totalCategories := totalCategories;
          completionRate := completionRate |}.

(** [recent]: [tasks.slice(0, 10)]. *)
Definition recent (ctx : Ctx) : M (list (Id * Task.t)) :=
  authUser ← authenticate ctx;
  tasks ← Tasks.getTasksByUser ctx (_id authUser);
  mret (take 10 tasks).

Record StatusCounts := {
  sc_todo : nat;
  sc_in_progress : nat;
  sc_completed : nat;
  sc_archived : nat
}.

Definition tasksByStatus (ctx : Ctx) : M StatusCounts :=
  authUser ← authenticate ctx;
  allTasks ← Tasks.getTasksByUser ctx (_id authUser);
  mret {| sc_todo := count_status todo allTasks;
          sc_in_progress := count_status in_progress allTasks;
          sc_completed := count_status completed allTasks;
          sc_archived := count_status archived allTasks |}.

Record PriorityCounts := {
  pc_low : nat;
  pc_medium : nat;
  pc_high : nat;
  pc_urgent : nat
}.

(** [allTasks.filter((t) => t.priority === p).length]. *)
Definition count_priority (p : TaskPriority) (allTasks : list (Id * Task.t)) : nat :=
  length (List.filter (λ t, bool_decide (Task.priority t.2 = p)) allTasks).

Definition tasksByPriority (ctx : Ctx) : M PriorityCounts :=
  authUser ← authenticate ctx;
  allTasks ← Tasks.getTasksByUser ctx (_id authUser);
  mret {| pc_low := count_priority low allTasks;
          pc_medium := count_priority medium allTasks;
          pc_high := count_priority high allTasks;
          pc_urgent := count_priority urgent allTasks |}.

Definition recentActivity (ctx : Ctx) : M (list (Id * Activity.t)) :=
  authUser ← authenticate ctx;
  TaskActivity.getRecentActivityByUser ctx (_id authUser) 20.

End DashboardEndpoint.

(** ** endpoints/comments.ts *)

Module CommentsEndpoint.

Definition listByTask (ctx : Ctx) (taskId : Id) : M (list (Id * TaskComment.t)) :=
  authUser ← authenticate ctx;
  (* Verify task ownership *)
  task ← Tasks.getTaskById ctx taskId;
  match task with
  | None => mthrow NotFound
  | Some task =>
      throw_if (negb (bool_decide (Task.userId task = _id authUser))) NotAuthorized;;
      TaskComments.getCommentsByTask ctx taskId
  end.

Definition create (ctx : Ctx) (taskId : Id) (content : string) : M Id :=
  (* Authentication *)
  authUser ← authenticate ctx;
  (* Rate limiting *)
  rate_limit ctx "createComment" (_id authUser);;
  (* Verify task ownership *)
  task ← Tasks.getTaskById ctx taskId;
  match task with
  | None => mthrow NotFound
  | Some task =>
      throw_if (negb (bool_decide (Task.userId task = _id authUser))) NotAuthorized;;
      (* Validation *)
      let content := validation.sanitizeInput content in
      throw_if (negb (validation.isValidCommentContent content))
        (InvalidInput "Comment must be between 1 and 2000 characters");;
      (* Create comment *)
      commentId ← TaskComments.createTaskComment ctx
        {| TaskComments.taskId := taskId;
           TaskComments.userId := _id authUser;
           TaskComments.content := content |};
      (* Log activity *)
      TaskActivity.logTaskCommented ctx taskId (_id authUser) commentId;;
      mret commentId
  end.

Definition update (ctx : Ctx) (id : Id) (content : string) : M Id :=
  (* Authentication *)
  authUser ← authenticate ctx;
  (* Verify ownership *)
  comment ← TaskComments.getTaskCommentById ctx id;
  match comment with
  | None => mthrow NotFound
  | Some comment =>
      throw_if (negb (bool_decide (TaskComment.userId comment = _id authUser)))
        NotAuthorized;;
      (* Validation *)
      let content := validation.sanitizeInput content in
      throw_if (negb (validation.isValidCommentContent content))
        (InvalidInput "Comment must be between 1 and 2000 characters");;
      (* Update comment *)
      TaskComments.updateTaskComment ctx id content;;
      mret id
  end.

Definition remove (ctx : Ctx) (id : Id) : M Id :=
  (* Authentication *)
  authUser ← authenticate ctx;
  (* Rate limiting *)
  rate_limit ctx "deleteComment" (_id authUser);;
  (* Verify ownership *)
  comment ← TaskComments.getTaskCommentById ctx id;
  match comment with
  | None => mthrow NotFound
  | Some comment =>
      throw_if (negb (bool_decide (TaskComment.userId comment = _id authUser)))
        NotAuthorized;;
      (* Delete comment *)
      TaskComments.deleteTaskComment ctx id;;
      mret id
  end.

End CommentsEndpoint.

(** ** The completion rate as the specification words it *)

(** Follows the specification, not the source: round(100 * completed /
    (total - archived)), the nearest integer percent (the upper one of two
    equally near), and 0 when the denominator is 0. *)
Definition completionRate_spec (completed total archived : nat) : Z :=
  let denominator := Z.of_nat total - Z.of_nat archived in
  if denominator =? 0 then 0
  else (2 * (100 * Z.of_nat completed) + denominator) `div` (2 * denominator).

(** The number of categories of a user. *)
Definition category_count (st : DB) (userId : string) : nat :=
  length (List.filter (λ c, bool_decide (Category.userId c.2 = userId))
            (map_to_list (categories st))).

(** The task that [create] stores. *)
Definition created_task (ctx : Ctx) (u : AuthUser) (args : TasksEndpoint.CreateArgs)
    (st : DB) : Task.t :=
  {| Task.userId := _id u;
     Task.title := validation.sanitizeInput (TasksEndpoint.c_title args);
     Task.description := TasksEndpoint.c_description args;
     Task.categoryId := TasksEndpoint.c_categoryId args;
     Task.priority := default DEFAULT_PRIORITY (TasksEndpoint.c_priority args);
     Task.status := DEFAULT_STATUS;
     Task.dueDate := TasksEndpoint.c_dueDate args;
     Task.completedAt := None;
     Task.tags := TasksEndpoint.c_tags args;
     Task.order :=
       next_order
         (map (λ t : N * Task.t, Task.order t.2)
            (reverse (List.filter (λ doc, bool_decide (Task.userId doc.2 = _id u))
                        (map_to_list (tasks st)))));
     Task.createdAt := now ctx;
     Task.updatedAt := now ctx |}.

(** The task that [update] leaves in place of [task]. *)
Definition updated_task (ctx : Ctx) (args : TasksEndpoint.UpdateArgs) (task : Task.t)
    : Task.t :=
  TaskPatch.apply (Tasks.with_updatedAt (TasksEndpoint.updateArgs args) (now ctx)) task.

(** The store with more entries in its write log. *)
Definition logs (ws : list Write) (st : DB) : DB :=
  {| tasks := tasks st; categories := categories st;
     taskComments := taskComments st; taskActivity := taskActivity st;
     writes := writes st ++ ws |}.

(** The entry of the write log for an operation on a document of the
    table of the documents of type [A]. *)
Definition written (A : Type) `{Table A} (op : WriteOp) (id : Id) : Write :=
  {| w_op := op; w_table := table_name (A := A); w_id := id |}.

(** The order that a reorder request asks for a task: the one of the last
    entry that names the task. *)
Fixpoint requested_order (updates : list (Id * Z)) (id : Id) : option Z :=
  match updates with
  | [] => None
  | (id', order) :: rest =>
      match requested_order rest id with
      | Some o => Some o
      | None => if bool_decide (id' = id) then Some order else None
      end
  end.

(** Task [id] exists and belongs to [u]. *)
Definition owned_by (st : DB) (u : AuthUser) (id : Id) : Prop :=
  ∃ task, tasks st !! id = Some task ∧ Task.userId task = _id u.

(** A task that category deletion in mode "unlink" has gone over. *)
Definition unlinked_task (ctx : Ctx) (task : Task.t) : Task.t :=
  {| Task.userId := Task.userId task;
     Task.title := Task.title task;
     Task.description := Task.description task;
     Task.categoryId := None;
     Task.priority := Task.priority task;
     Task.status := Task.status task;
     Task.dueDate := Task.dueDate task;
     Task.completedAt := Task.completedAt task;
     Task.tags := Task.tags task;
     Task.order := Task.order task;
     Task.createdAt := Task.createdAt task;
     Task.updatedAt := now ctx |}.

(** ** Concrete stores *)

Module Examples.

Definition alice : AuthUser := {| _id := "alice" |}.

(** A call by alice that the rate limiter lets through; the search index
    matches a title that starts with the query. *)
Definition ctx : Ctx :=
  {| auth := Some alice;
     now := 1700000000000;
     limiter := λ _ _, {| ok := true; retryAfter := 0 |};
     text_search := λ title query, String.prefix query title |}.

Definition task (userId title : string) (categoryId : option Id)
    (status : TaskStatus) (completedAt : option Z) (order : Z) : Task.t :=
  {| Task.userId := userId; Task.title := title; Task.description := None;
     Task.categoryId := categoryId; Task.priority := medium;
     Task.status := status; Task.dueDate := None;
     Task.completedAt := completedAt; Task.tags := None;
     Task.order := order; Task.createdAt := 5; Task.updatedAt := 5 |}.

Definition category (userId name : string) (order : Z) : Category.t :=
  {| Category.userId := userId; Category.name := name;
     Category.color := "#ff0000"; Category.icon := None;
     Category.order := order; Category.createdAt := 1; Category.updatedAt := 1 |}.

Definition comment (taskId : Id) (userId : string) : TaskComment.t :=
  {| TaskComment.taskId := taskId; TaskComment.userId := userId;
     TaskComment.content := "ok"; TaskComment.createdAt := 6;
     TaskComment.updatedAt := 6 |}.

Definition activity (taskId : Id) (userId : string) : Activity.t :=
  {| Activity.taskId := taskId; Activity.userId := userId;
     Activity.action := created; Activity.changes := None;
     Activity.metadata := None; Activity.createdAt := 5 |}.

(** Alice has an open task 0 in her category 0, a completed task 1 and
    a task 3 in the category; task 2 is bob's. *)
Definition store : DB :=
  {| tasks := list_to_map
       [ (0%N, task "alice" "write" (Some 0%N) todo None 0);
         (1%N, task "alice" "read" None completed (Some 7) 3);
         (2%N, task "bob" "cook" None todo None 0);
         (3%N, task "alice" "walk" (Some 0%N) in_progress None 1) ];
     categories := list_to_map [ (0%N, category "alice" "work" 0) ];
     taskComments := list_to_map
       [ (0%N, comment 0%N "alice"); (1%N, comment 1%N "alice");
         (2%N, comment 0%N "alice") ];
     taskActivity := list_to_map
       [ (0%N, activity 0%N "alice"); (1%N, activity 1%N "alice") ];
     writes := [] |}.

Definition empty_store : DB :=
  {| tasks := ∅; categories := ∅; taskComments := ∅; taskActivity := ∅;
     writes := [] |}.

(** [n] tasks of one user, the first [k] of them completed, the others
    open. *)
Definition progress_store (userId : string) (k n : nat) : DB :=
  {| tasks := list_to_map
       (map (λ i, (N.of_nat i,
                   if (i <? k)%nat
                   then task userId "done" None completed (Some 7) (Z.of_nat i)
                   else task userId "open" None todo None (Z.of_nat i)))
            (seq 0 n));
     categories := ∅; taskComments := ∅; taskActivity := ∅; writes := [] |}.

(** [n] categories of one user. *)
Definition categories_store (userId : string) (n : nat) : DB :=
  {| tasks := ∅;
     categories := list_to_map
       (map (λ i, (N.of_nat i, category userId "c" (Z.of_nat i))) (seq 0 n));
     taskComments := ∅; taskActivity := ∅; writes := [] |}.

Definition create_args (title : string) (dueDate : option Z) : TasksEndpoint.CreateArgs :=
  {| TasksEndpoint.c_title := title; TasksEndpoint.c_description := None;
     TasksEndpoint.c_categoryId := None; TasksEndpoint.c_priority := None;
     TasksEndpoint.c_dueDate := dueDate; TasksEndpoint.c_tags := None |}.

Definition update_args (id : Id) (status : option TaskStatus) (dueDate : option Z)
    : TasksEndpoint.UpdateArgs :=
  {| TasksEndpoint.u_id := id; TasksEndpoint.u_title := None;
     TasksEndpoint.u_description := None; TasksEndpoint.u_categoryId := None;
     TasksEndpoint.u_priority := None; TasksEndpoint.u_status := status;
     TasksEndpoint.u_dueDate := dueDate; TasksEndpoint.u_tags := None |}.

Definition category_args (name : string) : CategoriesEndpoint.CreateArgs :=
  {| CategoriesEndpoint.c_name := name; CategoriesEndpoint.c_color := "#00ff00";
     CategoriesEndpoint.c_icon := None |}.

(** What a handler returned, and the status and the completion
    timestamp of task [id] in the store it left. *)
Definition observe (r : (Error + Id) * DB) (id : Id)
    : (Error + Id) * option TaskStatus * option (option Z) :=
  (r.1, Task.status <$> tasks r.2 !! id, Task.completedAt <$> tasks r.2 !! id).

(** The value a handler returned, if it did not throw. *)
Definition returned {A} (r : (Error + A) * DB) : option A :=
  match r.1 with
  | inr a => Some a
  | inl _ => None
  end.

End Examples.

(** * Properties *)

(** ** Running a handler *)

Lemma bind_run {A B} (m : M A) (k : A → M B) st :
  (m ≫= k) st = match m st with
                 | (inr a, st') => k a st'
                 | (inl e, st') => (inl e, st')
                 end.
Proof. reflexivity. Qed.

Lemma authenticate_ok ctx u st :
  getAuthUser ctx = Some u → authenticate ctx st = (inr u, st).
Proof. unfold authenticate. intros ->. reflexivity. Qed.

Lemma rate_limit_ok ctx name key st :
  ok (rateLimiter_limit ctx name key) = true → rate_limit ctx name key st = (inr tt, st).
Proof. unfold rate_limit. intros ->. reflexivity. Qed.

Lemma throw_if_false e st : throw_if false e st = (inr tt, st).
Proof. reflexivity. Qed.

Lemma throw_if_true e st : throw_if true e st = (inl e, st).
Proof. reflexivity. Qed.

Lemma getTaskById_run ctx id st :
  Tasks.getTaskById ctx id st = (inr (tasks st !! id), st).
Proof. reflexivity. Qed.

Lemma owned_task_ok ctx u id task st :
  getAuthUser ctx = Some u →
  tasks st !! id = Some task →
  Task.userId task = _id u →
  TasksEndpoint.owned_task ctx id st = (inr (u, task), st).
Proof.
  intros Hu Ht Ho. unfold TasksEndpoint.owned_task.
  rewrite bind_run, (authenticate_ok _ _ _ Hu).
  rewrite bind_run, getTaskById_run, Ht.
  rewrite bind_run, bool_decide_true by done. reflexivity.
Qed.

(** ** Completing and reopening *)

(** C6. For a task owned by the caller, [complete] succeeds and leaves the
    task with status "completed" and [completedAt] set to the current
    time; [reopen] succeeds and leaves it with status "todo" and no
    [completedAt]. *)
Theorem complete_sets_and_reopen_clears ctx u id task st :
  getAuthUser ctx = Some u →
  tasks st !! id = Some task →
  Task.userId task = _id u →
  (∃ st' task',
     TasksEndpoint.complete ctx id st = (inr id, st')
     ∧ tasks st' !! id = Some task'
     ∧ Task.status task' = completed
     ∧ Task.completedAt task' = Some (now ctx))
  ∧ (∃ st' task',
       TasksEndpoint.reopen ctx id st = (inr id, st')
       ∧ tasks st' !! id = Some task'
       ∧ Task.status task' = todo
       ∧ Task.completedAt task' = None).
Proof.
  intros Hu Ht Ho. split.
  - unfold TasksEndpoint.complete.
    rewrite bind_run, (owned_task_ok _ _ _ _ _ Hu Ht Ho).
    rewrite bind_run. unfold Tasks.completeTask, db.patch at 1.
    cbn [get_table tasks_table]. rewrite Ht, bind_run. cbn.
    eexists _, _. split; [reflexivity|]. cbn. by rewrite lookup_insert_eq.
  - unfold TasksEndpoint.reopen.
    rewrite bind_run, (owned_task_ok _ _ _ _ _ Hu Ht Ho).
    rewrite bind_run. unfold Tasks.reopenTask, db.patch at 1.
    cbn [get_table tasks_table]. rewrite Ht, bind_run. cbn.
    eexists _, _. split; [reflexivity|]. cbn. by rewrite lookup_insert_eq.
Qed.

Lemma complete_sets_and_reopen_clears_witness :
  (∃ st' task',
     TasksEndpoint.complete Examples.ctx 0%N Examples.store = (inr 0%N, st')
     ∧ tasks st' !! 0%N = Some task'
     ∧ Task.status task' = completed
     ∧ Task.completedAt task' = Some (now Examples.ctx))
  ∧ (∃ st' task',
       TasksEndpoint.reopen Examples.ctx 0%N Examples.store = (inr 0%N, st')
       ∧ tasks st' !! 0%N = Some task'
       ∧ Task.status task' = todo
       ∧ Task.completedAt task' = None).
Proof.
  apply (complete_sets_and_reopen_clears Examples.ctx Examples.alice 0%N
           (Examples.task "alice" "write" (Some 0%N) todo None 0) Examples.store);
    reflexivity.
Defined.

(** ** The completion timestamp under [update] and [archive] *)

(** [update] writes the status it is given and never writes
    [completedAt]. *)
Lemma updated_task_completedAt ctx args task :
  Task.status (updated_task ctx args task)
  = default (Task.status task) (TasksEndpoint.u_status args)
  ∧ Task.completedAt (updated_task ctx args task) = Task.completedAt task.
Proof. split; [|reflexivity]. cbn. by destruct (TasksEndpoint.u_status args). Qed.

(** [archive] of a task of the caller sets the status and leaves
    [completedAt] as it was. *)
Lemma archive_keeps_completedAt ctx u id task st :
  getAuthUser ctx = Some u →
  tasks st !! id = Some task →
  Task.userId task = _id u →
  ∃ st' task',
    TasksEndpoint.archive ctx id st = (inr id, st')
    ∧ tasks st' !! id = Some task'
    ∧ Task.status task' = archived
    ∧ Task.completedAt task' = Task.completedAt task.
Proof.
  intros Hu Ht Ho. unfold TasksEndpoint.archive.
  rewrite bind_run, (owned_task_ok _ _ _ _ _ Hu Ht Ho).
  rewrite bind_run. unfold Tasks.archiveTask, db.patch at 1.
  cbn [get_table tasks_table]. rewrite Ht, bind_run. cbn.
  eexists _, _. split; [reflexivity|]. cbn. by rewrite lookup_insert_eq.
Qed.

(** C1. The handlers that change the status without going through
    [completeTask] or [reopenTask] leave [completedAt] as it was: on the
    example store, [update] with status "completed" on the open task 0
    succeeds and yields a completed task without [completedAt], and
    [archive] and [update] with status "todo" on the completed task 1
    succeed and yield a task that is no longer completed and still
    carries [completedAt]. *)
Theorem update_and_archive_keep_completedAt :
  Examples.observe
    (TasksEndpoint.update Examples.ctx
       (Examples.update_args 0%N (Some completed) None) Examples.store) 0%N
  = (inr 0%N, Some completed, Some None)
  ∧ Examples.observe (TasksEndpoint.archive Examples.ctx 1%N Examples.store) 1%N
    = (inr 1%N, Some archived, Some (Some 7))
  ∧ Examples.observe
      (TasksEndpoint.update Examples.ctx
         (Examples.update_args 1%N (Some todo) None) Examples.store) 1%N
    = (inr 1%N, Some todo, Some (Some 7)).
Proof. vm_compute. auto. Qed.

(** ** Queries *)

Lemma elem_of_collect {A} (m : gmap N A) (f : N * A → bool) k a :
  (k, a) ∈ List.filter f (map_to_list m) ↔ m !! k = Some a ∧ f (k, a) = true.
Proof.
  rewrite list_elem_of_In, filter_In, <- list_elem_of_In, elem_of_map_to_list.
  reflexivity.
Qed.

Lemma NoDup_collect {A} (m : gmap N A) (f : N * A → bool) :
  NoDup (List.filter f (map_to_list m)).*1.
Proof.
  pose proof (NoDup_fst_map_to_list m) as Hnd.
  induction (map_to_list m) as [|[k a] l IH]; [constructor|].
  cbn in Hnd. apply NoDup_cons in Hnd as [Hk Hl]. cbn.
  destruct (f (k, a)); [|by apply IH].
  cbn. apply NoDup_cons. split; [|by apply IH].
  intros Hin. apply Hk.
  apply list_elem_of_fmap in Hin as [[k' a'] [-> Hin]].
  apply list_elem_of_In, filter_In in Hin as [Hin _].
  apply list_elem_of_fmap. exists (k', a'). split; [done|].
  by apply list_elem_of_In.
Qed.

Lemma getTasksByUser_run ctx userId st :
  Tasks.getTasksByUser ctx userId st
  = (inr (reverse (List.filter (λ doc, bool_decide (Task.userId doc.2 = userId))
                     (map_to_list (tasks st)))), st).
Proof. reflexivity. Qed.

Lemma elem_of_getTasksByUser userId st k t :
  (k, t) ∈ reverse (List.filter (λ doc, bool_decide (Task.userId doc.2 = userId))
                      (map_to_list (tasks st)))
  ↔ tasks st !! k = Some t ∧ Task.userId t = userId.
Proof.
  rewrite elem_of_reverse, elem_of_collect. cbn.
  by rewrite bool_decide_eq_true.
Qed.

(** ** The order of a new task *)



Lemma ulp_bounds z :
  2 ^ 53 ≤ Z.abs z →
  2 ≤ ulp z ∧ 2 ^ 52 * ulp z ≤ Z.abs z < 2 ^ 53 * ulp z.
Proof.
  intros Hz. unfold ulp.
  assert (Hpos : 0 < Z.abs z) by lia.
  pose proof (Z.log2_spec _ Hpos) as [Hlo Hhi].
  assert (Hlog : 53 ≤ Z.log2 (Z.abs z)).
  { apply Z.log2_le_pow2; lia. }
  set (k := Z.log2 (Z.abs z)) in *.
  replace (2 ^ k) with (2 ^ 52 * 2 ^ (k - 52)) in Hlo
    by (rewrite <- Z.pow_add_r by lia; f_equal; lia).
  replace (2 ^ Z.succ k) with (2 ^ 53 * 2 ^ (k - 52)) in Hhi
    by (rewrite <- Z.pow_add_r by lia; f_equal; lia).
  split; [|lia].
  change 2 with (2 ^ 1) at 1. apply Z.pow_le_mono_r; lia.
Qed.

(** Beyond 2^53 the binary64 result is a number of 53 significant bits
    (a significand [m] between 2^52 and 2^53, times [ulp]), at most half
    an [ulp] from the exact result, and with an even significand when it
    is exactly half an [ulp] away. *)
Lemma to_binary64_nearest z :
  2 ^ 53 ≤ Z.abs z →
  ∃ m,
    to_binary64 z = Z.sgn z * (m * ulp z)
    ∧ 2 ^ 52 ≤ m ≤ 2 ^ 53
    ∧ 2 * Z.abs (to_binary64 z - z) ≤ ulp z
    ∧ (2 * Z.abs (to_binary64 z - z) = ulp z → Z.even m = true).
Proof.
  intros Hz. destruct (ulp_bounds z Hz) as (Hu & Hlo & Hhi).
  unfold to_binary64.
  destruct (Z.ltb_spec (Z.abs z) (2 ^ 53)) as [|_]; [lia|]. cbv zeta.
  set (u := ulp z) in *. set (a := Z.abs z) in *.
  assert (Ha : a = u * (a / u) + a mod u) by (apply Z.div_mod; lia).
  assert (Hr : 0 ≤ a mod u < u) by (apply Z.mod_pos_bound; lia).
  set (q := a / u) in *. set (r := a mod u) in *.
  assert (Hq : 2 ^ 52 ≤ q < 2 ^ 53) by nia.
  assert (Hz' : z = Z.sgn z * a) by (unfold a; lia).
  assert (Hs : Z.sgn z = 1 ∨ Z.sgn z = -1) by lia.
  set (s := Z.sgn z) in *.
  destruct (Z.ltb_spec (2 * r) u) as [Hlt|Hge].
  - exists q. split; [reflexivity|]. split; [lia|].
    assert (s * (q * u) - z = s * (- r)) as -> by nia.
    split; destruct Hs as [-> | ->]; lia.
  - destruct (Z.ltb_spec u (2 * r)) as [Hgt|Hle].
    + exists (q + 1). split; [reflexivity|]. split; [lia|].
      assert (s * ((q + 1) * u) - z = s * (u - r)) as -> by nia.
      split; destruct Hs as [-> | ->]; lia.
    + destruct (Z.even q) eqn:Heven.
      * exists q. split; [reflexivity|]. split; [lia|].
        assert (s * (q * u) - z = s * (- r)) as -> by nia.
        split; [destruct Hs as [-> | ->]; lia|]. by intros _.
      * exists (q + 1). split; [reflexivity|]. split; [lia|].
        assert (s * ((q + 1) * u) - z = s * (u - r)) as -> by nia.
        split; [destruct Hs as [-> | ->]; lia|].
        intros _. by rewrite Z.even_add, Heven.
Qed.

(** The sums of the model against the addition of the primitive binary64
    floats, at orders on both sides of 2^53 (a tie to the lower and a tie
    to the upper neighbour among them). *)
Lemma to_binary64_add_1 :
  Forall (λ x, (PrimFloat.of_uint63 (Uint63.of_Z x) + 1)%float
               = PrimFloat.of_uint63 (Uint63.of_Z (to_binary64 (x + 1))))
    [0; 41; 2 ^ 53 - 2; 2 ^ 53 - 1; 2 ^ 53; 2 ^ 53 + 2; 2 ^ 53 + 4;
     2 ^ 54; 2 ^ 54 + 4; 2 ^ 60; 2 ^ 62].
Proof. repeat constructor. Qed.

Lemma next_order_nil : next_order [] = 0.
Proof. reflexivity. Qed.



Lemma create_ok ctx u args st :
  getAuthUser ctx = Some u →
  ok (rateLimiter_limit ctx "createTask" (_id u)) = true →
  validation.isValidTaskTitle (validation.sanitizeInput (TasksEndpoint.c_title args)) = true →
  present_and_not (truthy_string (TasksEndpoint.c_description args))
    validation.isValidTaskDescription = false →
  present_and_not (TasksEndpoint.c_tags args) validation.isValidTags = false →
  present_and_not (truthy_number (TasksEndpoint.c_dueDate args))
    (validation.isValidDueDate (now ctx)) = false →
  ∃ st',
    TasksEndpoint.create ctx args st = (inr (fresh (dom (tasks st))), st')
    ∧ tasks st' = <[fresh (dom (tasks st)) := created_task ctx u args st]> (tasks st).
Proof.
  intros Hu Hrl Htitle Hdesc Htags Hdue. unfold TasksEndpoint.create.
  rewrite bind_run, (authenticate_ok _ _ _ Hu).
  rewrite bind_run, (rate_limit_ok _ _ _ _ Hrl).
  rewrite bind_run, Htitle, throw_if_false.
  rewrite bind_run, Hdesc, throw_if_false.
  rewrite bind_run, Htags, throw_if_false.
  rewrite bind_run, Hdue, throw_if_false.
  rewrite bind_run, getTasksByUser_run.
  rewrite bind_run. unfold Tasks.createTask, db.insert at 1.
  cbn [get_table tasks_table].
  rewrite bind_run. cbn.
  eexists. split; reflexivity.
Qed.





(** ** The due date of a create or update request *)

Ltac validation_step :=
  rewrite bind_run;
  lazymatch goal with
  | |- context [throw_if ?b ?e ?s] =>
      destruct b eqn:?; [rewrite throw_if_true; eauto | rewrite throw_if_false]
  end.

Lemma due_date_too_early now d :
  d ≠ 0 → d < now - 86400000 →
  present_and_not (truthy_number (Some d)) (validation.isValidDueDate now) = true.
Proof.
  intros Hd Hlt. cbn. destruct (Z.eqb_spec d 0); [done|]. cbn.
  unfold validation.isValidDueDate. apply negb_true_iff, Z.leb_gt. lia.
Qed.

Lemma due_date_late_enough now d :
  now - 86400000 ≤ d →
  present_and_not (truthy_number (Some d)) (validation.isValidDueDate now) = false.
Proof.
  intros Hle. cbn. destruct (d =? 0); [done|]. cbn.
  unfold validation.isValidDueDate. apply negb_false_iff, Z.leb_le. lia.
Qed.

Lemma create_rejects_early_due_date ctx u args d st :
  getAuthUser ctx = Some u →
  ok (rateLimiter_limit ctx "createTask" (_id u)) = true →
  TasksEndpoint.c_dueDate args = Some d →
  d ≠ 0 → d < now ctx - 86400000 →
  ∃ message, TasksEndpoint.create ctx args st = (inl (InvalidInput message), st).
Proof.
  intros Hu Hrl Hdue Hd Hlt. unfold TasksEndpoint.create.
  rewrite bind_run, (authenticate_ok _ _ _ Hu).
  rewrite bind_run, (rate_limit_ok _ _ _ _ Hrl).
  do 3 validation_step.
  rewrite bind_run, Hdue, (due_date_too_early _ _ Hd Hlt), throw_if_true. eauto.
Qed.

Lemma update_rejects_early_due_date ctx u args task d st :
  getAuthUser ctx = Some u →
  ok (rateLimiter_limit ctx "updateTask" (_id u)) = true →
  tasks st !! TasksEndpoint.u_id args = Some task →
  Task.userId task = _id u →
  TasksEndpoint.u_dueDate args = Some d →
  d ≠ 0 → d < now ctx - 86400000 →
  ∃ message, TasksEndpoint.update ctx args st = (inl (InvalidInput message), st).
Proof.
  intros Hu Hrl Ht Ho Hdue Hd Hlt. unfold TasksEndpoint.update.
  rewrite bind_run, (authenticate_ok _ _ _ Hu).
  rewrite bind_run, (rate_limit_ok _ _ _ _ Hrl).
  rewrite bind_run, getTaskById_run, Ht.
  rewrite bind_run, bool_decide_true, throw_if_false by done.
  do 3 validation_step.
  rewrite bind_run, Hdue, (due_date_too_early _ _ Hd Hlt), throw_if_true. eauto.
Qed.

Lemma update_ok ctx u args task st :
  getAuthUser ctx = Some u →
  ok (rateLimiter_limit ctx "updateTask" (_id u)) = true →
  tasks st !! TasksEndpoint.u_id args = Some task →
  Task.userId task = _id u →
  present_and_not (TasksEndpoint.u_title args)
    (λ title, validation.isValidTaskTitle (validation.sanitizeInput title)) = false →
  present_and_not (truthy_string (TasksEndpoint.u_description args))
    validation.isValidTaskDescription = false →
  present_and_not (TasksEndpoint.u_tags args) validation.isValidTags = false →
  present_and_not (truthy_number (TasksEndpoint.u_dueDate args))
    (validation.isValidDueDate (now ctx)) = false →
  ∃ st',
    TasksEndpoint.update ctx args st = (inr (TasksEndpoint.u_id args), st')
    ∧ tasks st' = <[TasksEndpoint.u_id args := updated_task ctx args task]> (tasks st).
Proof.
  intros Hu Hrl Ht Ho Htitle Hdesc Htags Hdue. unfold TasksEndpoint.update.
  rewrite bind_run, (authenticate_ok _ _ _ Hu).
  rewrite bind_run, (rate_limit_ok _ _ _ _ Hrl).
  rewrite bind_run, getTaskById_run, Ht.
  rewrite bind_run, bool_decide_true, throw_if_false by done.
  rewrite bind_run, Htitle, throw_if_false.
  rewrite bind_run, Hdesc, throw_if_false.
  rewrite bind_run, Htags, throw_if_false.
  rewrite bind_run, Hdue, throw_if_false.
  rewrite bind_run. unfold Tasks.updateTask, db.patch at 1.
  cbn [get_table tasks_table]. rewrite Ht.
  destruct (TasksEndpoint.changed (TasksEndpoint.u_status args) (Task.status task))
    as [[oldStatus newStatus]|].
  - rewrite bind_run. cbn. eexists. split; reflexivity.
  - destruct (TasksEndpoint.u_title args), (TasksEndpoint.changed _ (Task.priority task));
      cbn; eexists; split; reflexivity.
Qed.

(** C9. For an authenticated caller whom the rate limiter lets through
    (and, for [update], a task of the caller): a create or update request
    whose due date is not 0 and lies before [now - 24h] is rejected with
    an invalid-input error and writes nothing; a request whose due date is
    at or after [now - 24h] and whose other fields are valid succeeds and
    stores the due date. *)
Theorem due_date_must_not_precede_yesterday ctx u d :
  getAuthUser ctx = Some u →
  (∀ args st,
     ok (rateLimiter_limit ctx "createTask" (_id u)) = true →
     TasksEndpoint.c_dueDate args = Some d →
     d ≠ 0 → d < now ctx - 24 * 60 * 60 * 1000 →
     ∃ message, TasksEndpoint.create ctx args st = (inl (InvalidInput message), st))
  ∧ (∀ args st,
       ok (rateLimiter_limit ctx "createTask" (_id u)) = true →
       TasksEndpoint.c_dueDate args = Some d →
       now ctx - 24 * 60 * 60 * 1000 ≤ d →
       validation.isValidTaskTitle
         (validation.sanitizeInput (TasksEndpoint.c_title args)) = true →
       present_and_not (truthy_string (TasksEndpoint.c_description args))
         validation.isValidTaskDescription = false →
       present_and_not (TasksEndpoint.c_tags args) validation.isValidTags = false →
       ∃ taskId st' task,
         TasksEndpoint.create ctx args st = (inr taskId, st')
         ∧ tasks st' !! taskId = Some task
         ∧ Task.dueDate task = Some d)
  ∧ (∀ args task st,
       ok (rateLimiter_limit ctx "updateTask" (_id u)) = true →
       tasks st !! TasksEndpoint.u_id args = Some task →
       Task.userId task = _id u →
       TasksEndpoint.u_dueDate args = Some d →
       d ≠ 0 → d < now ctx - 24 * 60 * 60 * 1000 →
       ∃ message, TasksEndpoint.update ctx args st = (inl (InvalidInput message), st))
  ∧ (∀ args task st,
       ok (rateLimiter_limit ctx "updateTask" (_id u)) = true →
       tasks st !! TasksEndpoint.u_id args = Some task →
       Task.userId task = _id u →
       TasksEndpoint.u_dueDate args = Some d →
       now ctx - 24 * 60 * 60 * 1000 ≤ d →
       present_and_not (TasksEndpoint.u_title args)
         (λ title, validation.isValidTaskTitle (validation.sanitizeInput title)) = false →
       present_and_not (truthy_string (TasksEndpoint.u_description args))
         validation.isValidTaskDescription = false →
       present_and_not (TasksEndpoint.u_tags args) validation.isValidTags = false →
       ∃ st' task',
         TasksEndpoint.update ctx args st = (inr (TasksEndpoint.u_id args), st')
         ∧ tasks st' !! TasksEndpoint.u_id args = Some task'
         ∧ Task.dueDate task' = Some d).
Proof.
  intros Hu. repeat split.
  - intros args st Hrl Hdue Hd Hlt.
    by apply (create_rejects_early_due_date ctx u args d).
  - intros args st Hrl Hdue Hle Htitle Hdesc Htags.
    destruct (create_ok ctx u args st) as (st' & Hrun & Htasks); try done.
    { rewrite Hdue. by apply due_date_late_enough. }
    eexists _, st', _. split; [done|].
    split; [by rewrite Htasks, lookup_insert_eq|]. done.
  - intros args task st Hrl Ht Ho Hdue Hd Hlt.
    by apply (update_rejects_early_due_date ctx u args task d).
  - intros args task st Hrl Ht Ho Hdue Hle Htitle Hdesc Htags.
    destruct (update_ok ctx u args task st) as (st' & Hrun & Htasks); try done.
    { rewrite Hdue. by apply due_date_late_enough. }
    eexists st', _. split; [done|].
    split; [by rewrite Htasks, lookup_insert_eq|].
    unfold updated_task. cbn. by rewrite Hdue.
Qed.

Lemma due_date_must_not_precede_yesterday_witness :
  (∃ message,
     TasksEndpoint.create Examples.ctx (Examples.create_args "plan" (Some 1)) Examples.store
     = (inl (InvalidInput message), Examples.store))
  ∧ (∃ taskId st' task,
       TasksEndpoint.create Examples.ctx
         (Examples.create_args "plan" (Some 1699913600000)) Examples.store
       = (inr taskId, st')
       ∧ tasks st' !! taskId = Some task
       ∧ Task.dueDate task = Some 1699913600000)
  ∧ (∃ message,
       TasksEndpoint.update Examples.ctx (Examples.update_args 0%N None (Some 1))
         Examples.store
       = (inl (InvalidInput message), Examples.store))
  ∧ (∃ st' task',
       TasksEndpoint.update Examples.ctx
         (Examples.update_args 0%N None (Some 1699913600000)) Examples.store
       = (inr 0%N, st')
       ∧ tasks st' !! 0%N = Some task'
       ∧ Task.dueDate task' = Some 1699913600000).
Proof.
  destruct (due_date_must_not_precede_yesterday Examples.ctx Examples.alice 1 eq_refl)
    as (Hcreate & _ & Hupdate & _).
  destruct (due_date_must_not_precede_yesterday Examples.ctx Examples.alice
              1699913600000 eq_refl)
    as (_ & Hcreate' & _ & Hupdate').
  split; [|split; [|split]].
  - apply Hcreate; [reflexivity|reflexivity|lia|reflexivity].
  - apply Hcreate'; [reflexivity|reflexivity|cbn; lia|reflexivity..].
  - apply (Hupdate (Examples.update_args 0%N None (Some 1))
             (Examples.task "alice" "write" (Some 0%N) todo None 0));
      [reflexivity|reflexivity|reflexivity|reflexivity|lia|reflexivity].
  - apply (Hupdate' (Examples.update_args 0%N None (Some 1699913600000))
             (Examples.task "alice" "write" (Some 0%N) todo None 0));
      [reflexivity|reflexivity|reflexivity|reflexivity|cbn; lia|reflexivity..].
Defined.

(** ** The limit on the categories of a user *)

Lemma length_filter_Permutation {A} (f : A → bool) (l l' : list A) :
  l ≡ₚ l' → length (List.filter f l) = length (List.filter f l').
Proof.
  induction 1 as [|x l l' _ IH|x y l|l l' l'' _ IH _ IH']; cbn.
  - done.
  - destruct (f x); cbn; by rewrite IH.
  - by destruct (f x), (f y).
  - by rewrite IH.
Qed.

Lemma category_count_insert st st' i doc v :
  categories st !! i = None →
  categories st' = <[i := doc]> (categories st) →
  category_count st' v
  = if bool_decide (Category.userId doc = v)
    then S (category_count st v) else category_count st v.
Proof.
  intros Hi Hst'. unfold category_count. rewrite Hst'.
  rewrite (length_filter_Permutation _ _ _ (map_to_list_insert _ _ doc Hi)).
  cbn. by destruct (bool_decide (Category.userId doc = v)).
Qed.

Lemma getCategoriesByUser_length ctx userId st :
  ∃ existingCategories,
    Categories.getCategoriesByUser ctx userId st = (inr existingCategories, st)
    ∧ length existingCategories = category_count st userId.
Proof. eexists. split; reflexivity. Qed.

(** What [create] of the categories endpoint does: it throws and has
    written nothing, or the caller was below the limit and the store has
    one more category, owned by the caller. *)
Lemma create_category_cases ctx args st :
  (∃ e, CategoriesEndpoint.create ctx args st = (inl e, st))
  ∨ (∃ u doc st',
       getAuthUser ctx = Some u
       ∧ (category_count st (_id u) < MAX_CATEGORIES_PER_USER)%nat
       ∧ Category.userId doc = _id u
       ∧ CategoriesEndpoint.create ctx args st = (inr (fresh (dom (categories st))), st')
       ∧ categories st' = <[fresh (dom (categories st)) := doc]> (categories st)).
Proof.
  unfold CategoriesEndpoint.create.
  rewrite bind_run. unfold authenticate.
  destruct (getAuthUser ctx) as [u|] eqn:Hu; [|left; eauto]. cbn [mret M_ret].
  rewrite bind_run. unfold rate_limit.
  destruct (negb _); [left; rewrite throw_if_true; eauto|rewrite throw_if_false].
  rewrite bind_run.
  destruct (getCategoriesByUser_length ctx (_id u) st) as (existing & -> & Hlen).
  rewrite bind_run, Hlen.
  destruct (Nat.leb_spec MAX_CATEGORIES_PER_USER (category_count st (_id u)));
    [left; rewrite throw_if_true; eauto|rewrite throw_if_false].
  rewrite bind_run.
  destruct (negb _); [left; rewrite throw_if_true; eauto|rewrite throw_if_false].
  rewrite bind_run.
  destruct (negb _); [left; rewrite throw_if_true; eauto|rewrite throw_if_false].
  rewrite bind_run.
  destruct (present_and_not _ _); [left; rewrite throw_if_true; eauto|rewrite throw_if_false].
  right. eexists u, _, _. split; [done|]. split; [done|].
  split; [|split; reflexivity]. reflexivity.
Qed.

(** C10. When the caller already has [MAX_CATEGORIES_PER_USER] (50)
    categories or more, [create] throws and has written nothing, whatever
    the arguments; once the rate limiter has let the call through, the
    error is the one of the category limit, so no argument has been
    validated.  Hence a [create] never takes the number of categories of a
    user above 50. *)
Theorem create_category_enforces_limit ctx args st :
  (∀ u,
     getAuthUser ctx = Some u →
     (MAX_CATEGORIES_PER_USER ≤ category_count st (_id u))%nat →
     (∃ e, CategoriesEndpoint.create ctx args st = (inl e, st))
     ∧ (ok (rateLimiter_limit ctx "createCategory" (_id u)) = true →
        CategoriesEndpoint.create ctx args st = (inl (LimitReached 50), st)))
  ∧ (∀ userId,
       (category_count st userId ≤ 50)%nat →
       (category_count (CategoriesEndpoint.create ctx args st).2 userId ≤ 50)%nat).
Proof.
  split.
  - intros u Hu Hcount. split.
    + destruct (create_category_cases ctx args st)
        as [?|(u' & doc & st' & Hu' & Hlt & _)]; [done|].
      rewrite Hu in Hu'. injection Hu' as <-. lia.
    + intros Hrl. unfold CategoriesEndpoint.create.
      rewrite bind_run, (authenticate_ok _ _ _ Hu).
      rewrite bind_run, (rate_limit_ok _ _ _ _ Hrl).
      rewrite bind_run.
      destruct (getCategoriesByUser_length ctx (_id u) st) as (existing & -> & Hlen).
      rewrite bind_run, Hlen.
      destruct (Nat.leb_spec MAX_CATEGORIES_PER_USER (category_count st (_id u))); [|lia].
      by rewrite throw_if_true.
  - intros userId Hcount.
    destruct (create_category_cases ctx args st)
      as [[e ->]|(u & doc & st' & Hu & Hlt & Hdoc & -> & Hst')]; [done|].
    cbn [snd].
    rewrite (category_count_insert st st' (fresh (dom (categories st))) doc userId);
      [|apply not_elem_of_dom, is_fresh|done].
    case_bool_decide as Heq; [|done].
    rewrite Hdoc in Heq. subst userId. unfold MAX_CATEGORIES_PER_USER in Hlt. lia.
Qed.

Lemma create_category_enforces_limit_witness :
  ((∃ e, CategoriesEndpoint.create Examples.ctx (Examples.category_args "more")
           (Examples.categories_store "alice" 50)
         = (inl e, Examples.categories_store "alice" 50))
   ∧ CategoriesEndpoint.create Examples.ctx (Examples.category_args "more")
       (Examples.categories_store "alice" 50)
     = (inl (LimitReached 50), Examples.categories_store "alice" 50))
  ∧ (category_count
       (CategoriesEndpoint.create Examples.ctx (Examples.category_args "more")
          (Examples.categories_store "alice" 49)).2 "alice" ≤ 50)%nat.
Proof.
  split.
  - destruct (proj1 (create_category_enforces_limit Examples.ctx
                       (Examples.category_args "more")
                       (Examples.categories_store "alice" 50)) Examples.alice)
      as [Hthrows Hlimit].
    + reflexivity.
    + vm_compute. apply le_n.
    + split; [exact Hthrows | exact (Hlimit eq_refl)].
  - apply (proj2 (create_category_enforces_limit Examples.ctx
                    (Examples.category_args "more")
                    (Examples.categories_store "alice" 49)) "alice").
    vm_compute. apply le_S, le_n.
Defined.

(** ** Searching tasks by title *)

(** What does hold of [searchTasks]: every result is a stored task of the
    given user whose title matches the query, with the given status when
    one is given, and every such task is a result. *)
Lemma searchTasks_results ctx userId searchQuery status st :
  ∃ results,
    Tasks.searchTasks ctx userId searchQuery status st = (inr results, st)
    ∧ ∀ k t, (k, t) ∈ results ↔
        tasks st !! k = Some t
        ∧ text_search ctx (Task.title t) searchQuery = true
        ∧ Task.userId t = userId
        ∧ (∀ s, status = Some s → Task.status t = s).
Proof.
  eexists. split; [reflexivity|]. intros k t.
  rewrite elem_of_collect. cbn. destruct status as [s|].
  - rewrite !andb_true_iff, !bool_decide_eq_true. split.
    + intros (Hk & (Hm & Hu) & Hs). repeat split; try done. by intros ? [= <-].
    + intros (Hk & Hm & Hu & Hs). repeat split; try done. by apply Hs.
  - rewrite andb_true_iff, bool_decide_eq_true. split.
    + intros (Hk & Hm & Hu). repeat split; done.
    + intros (Hk & Hm & Hu & _). repeat split; done.
Qed.

(** C8. [searchTasks] collects every match: for a user with 101 tasks
    whose titles all match the query, [search] returns 101 tasks, more
    than [MAX_SEARCH_RESULTS] (100), a constant that no code reads. *)
Theorem search_exceeds_MAX_SEARCH_RESULTS :
  length <$> Examples.returned
               (TasksEndpoint.search Examples.ctx "open" None
                  (Examples.progress_store "alice" 0 101))
  = Some 101%nat
  ∧ (MAX_SEARCH_RESULTS < 101)%nat.
Proof. split; [vm_compute; reflexivity | unfold MAX_SEARCH_RESULTS; lia]. Qed.

(** ** The completion rate of the dashboard *)

Lemma completion_rate_zero_denominator completedTasks :
  DashboardEndpoint.completion_rate completedTasks 0 = 0.
Proof. reflexivity. Qed.

(** The example of the specification: one completed task among two that
    are not archived gives 50. *)
Lemma completion_rate_half :
  DashboardEndpoint.completion_rate 1 2 = 50
  ∧ completionRate_spec 1 3 1 = 50.
Proof. split; vm_compute; reflexivity. Qed.

(** C5. For a caller with 40 tasks, none archived and 23 completed,
    [summary] reports the completion rate 57: the binary64 quotient 23/40
    times 100 is 57.49999999999999, which [Math.round] takes down, while
    round(100 * 23 / 40) = round(57.5) of the specification is 58. *)
Theorem completion_rate_23_of_40 :
  DashboardEndpoint.completionRate
    <$> Examples.returned
          (DashboardEndpoint.summary Examples.ctx (Examples.progress_store "alice" 23 40))
  = Some 57
  ∧ DashboardEndpoint.totalTasks
      <$> Examples.returned
            (DashboardEndpoint.summary Examples.ctx (Examples.progress_store "alice" 23 40))
    = Some 40%nat
  ∧ DashboardEndpoint.completedTasks
      <$> Examples.returned
            (DashboardEndpoint.summary Examples.ctx (Examples.progress_store "alice" 23 40))
    = Some 23%nat
  ∧ completionRate_spec 23 40 0 = 58.
Proof. repeat split; vm_compute; reflexivity. Qed.

(** ** Loops of writes over one table *)

(** The tables are independent components of the store. *)
Class TableLaws (A : Type) `{Table A} := {
  get_set m st : get_table (set_table m st) = m;
  set_get st : set_table (get_table st) st = st;
  set_set m m' st : set_table m (set_table m' st) = set_table m st;
  get_log w st : get_table (log w st) = get_table st;
  set_log m w st : set_table m (log w st) = log w (set_table m st)
}.

#[global] Instance tasks_laws : TableLaws Task.t.
Proof. split; try done. by intros []. Qed.
#[global] Instance categories_laws : TableLaws Category.t.
Proof. split; try done. by intros []. Qed.
#[global] Instance taskComments_laws : TableLaws TaskComment.t.
Proof. split; try done. by intros []. Qed.
#[global] Instance taskActivity_laws : TableLaws Activity.t.
Proof. split; try done. by intros []. Qed.

Lemma logs_nil st : logs [] st = st.
Proof. destruct st. unfold logs. cbn. by rewrite app_nil_r. Qed.

Lemma logs_log ws w st : logs ws (log w st) = logs (w :: ws) st.
Proof. unfold logs, log. cbn. by rewrite <- app_assoc. Qed.

Lemma for_of_ext {A} (xs : list A) (body body' : A → M unit) st :
  (∀ x st, body x st = body' x st) → for_of xs body st = for_of xs body' st.
Proof.
  intros Hext. revert st. induction xs as [|x xs IH]; intros st; [done|].
  cbn. rewrite !bind_run, Hext. destruct (body' x st) as [[e|[]] st1]; [done|]. apply IH.
Qed.

Lemma for_of_map {A B} (f : A → B) (xs : list A) (body : B → M unit) st :
  for_of (map f xs) body st = for_of xs (λ x, body (f x)) st.
Proof.
  revert st. induction xs as [|x xs IH]; intros st; [done|].
  cbn. rewrite !bind_run. destruct (body (f x) st) as [[e|[]] st1]; [done|]. apply IH.
Qed.

Section table_loops.
Context {A : Type} `{TableLaws A}.

Lemma set_logs ws (m : gmap N A) st : set_table m (logs ws st) = logs ws (set_table m st).
Proof.
  revert st. induction ws as [|w ws IH]; intros st.
  - by rewrite !logs_nil.
  - by rewrite <- !logs_log, IH, set_log.
Qed.

Lemma get_logs ws st : get_table (A := A) (logs ws st) = get_table st.
Proof.
  revert st. induction ws as [|w ws IH]; intros st.
  - by rewrite logs_nil.
  - by rewrite <- logs_log, IH, get_log.
Qed.

(** A loop of [delete] over documents that exist, each listed once. *)
Lemma for_of_delete {B} (key : B → N) (xs : list B) : ∀ st,
  NoDup (key <$> xs) →
  (∀ x, x ∈ xs → is_Some (get_table (A := A) st !! key x)) →
  for_of xs (λ x, db.delete (A := A) (key x)) st
  = (inr tt,
     logs (map (λ x, written A Deleted (key x)) xs)
       (set_table (foldl (λ m x, delete (key x) m) (get_table st) xs) st)).
Proof.
  induction xs as [|x xs IH]; intros st Hnd Hin.
  - cbn. by rewrite set_get, logs_nil.
  - cbn [for_of]. rewrite bind_run. unfold db.delete at 1.
    destruct (Hin x) as [a Ha]; [left|]. rewrite Ha.
    rewrite fmap_cons in Hnd. apply NoDup_cons in Hnd as [Hx Hnd].
    rewrite IH; [|done|].
    + unfold db.write. rewrite get_log, get_set, set_log, set_set, logs_log. done.
    + intros y Hy. unfold db.write. rewrite get_log, get_set.
      rewrite lookup_delete_ne; [apply Hin; by right|].
      intros Heq. apply Hx. rewrite Heq. by apply list_elem_of_fmap_2.
Qed.

(** A loop of [patch] over documents that exist. *)
Lemma for_of_patch {B} (key : B → N) (merge : B → A → A) (xs : list B) : ∀ st,
  (∀ x, x ∈ xs → is_Some (get_table (A := A) st !! key x)) →
  for_of xs (λ x, db.patch (key x) (merge x)) st
  = (inr tt,
     logs (map (λ x, written A Patched (key x)) xs)
       (set_table (foldl (λ m x, alter (merge x) (key x) m) (get_table st) xs) st)).
Proof.
  induction xs as [|x xs IH]; intros st Hin.
  - cbn. by rewrite set_get, logs_nil.
  - cbn [for_of]. rewrite bind_run. unfold db.patch at 1.
    destruct (Hin x) as [a Ha]; [left|]. rewrite Ha.
    assert (Halter : <[key x := merge x a]> (get_table st) = alter (merge x) (key x) (get_table st)).
    { apply map_eq. intros k. rewrite lookup_alter, lookup_insert.
      case_decide as Hk; [|done]. subst k. by rewrite Ha. }
    rewrite IH.
    + unfold db.write. rewrite get_log, get_set, set_log, set_set, logs_log.
      cbn [foldl]. by rewrite Halter.
    + intros y Hy. unfold db.write. rewrite get_log, get_set, Halter.
      rewrite lookup_alter. destruct (Hin y) as [b Hb]; [by right|].
      case_decide; [rewrite Ha|rewrite Hb]; done.
Qed.

Lemma lookup_foldl_delete {B} (key : B → N) (xs : list B) k : ∀ m : gmap N A,
  foldl (λ m x, delete (key x) m) m xs !! k
  = if decide (k ∈ key <$> xs) then None else m !! k.
Proof.
  induction xs as [|x xs IH]; intros m; cbn.
  - case_decide as Hk; [by apply elem_of_nil in Hk|done].
  - rewrite IH, lookup_delete.
    destruct (decide (k ∈ key <$> xs)) as [Hk|Hk], (decide (key x = k)) as [Hx|Hx],
      (decide (k ∈ key x :: (key <$> xs))) as [Hk'|Hk']; try done; exfalso;
      first [ by apply Hk', elem_of_cons; right
            | by apply Hk', elem_of_cons; left
            | by apply elem_of_cons in Hk' as [?|?] ].
Qed.

Lemma lookup_foldl_alter {B} (key : B → N) (f : A → A) (xs : list B) k :
  ∀ m : gmap N A,
  NoDup (key <$> xs) →
  foldl (λ m x, alter f (key x) m) m xs !! k
  = if decide (k ∈ key <$> xs) then f <$> m !! k else m !! k.
Proof.
  induction xs as [|x xs IH]; intros m Hnd; cbn.
  - case_decide as Hk; [by apply elem_of_nil in Hk|done].
  - rewrite fmap_cons in Hnd. apply NoDup_cons in Hnd as [Hx Hnd].
    rewrite IH, lookup_alter by done.
    destruct (decide (k ∈ key <$> xs)) as [Hk|Hk], (decide (key x = k)) as [<-|Hne],
      (decide (_ ∈ key x :: (key <$> xs))) as [Hk'|Hk']; try done; exfalso;
      first [ by apply Hk', elem_of_cons; right
            | by apply Hk', elem_of_cons; left
            | by apply elem_of_cons in Hk' as [?|?] ].
Qed.

(** The documents of an index range, listed by [collect]. *)
Lemma elem_of_collect_keys (range : A → bool) (m : gmap N A) k :
  k ∈ (List.filter (λ doc : N * A, range doc.2) (map_to_list m)).*1
  ↔ ∃ a, m !! k = Some a ∧ range a = true.
Proof.
  rewrite list_elem_of_fmap. split.
  - intros ([k' a] & -> & Hin). apply elem_of_collect in Hin. eauto.
  - intros (a & Hk & Hr). exists (k, a). split; [done|]. by apply elem_of_collect.
Qed.

(** [collect] an index range, then [delete] each document of it. *)
Lemma delete_collected (range : A → bool) st :
  let docs := List.filter (λ doc : N * A, range doc.2) (map_to_list (get_table st)) in
  (docs ← db.collect range; for_of docs (λ doc, db.delete (A := A) doc.1)) st
  = (inr tt,
     logs (map (λ doc, written A Deleted doc.1) docs)
       (set_table (foldl (λ m doc, delete doc.1 m) (get_table st) docs) st)).
Proof.
  intros docs. rewrite bind_run. unfold db.collect. fold docs.
  apply (for_of_delete fst).
  - apply NoDup_collect.
  - intros [k a] Hin. apply elem_of_collect in Hin as [Hk _]. cbn. by rewrite Hk.
Qed.

Lemma lookup_delete_collected (range : A → bool) (m : gmap N A) k :
  foldl (λ m (doc : N * A), delete doc.1 m) m
    (List.filter (λ doc : N * A, range doc.2) (map_to_list m)) !! k
  = match m !! k with
    | Some a => if range a then None else Some a
    | None => None
    end.
Proof.
  rewrite (lookup_foldl_delete fst). case_decide as Hk.
  - apply elem_of_collect_keys in Hk as (a & -> & ->). done.
  - destruct (m !! k) as [a|] eqn:Ha; [|done].
    destruct (range a) eqn:Hr; [|done].
    destruct Hk. apply elem_of_collect_keys. eauto.
Qed.

End table_loops.

(** ** Deleting a task *)

Lemma deleteCommentsByTask_run ctx taskId st :
  let comments :=
    List.filter (λ doc : N * TaskComment.t, bool_decide (TaskComment.taskId doc.2 = taskId))
      (map_to_list (taskComments st)) in
  TaskComments.deleteCommentsByTask ctx taskId st
  = (inr tt,
     logs (map (λ doc, written TaskComment.t Deleted doc.1) comments)
       (set_table (foldl (λ m doc, delete doc.1 m) (taskComments st) comments) st)).
Proof.
  exact (delete_collected (A := TaskComment.t)
           (λ c, bool_decide (TaskComment.taskId c = taskId)) st).
Qed.

Lemma deleteActivityByTask_run ctx taskId st :
  let activities :=
    List.filter (λ doc : N * Activity.t, bool_decide (Activity.taskId doc.2 = taskId))
      (map_to_list (taskActivity st)) in
  TaskActivity.deleteActivityByTask ctx taskId st
  = (inr tt,
     logs (map (λ doc, written Activity.t Deleted doc.1) activities)
       (set_table (foldl (λ m doc, delete doc.1 m) (taskActivity st) activities) st)).
Proof.
  exact (delete_collected (A := Activity.t)
           (λ a, bool_decide (Activity.taskId a = taskId)) st).
Qed.

(** C2. For a task of the caller (authenticated, and let through by the
    rate limiter), [remove] succeeds; it leaves exactly the comments and
    the activity records of the other tasks, the "deleted" record that it
    logs first being among the removed ones, and the task table without
    the task.  Its writes are, in this order: the insertion of the
    "deleted" record, the deletions of the comments of the task, the
    deletions of its activity records, the deletion of the task.  Reading
    the task afterwards fails with NotFound. *)
Theorem remove_cascades ctx u id task st :
  getAuthUser ctx = Some u →
  ok (rateLimiter_limit ctx "deleteTask" (_id u)) = true →
  tasks st !! id = Some task →
  Task.userId task = _id u →
  ∃ st' logged comments activities,
    TasksEndpoint.remove ctx id st = (inr id, st')
    ∧ (∀ k c, taskComments st' !! k = Some c
              ↔ taskComments st !! k = Some c ∧ TaskComment.taskId c ≠ id)
    ∧ (∀ k a, taskActivity st' !! k = Some a
              ↔ taskActivity st !! k = Some a ∧ Activity.taskId a ≠ id)
    ∧ tasks st' = delete id (tasks st)
    ∧ categories st' = categories st
    ∧ writes st'
      = writes st
        ++ [written Activity.t Inserted logged]
        ++ map (written TaskComment.t Deleted) comments
        ++ map (written Activity.t Deleted) activities
        ++ [written Task.t Deleted id]
    ∧ (∀ k, k ∈ comments
            ↔ ∃ c, taskComments st !! k = Some c ∧ TaskComment.taskId c = id)
    ∧ taskActivity st !! logged = None
    ∧ (∀ k, k ∈ activities
            ↔ k = logged ∨ ∃ a, taskActivity st !! k = Some a ∧ Activity.taskId a = id)
    ∧ TasksEndpoint.get ctx id st' = (inl NotFound, st').
Proof.
  intros Hu Hrl Ht Ho. unfold TasksEndpoint.remove.
  rewrite bind_run, (authenticate_ok _ _ _ Hu).
  rewrite bind_run, (rate_limit_ok _ _ _ _ Hrl).
  rewrite bind_run, getTaskById_run, Ht.
  rewrite bind_run, bool_decide_true, throw_if_false by done.
  rewrite bind_run.
  unfold TaskActivity.logTaskDeleted, TaskActivity.createTaskActivity, db.insert at 1.
  cbn [get_table taskActivity_table TaskActivity.taskId TaskActivity.userId
       TaskActivity.action TaskActivity.changes TaskActivity.metadata].
  set (logged := fresh (dom (taskActivity st))).
  set (record := Activity.mk _ _ _ _ _ _).
  assert (Hlogged : taskActivity st !! logged = None)
    by apply not_elem_of_dom, is_fresh.
  set (st1 := db.write Inserted logged _ st).
  rewrite bind_run, deleteCommentsByTask_run. cbv zeta.
  set (comments := List.filter _ (map_to_list (taskComments st1))).
  set (st2 := logs _ (set_table _ st1)).
  rewrite bind_run, deleteActivityByTask_run. cbv zeta.
  set (activities := List.filter _ (map_to_list (taskActivity st2))).
  set (st3 := logs _ (set_table _ st2)).
  rewrite bind_run. unfold Tasks.deleteTask, db.delete.
  assert (Htasks : get_table (A := Task.t) st3 = tasks st) by reflexivity.
  rewrite Htasks, Ht. cbn [mret M_ret].
  eexists _, logged, comments.*1, activities.*1. split; [reflexivity|].
  assert (Hcomments : ∀ k, taskComments st3 !! k
            = match taskComments st !! k with
              | Some c => if bool_decide (TaskComment.taskId c = id) then None else Some c
              | None => None
              end).
  { intros k.
    exact (lookup_delete_collected (A := TaskComment.t)
             (λ c : TaskComment.t, bool_decide (TaskComment.taskId c = id))
             (taskComments st) k). }
  assert (Hactivity : ∀ k, taskActivity st3 !! k
            = match <[logged := record]> (taskActivity st) !! k with
              | Some a => if bool_decide (Activity.taskId a = id) then None else Some a
              | None => None
              end).
  { intros k.
    exact (lookup_delete_collected (A := Activity.t)
             (λ a : Activity.t, bool_decide (Activity.taskId a = id))
             (<[logged := record]> (taskActivity st)) k). }
  split; [|split; [|split; [|split; [|split; [|split; [|split; [|split]]]]]]].
  - intros k c. cbn. rewrite Hcomments.
    destruct (taskComments st !! k) as [c'|]; [|naive_solver].
    case_bool_decide; naive_solver.
  - intros k a. cbn. rewrite Hactivity, lookup_insert.
    destruct (decide (logged = k)) as [<-|Hne].
    + rewrite bool_decide_true by done. rewrite Hlogged. naive_solver.
    + destruct (taskActivity st !! k) as [a'|]; [|naive_solver].
      case_bool_decide; naive_solver.
  - reflexivity.
  - reflexivity.
  - cbn. rewrite <- !app_assoc. cbn. rewrite <- !list_fmap_compose. reflexivity.
  - intros k.
    etrans; [exact (elem_of_collect_keys (A := TaskComment.t)
                      (λ c : TaskComment.t, bool_decide (TaskComment.taskId c = id))
                      (taskComments st) k)|].
    cbn beta. by setoid_rewrite bool_decide_eq_true.
  - done.
  - intros k.
    etrans; [exact (elem_of_collect_keys (A := Activity.t)
                      (λ a : Activity.t, bool_decide (Activity.taskId a = id))
                      (<[logged := record]> (taskActivity st)) k)|].
    cbn beta. setoid_rewrite bool_decide_eq_true. split.
    + intros (a & Hk & Ha). rewrite lookup_insert in Hk.
      destruct (decide (logged = k)) as [<-|Hne]; [by left|right; eauto].
    + intros [->|(a & Hk & Ha)].
      * exists record. by rewrite lookup_insert_eq.
      * exists a. split; [|done]. rewrite lookup_insert_ne; [done|].
        intros <-. by rewrite Hlogged in Hk.
  - unfold TasksEndpoint.get.
    rewrite bind_run, (authenticate_ok _ _ _ Hu).
    rewrite bind_run, getTaskById_run. cbn [tasks db.write log set_table tasks_table].
    by rewrite lookup_delete_eq.
Qed.

Lemma remove_cascades_witness :
  ∃ st' logged comments activities,
    TasksEndpoint.remove Examples.ctx 0%N Examples.store = (inr 0%N, st')
    ∧ (∀ k c, taskComments st' !! k = Some c
              ↔ taskComments Examples.store !! k = Some c ∧ TaskComment.taskId c ≠ 0%N)
    ∧ (∀ k a, taskActivity st' !! k = Some a
              ↔ taskActivity Examples.store !! k = Some a ∧ Activity.taskId a ≠ 0%N)
    ∧ tasks st' = delete 0%N (tasks Examples.store)
    ∧ categories st' = categories Examples.store
    ∧ writes st'
      = writes Examples.store
        ++ [written Activity.t Inserted logged]
        ++ map (written TaskComment.t Deleted) comments
        ++ map (written Activity.t Deleted) activities
        ++ [written Task.t Deleted 0%N]
    ∧ (∀ k, k ∈ comments
            ↔ ∃ c, taskComments Examples.store !! k = Some c ∧ TaskComment.taskId c = 0%N)
    ∧ taskActivity Examples.store !! logged = None
    ∧ (∀ k, k ∈ activities
            ↔ k = logged
              ∨ ∃ a, taskActivity Examples.store !! k = Some a ∧ Activity.taskId a = 0%N)
    ∧ TasksEndpoint.get Examples.ctx 0%N st' = (inl NotFound, st').
Proof.
  apply (remove_cascades Examples.ctx Examples.alice 0%N
           (Examples.task "alice" "write" (Some 0%N) todo None 0) Examples.store);
    reflexivity.
Defined.

(** ** Reordering tasks *)

(** The validation pass of [reorder] writes nothing; it goes through when
    every listed task is a task of the caller, and otherwise throws
    NotFound or NotAuthorized. *)
Lemma verify_updates ctx u updates st :
  (Forall (λ upd, owned_by st u upd.1) updates
   ∧ for_of updates (TasksEndpoint.verify_update ctx u) st = (inr tt, st))
  ∨ (Exists (λ upd, ¬ owned_by st u upd.1) updates
     ∧ ∃ e, (e = NotFound ∨ e = NotAuthorized)
            ∧ for_of updates (TasksEndpoint.verify_update ctx u) st = (inl e, st)).
Proof.
  induction updates as [|upd updates IH].
  - left. split; [constructor|done].
  - cbn [for_of]. rewrite bind_run. unfold TasksEndpoint.verify_update at 1 3.
    rewrite bind_run, getTaskById_run.
    destruct (tasks st !! upd.1) as [task|] eqn:Ht.
    + destruct (decide (Task.userId task = _id u)) as [Ho|Ho].
      * rewrite bool_decide_true, throw_if_false by done.
        destruct IH as [[Hall ->]|[Hex (e & He & ->)]].
        -- left. split; [|done]. constructor; [by exists task|done].
        -- right. split; [by right|]. eauto.
      * rewrite bool_decide_false, throw_if_true by done.
        right. split; [|eauto]. left. intros (task' & Ht' & Ho'). congruence.
    + right. split; [|eauto]. left. intros (task' & Ht' & _). congruence.
Qed.

Lemma updateTaskOrders_run ctx updates st :
  Forall (λ upd : N * Z, is_Some (tasks st !! upd.1)) updates →
  Tasks.updateTaskOrders ctx updates st
  = (inr tt,
     logs (map (λ upd : N * Z, written Task.t Patched upd.1) updates)
       (set_table
          (foldl (λ m (upd : N * Z),
                    alter (TaskPatch.apply (Tasks.order_patch upd.2 (now ctx))) upd.1 m)
             (tasks st) updates)
          st)).
Proof.
  intros Hall. unfold Tasks.updateTaskOrders.
  rewrite (for_of_ext _ _
             (λ upd, db.patch upd.1 (TaskPatch.apply (Tasks.order_patch upd.2 (now ctx)))))
    by by intros [].
  assert (Hin : ∀ upd, upd ∈ updates → is_Some (get_table (A := Task.t) st !! upd.1)).
  { intros upd Hin. by apply (proj1 (Forall_forall _ _) Hall). }
  exact (for_of_patch (A := Task.t) fst
           (λ upd : N * Z, TaskPatch.apply (Tasks.order_patch upd.2 (now ctx)))
           updates st Hin).
Qed.

Lemma requested_order_None updates id :
  requested_order updates id = None ↔ id ∉ updates.*1.
Proof.
  induction updates as [|[id' o] updates IH]; cbn.
  - split; [intros _; apply not_elem_of_nil|done].
  - rewrite not_elem_of_cons, <- IH.
    destruct (requested_order updates id); [naive_solver|].
    case_bool_decide; naive_solver.
Qed.

Lemma requested_order_NoDup updates id o :
  NoDup updates.*1 → (id, o) ∈ updates → requested_order updates id = Some o.
Proof.
  induction updates as [|[id' o'] updates IH]; cbn; intros Hnd Hin.
  - by apply elem_of_nil in Hin.
  - apply NoDup_cons in Hnd as [Hid' Hnd].
    apply elem_of_cons in Hin as [[= -> ->]|Hin].
    + apply requested_order_None in Hid' as ->. by rewrite bool_decide_true.
    + by rewrite (IH Hnd Hin).
Qed.

Lemma lookup_reordered now id : ∀ updates (m : gmap N Task.t),
  (requested_order updates id = None →
   foldl (λ m (upd : N * Z), alter (TaskPatch.apply (Tasks.order_patch upd.2 now)) upd.1 m)
     m updates !! id = m !! id)
  ∧ (∀ o, requested_order updates id = Some o → is_Some (m !! id) →
     ∃ task',
       foldl (λ m (upd : N * Z), alter (TaskPatch.apply (Tasks.order_patch upd.2 now)) upd.1 m)
         m updates !! id = Some task'
       ∧ Task.order task' = o).
Proof.
  induction updates as [|[id' o'] updates IH]; intros m; cbn.
  - split; [done|]. intros o [=].
  - destruct (IH (alter (TaskPatch.apply (Tasks.order_patch o' now)) id' m)) as [IHnone IHsome].
    destruct (requested_order updates id) as [o''|].
    + split; [done|]. intros o [= <-] [task Ht]. apply IHsome; [done|].
      rewrite lookup_alter. case_decide as Heq; [subst id'|]; by rewrite Ht.
    + rewrite IHnone by done. rewrite lookup_alter.
      case_bool_decide as Heq.
      * subst id'. rewrite decide_True by done. split; [done|].
        intros o [= <-] [task ->]. by eexists.
      * rewrite decide_False by done. split; [done|]. intros o [=].
Qed.

(** C3. For an authenticated caller: when some entry of the request names
    a task that does not exist or belongs to someone else, [reorder]
    throws NotFound or NotAuthorized and has written nothing; when every
    entry names a task of the caller, [reorder] succeeds, every listed
    task gets the order of the last entry that names it (its requested
    order when no task is listed twice) and no other task is touched. *)
Theorem reorder_all_or_nothing ctx u updates st :
  getAuthUser ctx = Some u →
  (Exists (λ upd, ¬ owned_by st u upd.1) updates →
   ∃ e, (e = NotFound ∨ e = NotAuthorized)
        ∧ TasksEndpoint.reorder ctx updates st = (inl e, st))
  ∧ (Forall (λ upd, owned_by st u upd.1) updates →
     ∃ st',
       TasksEndpoint.reorder ctx updates st = (inr true, st')
       ∧ (∀ id o, requested_order updates id = Some o →
            ∃ task', tasks st' !! id = Some task' ∧ Task.order task' = o)
       ∧ (NoDup updates.*1 →
          ∀ id o, (id, o) ∈ updates →
            ∃ task', tasks st' !! id = Some task' ∧ Task.order task' = o)
       ∧ (∀ id, id ∉ updates.*1 → tasks st' !! id = tasks st !! id)).
Proof.
  intros Hu. unfold TasksEndpoint.reorder.
  rewrite bind_run, (authenticate_ok _ _ _ Hu). rewrite bind_run.
  destruct (verify_updates ctx u updates st) as [[Hall ->]|[Hex (e & He & ->)]].
  - split.
    { intros Hex. apply Exists_exists in Hex as (upd & Hin & Hno).
      destruct Hno. by apply (proj1 (Forall_forall _ _) Hall). }
    intros _.
    assert (Hsome : Forall (λ upd : N * Z, is_Some (tasks st !! upd.1)) updates).
    { eapply Forall_impl; [exact Hall|]. intros upd (task & -> & _). by eexists. }
    rewrite bind_run, (updateTaskOrders_run _ _ _ Hsome). cbn [mret M_ret].
    eexists. split; [reflexivity|]. cbn [tasks logs set_table tasks_table].
    assert (Hlast : ∀ id o, requested_order updates id = Some o →
              ∃ task',
                foldl (λ m (upd : N * Z),
                         alter (TaskPatch.apply (Tasks.order_patch upd.2 (now ctx))) upd.1 m)
                  (tasks st) updates !! id = Some task'
                ∧ Task.order task' = o).
    { intros id o Hreq.
      apply (proj2 (lookup_reordered (now ctx) id updates (tasks st)) o Hreq).
      assert (Hin : id ∈ updates.*1).
      { destruct (decide (id ∈ updates.*1)) as [|Hnin]; [done|].
        apply requested_order_None in Hnin. congruence. }
      apply list_elem_of_fmap in Hin as (upd & -> & Hin).
      by apply (proj1 (Forall_forall _ _) Hsome). }
    split; [exact Hlast|]. split.
    + intros Hnd id o Hin. apply Hlast. by apply requested_order_NoDup.
    + intros id Hnin.
      apply (proj1 (lookup_reordered (now ctx) id updates (tasks st))).
      by apply requested_order_None.
  - split; [eauto|].
    intros Hall. apply Exists_exists in Hex as (upd & Hin & Hno).
    destruct Hno. by apply (proj1 (Forall_forall _ _) Hall).
Qed.

(** The request that lists task 0 twice, with the orders 5 and 9, goes
    through and leaves task 0 with order 9, not with the order 5 of its
    first entry. *)
Lemma reorder_duplicate_entry_counterexample :
  Examples.returned
    (TasksEndpoint.reorder Examples.ctx [(0%N, 5); (0%N, 9)] Examples.store)
  = Some true
  ∧ Task.order
      <$> tasks (TasksEndpoint.reorder Examples.ctx [(0%N, 5); (0%N, 9)] Examples.store).2
          !! 0%N
    = Some 9.
Proof. split; vm_compute; reflexivity. Qed.

Lemma reorder_all_or_nothing_witness :
  (∃ e, (e = NotFound ∨ e = NotAuthorized)
        ∧ TasksEndpoint.reorder Examples.ctx [(0%N, 4); (2%N, 1)] Examples.store
          = (inl e, Examples.store))
  ∧ (∃ st',
       TasksEndpoint.reorder Examples.ctx [(0%N, 4); (1%N, 2)] Examples.store
       = (inr true, st')
       ∧ (∀ id o, requested_order [(0%N, 4); (1%N, 2)] id = Some o →
            ∃ task', tasks st' !! id = Some task' ∧ Task.order task' = o)
       ∧ (NoDup [(0%N, 4); (1%N, 2)].*1 →
          ∀ id o, (id, o) ∈ [(0%N, 4); (1%N, 2)] →
            ∃ task', tasks st' !! id = Some task' ∧ Task.order task' = o)
       ∧ (∀ id, id ∉ [(0%N, 4); (1%N, 2)].*1 →
            tasks st' !! id = tasks Examples.store !! id)).
Proof.
  split.
  - apply (proj1 (reorder_all_or_nothing Examples.ctx Examples.alice
                    [(0%N, 4); (2%N, 1)] Examples.store eq_refl)).
    apply Exists_cons_tl, Exists_cons_hd.
    intros (task & Ht & Ho). vm_compute in Ht. injection Ht as <-. discriminate Ho.
  - apply (proj2 (reorder_all_or_nothing Examples.ctx Examples.alice
                    [(0%N, 4); (1%N, 2)] Examples.store eq_refl)).
    repeat constructor; eexists; (split; [vm_compute; reflexivity|reflexivity]).
Defined.

(** ** Deleting a category *)

Lemma unlink_patch_apply ctx task :
  TaskPatch.apply (Tasks.with_updatedAt CategoriesEndpoint.unlink_patch (now ctx)) task
  = unlinked_task ctx task.
Proof. reflexivity. Qed.

(** The tasks that category deletion leaves, by mode. *)
Lemma remove_category_tasks ctx id mode st :
  ∃ st',
    (tasksInCategory ← Tasks.getTasksByCategory ctx id;
     match mode with
     | deleteTasks => Tasks.deleteTasks ctx (map (λ t, t.1) tasksInCategory)
     | unlink =>
         for_of tasksInCategory
           (λ task, Tasks.updateTask ctx task.1 CategoriesEndpoint.unlink_patch)
     end) st = (inr tt, st')
    ∧ categories st' = categories st
    ∧ taskComments st' = taskComments st
    ∧ taskActivity st' = taskActivity st
    ∧ ∀ k, tasks st' !! k
           = match tasks st !! k with
             | Some task =>
                 if bool_decide (Task.categoryId task = Some id)
                 then match mode with
                      | unlink => Some (unlinked_task ctx task)
                      | deleteTasks => None
                      end
                 else Some task
             | None => None
             end.
Proof.
  rewrite bind_run. unfold Tasks.getTasksByCategory, db.collect.
  cbn [get_table tasks_table].
  set (range := λ t : Task.t, bool_decide (Task.categoryId t = Some id)).
  set (docs := List.filter _ _).
  assert (Hpresent : ∀ doc, doc ∈ docs → is_Some (get_table (A := Task.t) st !! doc.1)).
  { intros [k t] Hin. apply elem_of_collect in Hin as [Hk _]. cbn. by rewrite Hk. }
  destruct mode.
  - unfold Tasks.updateTask.
    rewrite (for_of_patch (A := Task.t) fst
               (λ _, TaskPatch.apply
                       (Tasks.with_updatedAt CategoriesEndpoint.unlink_patch (now ctx)))
               docs st Hpresent).
    eexists. split; [reflexivity|]. do 3 (split; [reflexivity|]).
    intros k. cbn [tasks logs set_table get_table tasks_table].
    rewrite (lookup_foldl_alter (A := Task.t) fst) by apply NoDup_collect.
    case_decide as Hk.
    + apply (elem_of_collect_keys (A := Task.t) range) in Hk as (task & -> & Hr).
      cbn. subst range. cbn in Hr. by rewrite Hr.
    + destruct (tasks st !! k) as [task|] eqn:Ht; [|done].
      case_bool_decide as Hc; [|done].
      destruct Hk. apply (elem_of_collect_keys (A := Task.t) range).
      exists task. split; [done|]. subst range. cbn. by rewrite bool_decide_true.
  - unfold Tasks.deleteTasks. rewrite for_of_map.
    rewrite (for_of_delete (A := Task.t) fst docs st (NoDup_collect _ _) Hpresent).
    eexists. split; [reflexivity|]. do 3 (split; [reflexivity|]).
    intros k. cbn [tasks logs set_table get_table tasks_table].
    exact (lookup_delete_collected (A := Task.t) range (tasks st) k).
Qed.

(** C7. For a category of the caller (authenticated, and let through by
    the rate limiter), [remove] succeeds and deletes the category.  In
    mode "unlink" every task that references the category stays, with
    [categoryId] cleared and [updatedAt] set to the current time and every
    other field as it was; in mode "deleteTasks" every such task is
    deleted.  In both modes the other tasks, the comments and the activity
    records are as they were. *)
Theorem category_remove_unlinks_or_deletes ctx u id category mode st :
  getAuthUser ctx = Some u →
  ok (rateLimiter_limit ctx "deleteCategory" (_id u)) = true →
  categories st !! id = Some category →
  Category.userId category = _id u →
  ∃ st',
    CategoriesEndpoint.remove ctx id mode st = (inr id, st')
    ∧ categories st' = delete id (categories st)
    ∧ taskComments st' = taskComments st
    ∧ taskActivity st' = taskActivity st
    ∧ ∀ k, tasks st' !! k
           = match tasks st !! k with
             | Some task =>
                 if bool_decide (Task.categoryId task = Some id)
                 then match mode with
                      | unlink => Some (unlinked_task ctx task)
                      | deleteTasks => None
                      end
                 else Some task
             | None => None
             end.
Proof.
  intros Hu Hrl Hc Ho. unfold CategoriesEndpoint.remove.
  rewrite bind_run, (authenticate_ok _ _ _ Hu).
  rewrite bind_run, (rate_limit_ok _ _ _ _ Hrl).
  rewrite bind_run. unfold Categories.getCategoryById, db.get.
  cbn [get_table categories_table]. rewrite Hc.
  rewrite bind_run, bool_decide_true, throw_if_false by done.
  destruct (remove_category_tasks ctx id mode st)
    as (st1 & Hrun & Hcat & Hcomments & Hactivity & Htasks).
  rewrite bind_run in Hrun. rewrite bind_run.
  destruct (Tasks.getTasksByCategory ctx id st) as [[e|tasksInCategory] st0]; [done|].
  rewrite bind_run, Hrun.
  rewrite bind_run. unfold Categories.deleteCategory, db.delete.
  cbn [get_table categories_table]. rewrite Hcat, Hc. cbn [mret M_ret].
  eexists. split; [reflexivity|].
  cbn [categories tasks taskComments taskActivity db.write log set_table categories_table].
  done.
Qed.

(** Deleting alice's category 0 in mode "unlink" goes through and changes
    [updatedAt] of her task 0, which references the category, from 5 to
    the current time. *)
Lemma unlink_touches_updatedAt_counterexample :
  Examples.returned (CategoriesEndpoint.remove Examples.ctx 0%N unlink Examples.store)
  = Some 0%N
  ∧ Task.updatedAt <$> tasks Examples.store !! 0%N = Some 5
  ∧ Task.updatedAt
      <$> tasks (CategoriesEndpoint.remove Examples.ctx 0%N unlink Examples.store).2 !! 0%N
    = Some 1700000000000.
Proof. repeat split; vm_compute; reflexivity. Qed.

Lemma category_remove_unlinks_or_deletes_witness :
  (∃ st',
     CategoriesEndpoint.remove Examples.ctx 0%N unlink Examples.store = (inr 0%N, st')
     ∧ categories st' = delete 0%N (categories Examples.store)
     ∧ taskComments st' = taskComments Examples.store
     ∧ taskActivity st' = taskActivity Examples.store
     ∧ ∀ k, tasks st' !! k
            = match tasks Examples.store !! k with
              | Some task =>
                  if bool_decide (Task.categoryId task = Some 0%N)
                  then Some (unlinked_task Examples.ctx task)
                  else Some task
              | None => None
              end)
  ∧ (∃ st',
       CategoriesEndpoint.remove Examples.ctx 0%N deleteTasks Examples.store = (inr 0%N, st')
       ∧ categories st' = delete 0%N (categories Examples.store)
       ∧ taskComments st' = taskComments Examples.store
       ∧ taskActivity st' = taskActivity Examples.store
       ∧ ∀ k, tasks st' !! k
              = match tasks Examples.store !! k with
                | Some task =>
                    if bool_decide (Task.categoryId task = Some 0%N)
                    then None
                    else Some task
                | None => None
                end).
Proof.
  split.
  - apply (category_remove_unlinks_or_deletes Examples.ctx Examples.alice 0%N
             (Examples.category "alice" "work" 0) unlink Examples.store);
      reflexivity.
  - apply (category_remove_unlinks_or_deletes Examples.ctx Examples.alice 0%N
             (Examples.category "alice" "work" 0) deleteTasks Examples.store);
      reflexivity.
Defined.

(** * Further properties of the handlers *)

(** ** Trimming *)

(** [trimStart] on the list of the characters. *)
Fixpoint drop_whitespace (l : list ascii) : list ascii :=
  match l with
  | c :: l' => if validation.is_whitespace c then drop_whitespace l' else l
  | [] => []
  end.

Lemma chars_trimStart s :
  String.list_ascii_of_string (validation.trimStart s)
  = drop_whitespace (String.list_ascii_of_string s).
Proof.
  induction s as [|c s IH]; [done|]. cbn.
  by destruct (validation.is_whitespace c).
Qed.

Lemma chars_rev_app s1 : ∀ s2,
  String.list_ascii_of_string (String.rev_app s1 s2)
  = reverse (String.list_ascii_of_string s1) ++ String.list_ascii_of_string s2.
Proof.
  induction s1 as [|c s1 IH]; intros s2; [done|].
  cbn [String.rev_app String.list_ascii_of_string].
  rewrite IH, reverse_cons, <- app_assoc. done.
Qed.

Lemma chars_rev s :
  String.list_ascii_of_string (String.rev s) = reverse (String.list_ascii_of_string s).
Proof. unfold String.rev. by rewrite chars_rev_app, app_nil_r. Qed.

Lemma chars_app s1 s2 :
  String.list_ascii_of_string (s1 +:+ s2)
  = String.list_ascii_of_string s1 ++ String.list_ascii_of_string s2.
Proof.
  induction s1 as [|c s1 IH]; [done|].
  change (String.list_ascii_of_string (String c s1 +:+ s2))
    with (c :: String.list_ascii_of_string (s1 +:+ s2)).
  by rewrite IH.
Qed.

Lemma chars_length s : length (String.list_ascii_of_string s) = String.length s.
Proof. induction s as [|c s IH]; [done|]. cbn. by rewrite IH. Qed.

Lemma chars_inj s1 s2 :
  String.list_ascii_of_string s1 = String.list_ascii_of_string s2 → s1 = s2.
Proof.
  intros Heq.
  rewrite <- (String.string_of_list_ascii_of_string s1),
          <- (String.string_of_list_ascii_of_string s2).
  by rewrite Heq.
Qed.

Lemma chars_sanitizeInput s :
  String.list_ascii_of_string (validation.sanitizeInput s)
  = reverse (drop_whitespace (reverse (drop_whitespace (String.list_ascii_of_string s)))).
Proof.
  unfold validation.sanitizeInput.
  by rewrite chars_rev, chars_trimStart, chars_rev, chars_trimStart.
Qed.

Lemma drop_whitespace_head l :
  drop_whitespace l = []
  ∨ ∃ c l', drop_whitespace l = c :: l' ∧ validation.is_whitespace c = false.
Proof.
  induction l as [|c l IH]; [by left|]. cbn.
  destruct (validation.is_whitespace c) eqn:Hc; [done|]. right. eauto.
Qed.

Lemma drop_whitespace_split l :
  ∃ ws, l = ws ++ drop_whitespace l ∧ forallb validation.is_whitespace ws = true.
Proof.
  induction l as [|c l (ws & Hl & Hws)]; [by exists []|]. cbn.
  destruct (validation.is_whitespace c) eqn:Hc.
  - exists (c :: ws). cbn. rewrite Hc, Hws. split; [by rewrite <- Hl|done].
  - by exists [].
Qed.

Lemma drop_whitespace_all l :
  forallb validation.is_whitespace l = true → drop_whitespace l = [].
Proof.
  induction l as [|c l IH]; [done|]. cbn.
  destruct (validation.is_whitespace c); [apply IH|done].
Qed.

(** The shape of a trimmed list: it is a part of the list it comes from,
    between a run of white space and another, and it is empty or starts
    and ends with a character that is not white space. *)
Lemma trimmed_shape l :
  let t := reverse (drop_whitespace (reverse (drop_whitespace l))) in
  (∃ before after,
     l = before ++ t ++ after
     ∧ forallb validation.is_whitespace before = true
     ∧ forallb validation.is_whitespace after = true)
  ∧ (t = []
     ∨ ∃ first middle last,
         (t = [first] ∧ last = first ∨ t = first :: middle ++ [last])
         ∧ validation.is_whitespace first = false
         ∧ validation.is_whitespace last = false).
Proof.
  intros t. subst t.
  destruct (drop_whitespace_split l) as (before & Hl & Hbefore).
  set (l1 := drop_whitespace l) in *.
  destruct (drop_whitespace_split (reverse l1)) as (ws & Hrev & Hws).
  set (r := drop_whitespace (reverse l1)) in *.
  assert (Hl1 : l1 = reverse r ++ reverse ws).
  { rewrite <- reverse_app, <- Hrev. by rewrite reverse_involutive. }
  split.
  - exists before, (reverse ws). split; [by rewrite <- Hl1|]. split; [done|].
    rewrite forallb_forall in Hws. apply forallb_forall. intros c Hc.
    apply Hws. rewrite <- list_elem_of_In in Hc |- *.
    by rewrite elem_of_reverse in Hc.
  - destruct (drop_whitespace_head (reverse l1)) as [Hnil|(last & r' & Hr & Hlast)];
      fold r in Hnil || fold r in Hr.
    + left. by rewrite Hnil.
    + right. rewrite Hr, reverse_cons.
      destruct (drop_whitespace_head l) as [Hnil|(first & l1' & Hl1' & Hfirst)];
        fold l1 in Hnil || fold l1 in Hl1'.
      * rewrite Hnil in Hrev. cbn in Hrev. rewrite Hr in Hrev.
        by destruct ws.
      * rewrite Hr, reverse_cons, Hl1' in Hl1.
        destruct (reverse r') as [|c m] eqn:Hm.
        -- cbn in Hl1. injection Hl1 as <- _.
           exists first, [], first. cbn. by split; [left|].
        -- cbn in Hl1. injection Hl1 as <- _.
           exists first, m, last. split; [by right|done].
Qed.

Lemma trimmed_fixed t :
  (t = []
   ∨ ∃ first middle last,
       (t = [first] ∧ last = first ∨ t = first :: middle ++ [last])
       ∧ validation.is_whitespace first = false
       ∧ validation.is_whitespace last = false) →
  reverse (drop_whitespace (reverse (drop_whitespace t))) = t.
Proof.
  intros [->|(first & middle & last & Ht & Hfirst & Hlast)]; [done|].
  assert (Hdrop : drop_whitespace t = t).
  { destruct Ht as [[-> _]| ->]; cbn; by rewrite Hfirst. }
  rewrite Hdrop.
  assert (Hrev : drop_whitespace (reverse t) = reverse t).
  { destruct Ht as [[-> ->]| ->].
    - cbn. by rewrite Hfirst.
    - rewrite reverse_cons, reverse_app. cbn. by rewrite Hlast. }
  by rewrite Hrev, reverse_involutive.
Qed.

(** X1. [sanitizeInput] cuts a run of white space off each end of its
    input and nothing else: trimming twice is trimming once, the result is
    empty or starts and ends with a character that is not white space, it
    is never longer than the input, and an input of white space only
    (the empty one included) gives the empty string. *)
Theorem sanitizeInput_trims s :
  validation.sanitizeInput (validation.sanitizeInput s) = validation.sanitizeInput s
  ∧ (∃ before after,
       s = before +:+ validation.sanitizeInput s +:+ after
       ∧ forallb validation.is_whitespace (String.list_ascii_of_string before) = true
       ∧ forallb validation.is_whitespace (String.list_ascii_of_string after) = true)
  ∧ (∀ c rest, validation.sanitizeInput s = String c rest →
       validation.is_whitespace c = false)
  ∧ (∀ front c, validation.sanitizeInput s = front +:+ String c "" →
       validation.is_whitespace c = false)
  ∧ (String.length (validation.sanitizeInput s) ≤ String.length s)%nat
  ∧ (forallb validation.is_whitespace (String.list_ascii_of_string s) = true →
     validation.sanitizeInput s = "").
Proof.
  pose proof (trimmed_shape (String.list_ascii_of_string s)) as [Hparts Hends].
  cbv zeta in Hparts, Hends. rewrite <- chars_sanitizeInput in Hparts, Hends.
  set (t := validation.sanitizeInput s) in *.
  destruct Hparts as (before & after & Hs & Hbefore & Hafter).
  split; [|split; [|split; [|split; [|split]]]].
  - apply chars_inj. rewrite chars_sanitizeInput. by apply trimmed_fixed.
  - exists (String.string_of_list_ascii before), (String.string_of_list_ascii after).
    rewrite !String.list_ascii_of_string_of_list_ascii. split; [|done].
    apply chars_inj.
    by rewrite !chars_app, !String.list_ascii_of_string_of_list_ascii.
  - intros c rest Ht. rewrite Ht in Hends. cbn in Hends.
    destruct Hends as [|(first & middle & last & Hshape & Hfirst & _)]; [done|].
    destruct Hshape as [[[= ->] _]|[= -> _]]; done.
  - intros front c Ht. rewrite Ht, chars_app in Hends. cbn in Hends.
    destruct Hends as [Hnil|(first & middle & last & Hshape & _ & Hlast)].
    { by destruct (String.list_ascii_of_string front). }
    destruct Hshape as [[Hone ->]|Hmany].
    + destruct (String.list_ascii_of_string front) as [|? [|]]; [|done..].
      by injection Hone as ->.
    + change (first :: middle ++ [last]) with ((first :: middle) ++ [last]) in Hmany.
      apply app_inj_2 in Hmany as [_ [= ->]]; done.
  - rewrite <- !chars_length, Hs, !length_app. lia.
  - intros Hall. subst t. apply chars_inj. rewrite chars_sanitizeInput.
    by rewrite (drop_whitespace_all _ Hall).
Qed.

(** ** Task handlers: a throw comes before every write *)

Ltac guard_step :=
  rewrite bind_run; try unfold rate_limit;
  lazymatch goal with
  | |- context [throw_if ?b ?e ?s] =>
      destruct b eqn:?; [rewrite throw_if_true; left; eauto | rewrite throw_if_false]
  end.

Ltac auth_step :=
  rewrite bind_run; unfold authenticate;
  destruct (getAuthUser _) as [?authUser|] eqn:?; [cbn [mret M_ret] | left; eauto].

Ltac task_step :=
  rewrite bind_run, getTaskById_run;
  lazymatch goal with
  | |- context [tasks ?st !! ?id] =>
      destruct (tasks st !! id) as [?task|] eqn:?; [|left; eauto]
  end.

Lemma create_task_cases ctx args st :
  (∃ e, TasksEndpoint.create ctx args st = (inl e, st))
  ∨ (∃ id st', TasksEndpoint.create ctx args st = (inr id, st')).
Proof.
  unfold TasksEndpoint.create. auth_step. do 5 guard_step.
  right. rewrite bind_run, getTasksByUser_run.
  rewrite bind_run. unfold Tasks.createTask, db.insert at 1.
  rewrite bind_run. cbn. eauto.
Qed.

Lemma update_task_cases ctx args st :
  (∃ e, TasksEndpoint.update ctx args st = (inl e, st))
  ∨ (∃ id st', TasksEndpoint.update ctx args st = (inr id, st')).
Proof.
  unfold TasksEndpoint.update. auth_step. guard_step. task_step. do 5 guard_step.
  right. rewrite bind_run. unfold Tasks.updateTask, db.patch at 1.
  cbn [get_table tasks_table].
  lazymatch goal with H : tasks st !! _ = Some _ |- _ => rewrite H end.
  destruct (TasksEndpoint.changed (TasksEndpoint.u_status args) _) as [[oldStatus newStatus]|].
  - rewrite bind_run. cbn. eauto.
  - destruct (TasksEndpoint.u_title args), (TasksEndpoint.changed (TasksEndpoint.u_priority args) _);
      cbn; eauto.
Qed.

Lemma owned_task_cases ctx id st :
  (∃ e, TasksEndpoint.owned_task ctx id st = (inl e, st))
  ∨ (∃ u task,
       getAuthUser ctx = Some u
       ∧ tasks st !! id = Some task
       ∧ Task.userId task = _id u
       ∧ TasksEndpoint.owned_task ctx id st = (inr (u, task), st)).
Proof.
  unfold TasksEndpoint.owned_task. auth_step. task_step.
  rewrite bind_run.
  destruct (decide (Task.userId task = _id authUser)) as [Ho|Ho].
  - rewrite bool_decide_true, throw_if_false by done. right. eauto 10.
  - rewrite bool_decide_false, throw_if_true by done. left. eauto.
Qed.

Lemma status_handler_cases ctx id st :
  ((∃ e, TasksEndpoint.complete ctx id st = (inl e, st))
   ∨ (∃ st', TasksEndpoint.complete ctx id st = (inr id, st')))
  ∧ ((∃ e, TasksEndpoint.reopen ctx id st = (inl e, st))
     ∨ (∃ st', TasksEndpoint.reopen ctx id st = (inr id, st')))
  ∧ ((∃ e, TasksEndpoint.archive ctx id st = (inl e, st))
     ∨ (∃ st', TasksEndpoint.archive ctx id st = (inr id, st'))).
Proof.
  unfold TasksEndpoint.complete, TasksEndpoint.reopen, TasksEndpoint.archive.
  rewrite !bind_run.
  destruct (owned_task_cases ctx id st) as [[e ->]|(u & task & _ & Ht & _ & ->)].
  { repeat split; left; eauto. }
  unfold Tasks.completeTask, Tasks.reopenTask, Tasks.archiveTask, db.patch.
  cbn [get_table tasks_table]. rewrite !bind_run, Ht. cbn.
  repeat split; right; eauto.
Qed.

(** The writes of [remove] after its checks go through. *)
Lemma remove_task_cascade_ok ctx id userId metadata st :
  is_Some (tasks st !! id) →
  ∃ st',
    (TaskActivity.logTaskDeleted ctx id userId metadata;;
     TaskComments.deleteCommentsByTask ctx id;;
     TaskActivity.deleteActivityByTask ctx id;;
     Tasks.deleteTask ctx id;;
     mret id) st = (inr id, st').
Proof.
  intros [task Ht]. rewrite bind_run.
  unfold TaskActivity.logTaskDeleted, TaskActivity.createTaskActivity, db.insert at 1.
  set (st1 := db.write Inserted _ _ st).
  rewrite bind_run, deleteCommentsByTask_run. cbv zeta.
  set (st2 := logs _ (set_table _ st1)).
  rewrite bind_run, deleteActivityByTask_run. cbv zeta.
  set (st3 := logs _ (set_table _ st2)).
  rewrite bind_run. unfold Tasks.deleteTask, db.delete.
  assert (Htasks : get_table (A := Task.t) st3 = tasks st) by reflexivity.
  rewrite Htasks, Ht. cbn [mret M_ret]. eauto.
Qed.

Lemma remove_task_cases ctx id st :
  (∃ e, TasksEndpoint.remove ctx id st = (inl e, st))
  ∨ (∃ st', TasksEndpoint.remove ctx id st = (inr id, st')).
Proof.
  unfold TasksEndpoint.remove. auth_step. guard_step. task_step. guard_step.
  right. apply remove_task_cascade_ok. by eexists.
Qed.

Lemma reorder_tasks_cases ctx updates st :
  (∃ e, TasksEndpoint.reorder ctx updates st = (inl e, st))
  ∨ (∃ st', TasksEndpoint.reorder ctx updates st = (inr true, st')).
Proof.
  unfold TasksEndpoint.reorder. auth_step. rewrite bind_run.
  destruct (verify_updates ctx authUser updates st) as [[Hall ->]|[_ (e & _ & ->)]];
    [|left; eauto].
  right. rewrite bind_run, updateTaskOrders_run; [cbn; eauto|].
  eapply Forall_impl; [exact Hall|]. intros upd (task & -> & _). by eexists.
Qed.

(** X2. A task mutation that throws has written nothing: whatever the
    caller, the arguments and the store, when [create], [update],
    [complete], [reopen], [archive], [remove] or [reorder] ends in an error
    the store, write log included, is the one it started from. *)
Theorem task_mutation_error_leaves_store ctx st e st' :
  (∀ args, TasksEndpoint.create ctx args st = (inl e, st') → st' = st)
  ∧ (∀ args, TasksEndpoint.update ctx args st = (inl e, st') → st' = st)
  ∧ (∀ id, TasksEndpoint.complete ctx id st = (inl e, st') → st' = st)
  ∧ (∀ id, TasksEndpoint.reopen ctx id st = (inl e, st') → st' = st)
  ∧ (∀ id, TasksEndpoint.archive ctx id st = (inl e, st') → st' = st)
  ∧ (∀ id, TasksEndpoint.remove ctx id st = (inl e, st') → st' = st)
  ∧ (∀ updates, TasksEndpoint.reorder ctx updates st = (inl e, st') → st' = st).
Proof.
  repeat split.
  - intros args Hrun.
    destruct (create_task_cases ctx args st) as [[e' He]|(id & st'' & Hok)]; congruence.
  - intros args Hrun.
    destruct (update_task_cases ctx args st) as [[e' He]|(id & st'' & Hok)]; congruence.
  - intros id Hrun.
    destruct (status_handler_cases ctx id st) as ([[e' He]|[st'' Hok]] & _ & _); congruence.
  - intros id Hrun.
    destruct (status_handler_cases ctx id st) as (_ & [[e' He]|[st'' Hok]] & _); congruence.
  - intros id Hrun.
    destruct (status_handler_cases ctx id st) as (_ & _ & [[e' He]|[st'' Hok]]); congruence.
  - intros id Hrun.
    destruct (remove_task_cases ctx id st) as [[e' He]|[st'' Hok]]; congruence.
  - intros updates Hrun.
    destruct (reorder_tasks_cases ctx updates st) as [[e' He]|[st'' Hok]]; congruence.
Qed.

Lemma task_mutation_error_leaves_store_witness :
  (TasksEndpoint.create Examples.ctx (Examples.create_args "  " None) Examples.store).2
  = Examples.store
  ∧ (TasksEndpoint.reorder Examples.ctx [(0%N, 4); (2%N, 1)] Examples.store).2
    = Examples.store.
Proof.
  split.
  - apply (proj1 (task_mutation_error_leaves_store Examples.ctx Examples.store
                    (InvalidInput "Title must be between 1 and 200 characters")
                    (TasksEndpoint.create Examples.ctx (Examples.create_args "  " None)
                       Examples.store).2)
             (Examples.create_args "  " None)).
    reflexivity.
  - apply (proj2 (proj2 (proj2 (proj2 (proj2 (proj2
             (task_mutation_error_leaves_store Examples.ctx Examples.store NotAuthorized
                (TasksEndpoint.reorder Examples.ctx [(0%N, 4); (2%N, 1)]
                   Examples.store).2))))))
             [(0%N, 4); (2%N, 1)]).
    reflexivity.
Defined.

(** ** Task handlers: who may read and change a task *)

(** X3. [get] hands a task to its owner and to nobody else, and reads
    only: it returns a task exactly when the caller is authenticated, the
    id names a stored task and that task is the caller's, and then it
    returns that task; in every case the store is left as it was. *)
Theorem get_task_access ctx id st :
  (TasksEndpoint.get ctx id st).2 = st
  ∧ ∀ task,
      (TasksEndpoint.get ctx id st).1 = inr task
      ↔ ∃ u, getAuthUser ctx = Some u
             ∧ tasks st !! id = Some task
             ∧ Task.userId task = _id u.
Proof.
  unfold TasksEndpoint.get. rewrite bind_run. unfold authenticate.
  destruct (getAuthUser ctx) as [u|]; cbn [mret M_ret mthrow M_throw].
  - rewrite bind_run, getTaskById_run.
    destruct (tasks st !! id) as [task|]; cbn [mthrow M_throw].
    + rewrite bind_run.
      destruct (decide (Task.userId task = _id u)) as [Ho|Ho].
      * rewrite bool_decide_true, throw_if_false by done. cbn. split; [done|].
        intros task'. split.
        -- intros [= <-]. eauto.
        -- intros (u' & [= <-] & [= <-] & _). done.
      * rewrite bool_decide_false, throw_if_true by done. cbn. split; [done|].
        intros task'. split; [done|].
        intros (u' & [= <-] & [= <-] & Ho'). done.
    + cbn. split; [done|]. intros task. split; [done|]. intros (u' & _ & [=] & _).
  - cbn. split; [done|]. intros task. split; [done|]. intros (u' & [=] & _).
Qed.

Lemma owned_task_refused ctx u id st :
  getAuthUser ctx = Some u →
  ¬ owned_by st u id →
  TasksEndpoint.owned_task ctx id st
  = (inl match tasks st !! id with
         | Some _ => NotAuthorized
         | None => NotFound
         end, st).
Proof.
  intros Hu Hno. unfold TasksEndpoint.owned_task.
  rewrite bind_run, (authenticate_ok _ _ _ Hu).
  rewrite bind_run, getTaskById_run.
  destruct (tasks st !! id) as [task|] eqn:Ht; [|done].
  rewrite bind_run, bool_decide_false, throw_if_true; [done|].
  intros Ho. apply Hno. by exists task.
Qed.

(** X4. For an authenticated caller, a task id that names no task, or a
    task of somebody else, is refused by every handler that takes one:
    [get], [complete], [reopen], [archive] and, once past the rate
    limiter, [update] and [remove] throw NotFound in the first case and
    NotAuthorized in the second, and nothing is written. *)
Theorem foreign_task_is_refused ctx u id st :
  getAuthUser ctx = Some u →
  ¬ owned_by st u id →
  let e := match tasks st !! id with
           | Some _ => NotAuthorized
           | None => NotFound
           end in
  TasksEndpoint.get ctx id st = (inl e, st)
  ∧ TasksEndpoint.complete ctx id st = (inl e, st)
  ∧ TasksEndpoint.reopen ctx id st = (inl e, st)
  ∧ TasksEndpoint.archive ctx id st = (inl e, st)
  ∧ (ok (rateLimiter_limit ctx "updateTask" (_id u)) = true →
     ∀ args, TasksEndpoint.u_id args = id →
       TasksEndpoint.update ctx args st = (inl e, st))
  ∧ (ok (rateLimiter_limit ctx "deleteTask" (_id u)) = true →
     TasksEndpoint.remove ctx id st = (inl e, st)).
Proof.
  intros Hu Hno e.
  assert (Hcheck : ∀ task, tasks st !! id = Some task →
            bool_decide (Task.userId task = _id u) = false).
  { intros task Ht. apply bool_decide_false. intros Ho. apply Hno. by exists task. }
  split; [|split; [|split; [|split; [|split]]]].
  - unfold TasksEndpoint.get.
    rewrite bind_run, (authenticate_ok _ _ _ Hu), bind_run, getTaskById_run. subst e.
    destruct (tasks st !! id) as [task|] eqn:Ht; [|done].
    by rewrite bind_run, (Hcheck task), throw_if_true.
  - unfold TasksEndpoint.complete.
    by rewrite bind_run, (owned_task_refused _ _ _ _ Hu Hno).
  - unfold TasksEndpoint.reopen.
    by rewrite bind_run, (owned_task_refused _ _ _ _ Hu Hno).
  - unfold TasksEndpoint.archive.
    by rewrite bind_run, (owned_task_refused _ _ _ _ Hu Hno).
  - intros Hrl args <-. unfold TasksEndpoint.update.
    rewrite bind_run, (authenticate_ok _ _ _ Hu).
    rewrite bind_run, (rate_limit_ok _ _ _ _ Hrl).
    rewrite bind_run, getTaskById_run. subst e.
    destruct (tasks st !! TasksEndpoint.u_id args) as [task|] eqn:Ht; [|done].
    by rewrite bind_run, (Hcheck task), throw_if_true.
  - intros Hrl. unfold TasksEndpoint.remove.
    rewrite bind_run, (authenticate_ok _ _ _ Hu).
    rewrite bind_run, (rate_limit_ok _ _ _ _ Hrl).
    rewrite bind_run, getTaskById_run. subst e.
    destruct (tasks st !! id) as [task|] eqn:Ht; [|done].
    by rewrite bind_run, (Hcheck task), throw_if_true.
Qed.

Lemma foreign_task_is_refused_witness :
  TasksEndpoint.get Examples.ctx 2%N Examples.store = (inl NotAuthorized, Examples.store)
  ∧ TasksEndpoint.complete Examples.ctx 2%N Examples.store
    = (inl NotAuthorized, Examples.store)
  ∧ TasksEndpoint.reopen Examples.ctx 2%N Examples.store
    = (inl NotAuthorized, Examples.store)
  ∧ TasksEndpoint.archive Examples.ctx 2%N Examples.store
    = (inl NotAuthorized, Examples.store)
  ∧ TasksEndpoint.update Examples.ctx (Examples.update_args 2%N (Some completed) None)
      Examples.store
    = (inl NotAuthorized, Examples.store)
  ∧ TasksEndpoint.remove Examples.ctx 2%N Examples.store
    = (inl NotAuthorized, Examples.store).
Proof.
  assert (Hno : ¬ owned_by Examples.store Examples.alice 2%N).
  { intros (task & Ht & Ho). vm_compute in Ht. injection Ht as <-. discriminate Ho. }
  destruct (foreign_task_is_refused Examples.ctx Examples.alice 2%N Examples.store
              eq_refl Hno)
    as (Hget & Hcomplete & Hreopen & Harchive & Hupdate & Hremove).
  exact (conj Hget (conj Hcomplete (conj Hreopen (conj Harchive
           (conj (Hupdate eq_refl (Examples.update_args 2%N (Some completed) None) eq_refl)
                 (Hremove eq_refl)))))).
Defined.

(** ** Task handlers: what the list queries return *)

Lemma NoDup_fst_filter {A} (f : N * A → bool) (l : list (N * A)) :
  NoDup l.*1 → NoDup (List.filter f l).*1.
Proof.
  induction l as [|[k a] l IH]; [done|]. cbn.
  intros [Hk Hl]%NoDup_cons. destruct (f (k, a)); [|by apply IH].
  cbn. apply NoDup_cons. split; [|by apply IH].
  intros Hin. apply Hk.
  apply list_elem_of_fmap in Hin as [[k' a'] [-> Hin]].
  apply list_elem_of_In, filter_In in Hin as [Hin _].
  apply list_elem_of_fmap. exists (k', a'). split; [done|].
  by apply list_elem_of_In.
Qed.

Lemma NoDup_fst_reverse {A} (l : list (N * A)) : NoDup l.*1 → NoDup (reverse l).*1.
Proof. intros Hl. by rewrite fmap_reverse, reverse_Permutation. Qed.

Lemma elem_of_List_filter {A} (f : A → bool) (l : list A) x :
  x ∈ List.filter f l ↔ x ∈ l ∧ f x = true.
Proof. by rewrite !list_elem_of_In, filter_In. Qed.

(** X5. For an authenticated caller the list queries read only and return
    each matching task once: [list] the caller's tasks, [listByStatus],
    [listByCategory] and [listByPriority] those of them with the given
    status, category or priority, [listWithDueDates] all of them again
    (the task without a due date too: the index range is the user alone),
    and [listOverdue] those whose due date is not 0, lies before the
    current time, and whose status is neither completed nor archived. *)
Theorem list_queries_scope ctx u st :
  getAuthUser ctx = Some u →
  (∃ l, TasksEndpoint.list ctx st = (inr l, st)
        ∧ NoDup l.*1
        ∧ ∀ k t, (k, t) ∈ l ↔ tasks st !! k = Some t ∧ Task.userId t = _id u)
  ∧ (∀ status,
       ∃ l, TasksEndpoint.listByStatus ctx status st = (inr l, st)
            ∧ NoDup l.*1
            ∧ ∀ k t, (k, t) ∈ l
                     ↔ tasks st !! k = Some t ∧ Task.userId t = _id u
                       ∧ Task.status t = status)
  ∧ (∀ categoryId,
       ∃ l, TasksEndpoint.listByCategory ctx categoryId st = (inr l, st)
            ∧ NoDup l.*1
            ∧ ∀ k t, (k, t) ∈ l
                     ↔ tasks st !! k = Some t ∧ Task.userId t = _id u
                       ∧ Task.categoryId t = Some categoryId)
  ∧ (∀ priority,
       ∃ l, TasksEndpoint.listByPriority ctx priority st = (inr l, st)
            ∧ NoDup l.*1
            ∧ ∀ k t, (k, t) ∈ l
                     ↔ tasks st !! k = Some t ∧ Task.userId t = _id u
                       ∧ Task.priority t = priority)
  ∧ (∃ l, TasksEndpoint.listWithDueDates ctx st = (inr l, st)
          ∧ NoDup l.*1
          ∧ ∀ k t, (k, t) ∈ l ↔ tasks st !! k = Some t ∧ Task.userId t = _id u)
  ∧ (∃ l, TasksEndpoint.listOverdue ctx st = (inr l, st)
          ∧ NoDup l.*1
          ∧ ∀ k t, (k, t) ∈ l
                   ↔ tasks st !! k = Some t ∧ Task.userId t = _id u
                     ∧ ∃ dueDate, Task.dueDate t = Some dueDate
                                  ∧ dueDate ≠ 0 ∧ dueDate < now ctx
                                  ∧ Task.status t ≠ completed
                                  ∧ Task.status t ≠ archived).
Proof.
  intros Hu.
  unfold TasksEndpoint.list, TasksEndpoint.listByStatus, TasksEndpoint.listByCategory,
    TasksEndpoint.listByPriority, TasksEndpoint.listWithDueDates, TasksEndpoint.listOverdue.
  split; [|split; [|split; [|split; [|split]]]].
  - rewrite bind_run, (authenticate_ok _ _ _ Hu).
    eexists. split; [reflexivity|]. split.
    + apply NoDup_fst_reverse, NoDup_collect.
    + apply elem_of_getTasksByUser.
  - intros status. rewrite bind_run, (authenticate_ok _ _ _ Hu).
    eexists. split; [reflexivity|]. split.
    + apply NoDup_fst_reverse, NoDup_collect.
    + intros k t. rewrite elem_of_reverse, elem_of_collect. cbn.
      rewrite andb_true_iff, !bool_decide_eq_true. tauto.
  - intros categoryId. rewrite bind_run, (authenticate_ok _ _ _ Hu).
    eexists. split; [reflexivity|]. split.
    + apply NoDup_fst_reverse, NoDup_collect.
    + intros k t. rewrite elem_of_reverse, elem_of_collect. cbn.
      rewrite andb_true_iff, !bool_decide_eq_true. tauto.
  - intros priority. rewrite bind_run, (authenticate_ok _ _ _ Hu).
    eexists. split; [reflexivity|]. split.
    + apply NoDup_fst_reverse, NoDup_collect.
    + intros k t. rewrite elem_of_reverse, elem_of_collect. cbn.
      rewrite andb_true_iff, !bool_decide_eq_true. tauto.
  - rewrite bind_run, (authenticate_ok _ _ _ Hu).
    eexists. split; [reflexivity|]. split.
    + apply NoDup_collect.
    + intros k t. rewrite elem_of_collect. cbn. by rewrite bool_decide_eq_true.
  - rewrite bind_run, (authenticate_ok _ _ _ Hu).
    eexists. split; [reflexivity|]. split.
    + apply NoDup_fst_filter, NoDup_collect.
    + intros k t. rewrite elem_of_List_filter, elem_of_collect. cbn.
      rewrite bool_decide_eq_true. unfold truthy_number.
      destruct (Task.dueDate t) as [d|].
      * destruct (Z.eqb_spec d 0) as [->|Hd].
        -- split; [by intros [_ [=]]|]. intros (_ & _ & d' & [= <-] & Hd' & _). done.
        -- rewrite !andb_true_iff, !negb_true_iff, !bool_decide_eq_false, Z.ltb_lt.
           split.
           ++ intros ((Hk & Ho) & (Hlt & Hc) & Ha). eauto 10.
           ++ intros (Hk & Ho & d' & [= <-] & _ & Hlt & Hc & Ha). done.
      * split; [by intros [_ [=]]|]. intros (_ & _ & d' & [=] & _).
Qed.

Lemma list_queries_scope_witness :
  (∃ l, TasksEndpoint.list Examples.ctx Examples.store = (inr l, Examples.store)
        ∧ NoDup l.*1
        ∧ ∀ k t, (k, t) ∈ l
                 ↔ tasks Examples.store !! k = Some t ∧ Task.userId t = "alice")
  ∧ (∃ l, TasksEndpoint.listByStatus Examples.ctx todo Examples.store
          = (inr l, Examples.store)
          ∧ NoDup l.*1
          ∧ ∀ k t, (k, t) ∈ l
                   ↔ tasks Examples.store !! k = Some t ∧ Task.userId t = "alice"
                     ∧ Task.status t = todo).
Proof.
  destruct (list_queries_scope Examples.ctx Examples.alice Examples.store eq_refl)
    as (Hlist & Hstatus & _).
  exact (conj Hlist (Hstatus todo)).
Defined.

(** ** Task handlers: what a successful mutation writes *)

(** X6. A valid [create] of an authenticated caller that the rate limiter
    lets through adds one task and one audit record and nothing else: the
    task, under a new id, belongs to the caller, has the trimmed title,
    the status "todo", no completion time, the given priority or "medium",
    the other arguments as given and both timestamps at the current time;
    the audit record, under a new id, is a "created" record of the caller
    for that task; the write log grows by these two insertions, in this
    order; the stored tasks, categories and comments are as before. *)
Theorem create_adds_task_and_record ctx u args st :
  getAuthUser ctx = Some u →
  ok (rateLimiter_limit ctx "createTask" (_id u)) = true →
  validation.isValidTaskTitle (validation.sanitizeInput (TasksEndpoint.c_title args)) = true →
  present_and_not (truthy_string (TasksEndpoint.c_description args))
    validation.isValidTaskDescription = false →
  present_and_not (TasksEndpoint.c_tags args) validation.isValidTags = false →
  present_and_not (truthy_number (TasksEndpoint.c_dueDate args))
    (validation.isValidDueDate (now ctx)) = false →
  ∃ taskId activityId task st',
    TasksEndpoint.create ctx args st = (inr taskId, st')
    ∧ tasks st !! taskId = None
    ∧ tasks st' = <[taskId := task]> (tasks st)
    ∧ Task.userId task = _id u
    ∧ Task.title task = validation.sanitizeInput (TasksEndpoint.c_title args)
    ∧ Task.status task = todo
    ∧ Task.completedAt task = None
    ∧ Task.priority task = default medium (TasksEndpoint.c_priority args)
    ∧ Task.description task = TasksEndpoint.c_description args
    ∧ Task.categoryId task = TasksEndpoint.c_categoryId args
    ∧ Task.dueDate task = TasksEndpoint.c_dueDate args
    ∧ Task.tags task = TasksEndpoint.c_tags args
    ∧ Task.createdAt task = now ctx
    ∧ Task.updatedAt task = now ctx
    ∧ taskActivity st !! activityId = None
    ∧ taskActivity st'
      = <[activityId := {| Activity.taskId := taskId; Activity.userId := _id u;
                           Activity.action := created; Activity.changes := None;
                           Activity.metadata := None;
                           Activity.createdAt := now ctx |}]> (taskActivity st)
    ∧ categories st' = categories st
    ∧ taskComments st' = taskComments st
    ∧ writes st'
      = writes st ++ [written Task.t Inserted taskId; written Activity.t Inserted activityId].
Proof.
  intros Hu Hrl Htitle Hdesc Htags Hdue. unfold TasksEndpoint.create.
  rewrite bind_run, (authenticate_ok _ _ _ Hu).
  rewrite bind_run, (rate_limit_ok _ _ _ _ Hrl).
  rewrite bind_run, Htitle, throw_if_false.
  rewrite bind_run, Hdesc, throw_if_false.
  rewrite bind_run, Htags, throw_if_false.
  rewrite bind_run, Hdue, throw_if_false.
  rewrite bind_run, getTasksByUser_run.
  rewrite bind_run. unfold Tasks.createTask, db.insert at 1.
  cbn [get_table tasks_table].
  rewrite bind_run. cbn.
  eexists (fresh (dom (tasks st))), (fresh (dom (taskActivity st))), _, _.
  split; [reflexivity|]. cbn.
  split; [apply not_elem_of_dom, is_fresh|]. split; [reflexivity|]. cbn.
  do 11 (split; [reflexivity|]).
  split; [apply not_elem_of_dom, is_fresh|].
  do 3 (split; [reflexivity|]). by rewrite <- app_assoc.
Qed.

Lemma create_adds_task_and_record_witness :
  ∃ taskId activityId task st',
    TasksEndpoint.create Examples.ctx (Examples.create_args " plan " None) Examples.store
    = (inr taskId, st')
    ∧ tasks Examples.store !! taskId = None
    ∧ tasks st' = <[taskId := task]> (tasks Examples.store)
    ∧ Task.userId task = "alice"
    ∧ Task.title task = validation.sanitizeInput " plan "
    ∧ Task.status task = todo
    ∧ Task.completedAt task = None
    ∧ Task.priority task = medium
    ∧ Task.description task = None
    ∧ Task.categoryId task = None
    ∧ Task.dueDate task = None
    ∧ Task.tags task = None
    ∧ Task.createdAt task = now Examples.ctx
    ∧ Task.updatedAt task = now Examples.ctx
    ∧ taskActivity Examples.store !! activityId = None
    ∧ taskActivity st'
      = <[activityId := {| Activity.taskId := taskId; Activity.userId := "alice";
                           Activity.action := created; Activity.changes := None;
                           Activity.metadata := None;
                           Activity.createdAt := now Examples.ctx |}]>
          (taskActivity Examples.store)
    ∧ categories st' = categories Examples.store
    ∧ taskComments st' = taskComments Examples.store
    ∧ writes st'
      = writes Examples.store
        ++ [written Task.t Inserted taskId; written Activity.t Inserted activityId].
Proof.
  apply (create_adds_task_and_record Examples.ctx Examples.alice
           (Examples.create_args " plan " None) Examples.store);
    reflexivity.
Defined.

(** The store after the patch of [update], before the audit record. *)
Definition update_patched (ctx : Ctx) (args : TasksEndpoint.UpdateArgs) (task : Task.t)
    (st : DB) : DB :=
  db.write (A := Task.t) Patched (TasksEndpoint.u_id args)
    (<[TasksEndpoint.u_id args := updated_task ctx args task]> (tasks st)) st.

Lemma update_run ctx u args task st :
  getAuthUser ctx = Some u →
  ok (rateLimiter_limit ctx "updateTask" (_id u)) = true →
  tasks st !! TasksEndpoint.u_id args = Some task →
  Task.userId task = _id u →
  present_and_not (TasksEndpoint.u_title args)
    (λ title, validation.isValidTaskTitle (validation.sanitizeInput title)) = false →
  present_and_not (truthy_string (TasksEndpoint.u_description args))
    validation.isValidTaskDescription = false →
  present_and_not (TasksEndpoint.u_tags args) validation.isValidTags = false →
  present_and_not (truthy_number (TasksEndpoint.u_dueDate args))
    (validation.isValidDueDate (now ctx)) = false →
  TasksEndpoint.update ctx args st
  = match TasksEndpoint.changed (TasksEndpoint.u_status args) (Task.status task) with
    | Some (oldStatus, newStatus) =>
        (TaskActivity.logStatusChanged ctx (TasksEndpoint.u_id args) (_id u)
           oldStatus newStatus;;
         mret (TasksEndpoint.u_id args)) (update_patched ctx args task st)
    | None =>
        match TasksEndpoint.u_title args,
              TasksEndpoint.changed (TasksEndpoint.u_priority args) (Task.priority task) with
        | None, None => (inr (TasksEndpoint.u_id args), update_patched ctx args task st)
        | title, priority_change =>
            (TaskActivity.logTaskUpdated ctx (TasksEndpoint.u_id args) (_id u)
               (FieldChanges ((λ title, (Task.title task, title)) <$> title)
                  None priority_change);;
             mret (TasksEndpoint.u_id args)) (update_patched ctx args task st)
        end
    end.
Proof.
  intros Hu Hrl Ht Ho Htitle Hdesc Htags Hdue. unfold TasksEndpoint.update.
  rewrite bind_run, (authenticate_ok _ _ _ Hu).
  rewrite bind_run, (rate_limit_ok _ _ _ _ Hrl).
  rewrite bind_run, getTaskById_run, Ht.
  rewrite bind_run, bool_decide_true, throw_if_false by done.
  rewrite bind_run, Htitle, throw_if_false.
  rewrite bind_run, Hdesc, throw_if_false.
  rewrite bind_run, Htags, throw_if_false.
  rewrite bind_run, Hdue, throw_if_false.
  rewrite bind_run. unfold Tasks.updateTask, db.patch at 1.
  cbn [get_table tasks_table]. rewrite Ht.
  destruct (TasksEndpoint.changed (TasksEndpoint.u_status args) (Task.status task))
    as [[oldStatus newStatus]|]; [reflexivity|].
  by destruct (TasksEndpoint.u_title args),
       (TasksEndpoint.changed (TasksEndpoint.u_priority args) (Task.priority task)).
Qed.

(** X7. What a successful [update] leaves in the audit log.  When a
    status is given that differs from the stored one, one "status_changed"
    record with the old and the new status, and nothing about a title or a
    priority that changed in the same call.  Otherwise, when a title is
    given or a priority is given that differs from the stored one, one
    "updated" record with the old and new title and priority.  Otherwise
    no record at all, although the task was patched. *)
Theorem update_audit_record ctx u args task st :
  getAuthUser ctx = Some u →
  ok (rateLimiter_limit ctx "updateTask" (_id u)) = true →
  tasks st !! TasksEndpoint.u_id args = Some task →
  Task.userId task = _id u →
  present_and_not (TasksEndpoint.u_title args)
    (λ title, validation.isValidTaskTitle (validation.sanitizeInput title)) = false →
  present_and_not (truthy_string (TasksEndpoint.u_description args))
    validation.isValidTaskDescription = false →
  present_and_not (TasksEndpoint.u_tags args) validation.isValidTags = false →
  present_and_not (truthy_number (TasksEndpoint.u_dueDate args))
    (validation.isValidDueDate (now ctx)) = false →
  ∃ st',
    TasksEndpoint.update ctx args st = (inr (TasksEndpoint.u_id args), st')
    ∧ (∀ newStatus,
         TasksEndpoint.u_status args = Some newStatus →
         newStatus ≠ Task.status task →
         ∃ activityId,
           taskActivity st !! activityId = None
           ∧ taskActivity st'
             = <[activityId :=
                   {| Activity.taskId := TasksEndpoint.u_id args;
                      Activity.userId := _id u;
                      Activity.action := status_changed;
                      Activity.changes := Some (StatusChange (Task.status task) newStatus);
                      Activity.metadata := None;
                      Activity.createdAt := now ctx |}]> (taskActivity st))
    ∧ (TasksEndpoint.u_status args = None
       ∨ TasksEndpoint.u_status args = Some (Task.status task) →
       (is_Some (TasksEndpoint.u_title args)
        ∨ ∃ priority, TasksEndpoint.u_priority args = Some priority
                      ∧ priority ≠ Task.priority task) →
       ∃ activityId,
         taskActivity st !! activityId = None
         ∧ taskActivity st'
           = <[activityId :=
                 {| Activity.taskId := TasksEndpoint.u_id args;
                    Activity.userId := _id u;
                    Activity.action := updated;
                    Activity.changes :=
                      Some (FieldChanges
                              ((λ title, (Task.title task, title))
                                 <$> TasksEndpoint.u_title args)
                              None
                              (TasksEndpoint.changed (TasksEndpoint.u_priority args)
                                 (Task.priority task)));
                    Activity.metadata := None;
                    Activity.createdAt := now ctx |}]> (taskActivity st))
    ∧ (TasksEndpoint.u_status args = None
       ∨ TasksEndpoint.u_status args = Some (Task.status task) →
       TasksEndpoint.u_title args = None →
       TasksEndpoint.u_priority args = None
       ∨ TasksEndpoint.u_priority args = Some (Task.priority task) →
       taskActivity st' = taskActivity st
       ∧ writes st' = writes st ++ [written Task.t Patched (TasksEndpoint.u_id args)]).
Proof.
  intros Hu Hrl Ht Ho Htitle Hdesc Htags Hdue.
  rewrite (update_run ctx u args task st) by done.
  assert (Hfresh : taskActivity st !! fresh (dom (taskActivity st)) = None)
    by apply not_elem_of_dom, is_fresh.
  unfold TasksEndpoint.changed.
  destruct (TasksEndpoint.u_status args) as [newStatus|] eqn:Hstatus.
  - case_bool_decide as Hsame.
    + destruct (TasksEndpoint.u_title args) as [title|] eqn:Htitle';
        [|destruct (TasksEndpoint.u_priority args) as [priority|] eqn:Hpriority;
          [case_bool_decide as Hp|]].
      * eexists. split; [reflexivity|]. split; [intros ? [= <-] ?; done|].
        split; [|by intros _ [=]]. intros _ _. eexists. split; [exact Hfresh|reflexivity].
      * eexists. split; [reflexivity|]. split; [intros ? [= <-] ?; done|].
        split; [|done]. intros _ [[? [=]]|(p & [= <-] & Hne)]. done.
      * eexists. split; [reflexivity|]. split; [intros ? [= <-] ?; done|].
        split; [|by intros _ _ [[=]|[= ->]]].
        intros _ _. eexists. split; [exact Hfresh|reflexivity].
      * eexists. split; [reflexivity|]. split; [intros ? [= <-] ?; done|].
        split; [|done]. intros _ [[? [=]]|(p & [=] & _)].
    + eexists. split; [reflexivity|]. split.
      * intros ? [= <-] _. eexists. split; [exact Hfresh|reflexivity].
      * split; intros [[=]|[= ->]]; done.
  - destruct (TasksEndpoint.u_title args) as [title|] eqn:Htitle';
      [|destruct (TasksEndpoint.u_priority args) as [priority|] eqn:Hpriority;
        [case_bool_decide as Hp|]].
    + eexists. split; [reflexivity|]. split; [by intros ? [=]|].
      split; [|by intros _ [=]]. intros _ _. eexists. split; [exact Hfresh|reflexivity].
    + eexists. split; [reflexivity|]. split; [by intros ? [=]|].
      split; [|done]. intros _ [[? [=]]|(p & [= <-] & Hne)]. done.
    + eexists. split; [reflexivity|]. split; [by intros ? [=]|].
      split; [|by intros _ _ [[=]|[= ->]]].
      intros _ _. eexists. split; [exact Hfresh|reflexivity].
    + eexists. split; [reflexivity|]. split; [by intros ? [=]|].
      split; [|done]. intros _ [[? [=]]|(p & [=] & _)].
Qed.

Lemma update_audit_record_witness :
  ∃ st' activityId,
    TasksEndpoint.update Examples.ctx (Examples.update_args 0%N (Some completed) None)
      Examples.store
    = (inr 0%N, st')
    ∧ taskActivity Examples.store !! activityId = None
    ∧ taskActivity st'
      = <[activityId :=
            {| Activity.taskId := 0%N;
               Activity.userId := "alice";
               Activity.action := status_changed;
               Activity.changes := Some (StatusChange todo completed);
               Activity.metadata := None;
               Activity.createdAt := now Examples.ctx |}]> (taskActivity Examples.store).
Proof.
  destruct (update_audit_record Examples.ctx Examples.alice
              (Examples.update_args 0%N (Some completed) None)
              (Examples.task "alice" "write" (Some 0%N) todo None 0) Examples.store
              eq_refl eq_refl eq_refl eq_refl eq_refl eq_refl eq_refl eq_refl)
    as (st' & Hrun & Hstatus & _).
  destruct (Hstatus completed eq_refl) as (activityId & Hfresh & Hactivity); [done|].
  by exists st', activityId.
Defined.

(** More concrete inputs. *)
Module MoreExamples.

(** A title of 202 characters: 200 letters between two spaces. *)
Definition padded_title : string :=
  " " +:+ String.string_of_list_ascii (replicate 200 "a"%char) +:+ " ".

Definition retitle_args (id : Id) (title : string) : TasksEndpoint.UpdateArgs :=
  {| TasksEndpoint.u_id := id; TasksEndpoint.u_title := Some title;
     TasksEndpoint.u_description := None; TasksEndpoint.u_categoryId := None;
     TasksEndpoint.u_priority := None; TasksEndpoint.u_status := None;
     TasksEndpoint.u_dueDate := None; TasksEndpoint.u_tags := None |}.

(** Task 0 of alice is archived. *)
Definition archived_store : DB :=
  {| tasks := list_to_map
       [ (0%N, Examples.task "alice" "write" None archived None 0) ];
     categories := ∅; taskComments := ∅; taskActivity := ∅; writes := [] |}.

End MoreExamples.

(** X8. [update] checks the trimmed title and stores the title as it was
    given: when the request carries a title whose trimmed form is valid,
    and the rest of the request is valid, the task ends with exactly the
    given title, white space at its ends included. *)
Theorem update_stores_title_as_given ctx u args task title st :
  getAuthUser ctx = Some u →
  ok (rateLimiter_limit ctx "updateTask" (_id u)) = true →
  tasks st !! TasksEndpoint.u_id args = Some task →
  Task.userId task = _id u →
  TasksEndpoint.u_title args = Some title →
  validation.isValidTaskTitle (validation.sanitizeInput title) = true →
  present_and_not (truthy_string (TasksEndpoint.u_description args))
    validation.isValidTaskDescription = false →
  present_and_not (TasksEndpoint.u_tags args) validation.isValidTags = false →
  present_and_not (truthy_number (TasksEndpoint.u_dueDate args))
    (validation.isValidDueDate (now ctx)) = false →
  ∃ st' task',
    TasksEndpoint.update ctx args st = (inr (TasksEndpoint.u_id args), st')
    ∧ tasks st' !! TasksEndpoint.u_id args = Some task'
    ∧ Task.title task' = title.
Proof.
  intros Hu Hrl Ht Ho Htitle Hvalid Hdesc Htags Hdue.
  destruct (update_ok ctx u args task st) as (st' & Hrun & Htasks); try done.
  { rewrite Htitle. cbn. by rewrite Hvalid. }
  exists st', (updated_task ctx args task). split; [done|].
  split; [by rewrite Htasks, lookup_insert_eq|].
  unfold updated_task. cbn. by rewrite Htitle.
Qed.

Lemma update_stores_title_as_given_witness :
  (∃ st' task',
     TasksEndpoint.update Examples.ctx
       (MoreExamples.retitle_args 0%N MoreExamples.padded_title) Examples.store
     = (inr 0%N, st')
     ∧ tasks st' !! 0%N = Some task'
     ∧ Task.title task' = MoreExamples.padded_title)
  ∧ String.length MoreExamples.padded_title = 202%nat
  ∧ validation.isValidTaskTitle MoreExamples.padded_title = false.
Proof.
  split; [|split; vm_compute; reflexivity].
  apply (update_stores_title_as_given Examples.ctx Examples.alice
           (MoreExamples.retitle_args 0%N MoreExamples.padded_title)
           (Examples.task "alice" "write" (Some 0%N) todo None 0)
           MoreExamples.padded_title Examples.store);
    vm_compute; reflexivity.
Defined.

(** ** Task handlers: the audit records of complete, reopen and archive *)

(** X9. For a task of the caller, [complete], [reopen] and [archive] each
    make two writes, the patch of the task and then the insertion of one
    audit record, and leave every other task alone.  The record of
    [complete] is a "completed" record without changes; the record of
    [archive] is a "status_changed" record from the stored status to
    "archived"; the record of [reopen] is a "status_changed" record from
    "completed" to "todo" whatever the stored status was. *)
Theorem status_handlers_audit ctx u id task st :
  getAuthUser ctx = Some u →
  tasks st !! id = Some task →
  Task.userId task = _id u →
  ∃ activityId,
    taskActivity st !! activityId = None
    ∧ (∃ st',
         TasksEndpoint.complete ctx id st = (inr id, st')
         ∧ (∀ k, k ≠ id → tasks st' !! k = tasks st !! k)
         ∧ taskActivity st'
           = <[activityId := {| Activity.taskId := id; Activity.userId := _id u;
                                Activity.action := action_completed;
                                Activity.changes := None; Activity.metadata := None;
                                Activity.createdAt := now ctx |}]> (taskActivity st)
         ∧ writes st'
           = writes st ++ [written Task.t Patched id; written Activity.t Inserted activityId])
    ∧ (∃ st',
         TasksEndpoint.reopen ctx id st = (inr id, st')
         ∧ (∀ k, k ≠ id → tasks st' !! k = tasks st !! k)
         ∧ taskActivity st'
           = <[activityId := {| Activity.taskId := id; Activity.userId := _id u;
                                Activity.action := status_changed;
                                Activity.changes := Some (StatusChange completed todo);
                                Activity.metadata := None;
                                Activity.createdAt := now ctx |}]> (taskActivity st)
         ∧ writes st'
           = writes st ++ [written Task.t Patched id; written Activity.t Inserted activityId])
    ∧ (∃ st',
         TasksEndpoint.archive ctx id st = (inr id, st')
         ∧ (∀ k, k ≠ id → tasks st' !! k = tasks st !! k)
         ∧ taskActivity st'
           = <[activityId := {| Activity.taskId := id; Activity.userId := _id u;
                                Activity.action := status_changed;
                                Activity.changes :=
                                  Some (StatusChange (Task.status task) archived);
                                Activity.metadata := None;
                                Activity.createdAt := now ctx |}]> (taskActivity st)
         ∧ writes st'
           = writes st ++ [written Task.t Patched id; written Activity.t Inserted activityId]).
Proof.
  intros Hu Ht Ho. exists (fresh (dom (taskActivity st))).
  split; [apply not_elem_of_dom, is_fresh|].
  unfold TasksEndpoint.complete, TasksEndpoint.reopen, TasksEndpoint.archive.
  rewrite !bind_run, (owned_task_ok _ _ _ _ _ Hu Ht Ho).
  unfold Tasks.completeTask, Tasks.reopenTask, Tasks.archiveTask, db.patch.
  cbn [get_table tasks_table]. rewrite !bind_run, Ht. cbn.
  split; [|split].
  all: eexists; split; [reflexivity|]; cbn;
    split; [by intros k Hk; rewrite lookup_insert_ne|];
    split; [reflexivity|]; by rewrite <- app_assoc.
Qed.

Lemma status_handlers_audit_witness :
  ∃ activityId st',
    TasksEndpoint.reopen Examples.ctx 0%N MoreExamples.archived_store = (inr 0%N, st')
    ∧ taskActivity st'
      = <[activityId := {| Activity.taskId := 0%N; Activity.userId := "alice";
                           Activity.action := status_changed;
                           Activity.changes := Some (StatusChange completed todo);
                           Activity.metadata := None;
                           Activity.createdAt := now Examples.ctx |}]>
          (taskActivity MoreExamples.archived_store).
Proof.
  destruct (status_handlers_audit Examples.ctx Examples.alice 0%N
              (Examples.task "alice" "write" None archived None 0)
              MoreExamples.archived_store eq_refl eq_refl eq_refl)
    as (activityId & _ & _ & (st' & Hrun & _ & Hactivity & _) & _).
  by exists activityId, st'.
Defined.

(** ** Searching, at the endpoint *)

(** X10. For an authenticated caller, [search] with a query that is empty
    once trimmed returns no task, whatever is stored; with any other
    query it returns, each once, exactly the caller's tasks whose title
    the search index matches against the query as given, restricted to
    the status when one is given.  It reads only. *)
Theorem search_blank_or_scoped ctx u query status st :
  getAuthUser ctx = Some u →
  (validation.sanitizeInput query = "" →
   TasksEndpoint.search ctx query status st = (inr [], st))
  ∧ (validation.sanitizeInput query ≠ "" →
     ∃ l, TasksEndpoint.search ctx query status st = (inr l, st)
          ∧ NoDup l.*1
          ∧ ∀ k t, (k, t) ∈ l
                   ↔ tasks st !! k = Some t
                     ∧ text_search ctx (Task.title t) query = true
                     ∧ Task.userId t = _id u
                     ∧ (∀ s, status = Some s → Task.status t = s)).
Proof.
  intros Hu. unfold TasksEndpoint.search.
  rewrite bind_run, (authenticate_ok _ _ _ Hu). split.
  - intros ->. cbn. by rewrite orb_true_r.
  - intros Hne.
    assert (Hquery : bool_decide (query = "") = false).
    { apply bool_decide_false. intros ->. by apply Hne. }
    assert (Hlen : (String.length (validation.sanitizeInput query) =? 0)%nat = false).
    { apply Nat.eqb_neq. by destruct (validation.sanitizeInput query). }
    rewrite Hquery, Hlen. cbn [orb].
    destruct (searchTasks_results ctx (_id u) query status st) as (l & Hrun & Hl).
    pose proof Hrun as Hlist. unfold Tasks.searchTasks, db.collect in Hlist.
    injection Hlist as Hlist.
    rewrite Hrun. exists l. split; [done|]. split; [|done].
    rewrite <- Hlist. apply NoDup_collect.
Qed.

Lemma search_blank_or_scoped_witness :
  TasksEndpoint.search Examples.ctx "   " None Examples.store = (inr [], Examples.store)
  ∧ ∃ l, TasksEndpoint.search Examples.ctx "wr" (Some todo) Examples.store
         = (inr l, Examples.store)
         ∧ NoDup l.*1
         ∧ ∀ k t, (k, t) ∈ l
                  ↔ tasks Examples.store !! k = Some t
                    ∧ text_search Examples.ctx (Task.title t) "wr" = true
                    ∧ Task.userId t = "alice"
                    ∧ (∀ s, Some todo = Some s → Task.status t = s).
Proof.
  split.
  - apply (proj1 (search_blank_or_scoped Examples.ctx Examples.alice "   " None
                    Examples.store eq_refl)).
    reflexivity.
  - apply (proj2 (search_blank_or_scoped Examples.ctx Examples.alice "wr" (Some todo)
                    Examples.store eq_refl)).
    discriminate.
Defined.

(** ** The counts of the dashboard *)

Lemma count_status_partition (l : list (N * Task.t)) :
  (DashboardEndpoint.count_status todo l + DashboardEndpoint.count_status in_progress l
   + DashboardEndpoint.count_status completed l
   + DashboardEndpoint.count_status archived l = length l)%nat.
Proof.
  unfold DashboardEndpoint.count_status.
  induction l as [|[k t] l IH]; [done|]. cbn.
  destruct (Task.status t); repeat case_bool_decide; try done; cbn; lia.
Qed.

Lemma count_priority_partition (l : list (N * Task.t)) :
  (DashboardEndpoint.count_priority low l + DashboardEndpoint.count_priority medium l
   + DashboardEndpoint.count_priority high l
   + DashboardEndpoint.count_priority urgent l = length l)%nat.
Proof.
  unfold DashboardEndpoint.count_priority.
  induction l as [|[k t] l IH]; [done|]. cbn.
  destruct (Task.priority t); repeat case_bool_decide; try done; cbn; lia.
Qed.

Lemma count_active (l : list (N * Task.t)) :
  length (List.filter (λ t, negb (bool_decide (Task.status t.2 = archived))) l)
  = (DashboardEndpoint.count_status todo l + DashboardEndpoint.count_status in_progress l
     + DashboardEndpoint.count_status completed l)%nat.
Proof.
  unfold DashboardEndpoint.count_status.
  induction l as [|[k t] l IH]; [done|]. cbn.
  destruct (Task.status t); repeat case_bool_decide; try done; cbn; lia.
Qed.

(** Tasks that are neither completed nor archived are "todo" or
    "in_progress". *)
Lemma count_open_bound (f : N * Task.t → bool) (l : list (N * Task.t)) :
  (∀ t, f t = true → Task.status t.2 ≠ completed ∧ Task.status t.2 ≠ archived) →
  (length (List.filter f l)
   ≤ DashboardEndpoint.count_status todo l + DashboardEndpoint.count_status in_progress l)%nat.
Proof.
  intros Hf. unfold DashboardEndpoint.count_status.
  induction l as [|[k t] l IH]; [done|]. cbn.
  destruct (f (k, t)) eqn:Hft.
  - destruct (Hf _ Hft) as [Hc Ha]. cbn in Hc, Ha.
    destruct (Task.status t); repeat case_bool_decide; try done; cbn; lia.
  - destruct (Task.status t); repeat case_bool_decide; try done; cbn; lia.
Qed.

Lemma count_status_reverse s (l : list (N * Task.t)) :
  DashboardEndpoint.count_status s (reverse l) = DashboardEndpoint.count_status s l.
Proof.
  unfold DashboardEndpoint.count_status.
  apply length_filter_Permutation, reverse_Permutation.
Qed.

(** X11. For an authenticated caller, [tasksByStatus] and
    [tasksByPriority] read only, and each splits the caller's tasks
    without rest: the four status counts add up to the number of tasks
    that [list] returns, and so do the four priority counts. *)
Theorem dashboard_counts_partition ctx u st :
  getAuthUser ctx = Some u →
  ∃ l byStatus byPriority,
    TasksEndpoint.list ctx st = (inr l, st)
    ∧ DashboardEndpoint.tasksByStatus ctx st = (inr byStatus, st)
    ∧ DashboardEndpoint.tasksByPriority ctx st = (inr byPriority, st)
    ∧ (DashboardEndpoint.sc_todo byStatus + DashboardEndpoint.sc_in_progress byStatus
       + DashboardEndpoint.sc_completed byStatus + DashboardEndpoint.sc_archived byStatus
       = length l)%nat
    ∧ (DashboardEndpoint.pc_low byPriority + DashboardEndpoint.pc_medium byPriority
       + DashboardEndpoint.pc_high byPriority + DashboardEndpoint.pc_urgent byPriority
       = length l)%nat.
Proof.
  intros Hu.
  unfold TasksEndpoint.list, DashboardEndpoint.tasksByStatus,
    DashboardEndpoint.tasksByPriority.
  rewrite !bind_run, (authenticate_ok _ _ _ Hu).
  rewrite !bind_run, getTasksByUser_run. cbn [mret M_ret].
  eexists _, _, _. do 3 (split; [reflexivity|]). cbn.
  split; [apply count_status_partition|apply count_priority_partition].
Qed.

Lemma dashboard_counts_partition_witness :
  ∃ l byStatus byPriority,
    TasksEndpoint.list Examples.ctx Examples.store = (inr l, Examples.store)
    ∧ DashboardEndpoint.tasksByStatus Examples.ctx Examples.store
      = (inr byStatus, Examples.store)
    ∧ DashboardEndpoint.tasksByPriority Examples.ctx Examples.store
      = (inr byPriority, Examples.store)
    ∧ (DashboardEndpoint.sc_todo byStatus + DashboardEndpoint.sc_in_progress byStatus
       + DashboardEndpoint.sc_completed byStatus + DashboardEndpoint.sc_archived byStatus
       = length l)%nat
    ∧ (DashboardEndpoint.pc_low byPriority + DashboardEndpoint.pc_medium byPriority
       + DashboardEndpoint.pc_high byPriority + DashboardEndpoint.pc_urgent byPriority
       = length l)%nat.
Proof.
  exact (dashboard_counts_partition Examples.ctx Examples.alice Examples.store eq_refl).
Defined.

(** X12. For an authenticated caller, [summary] reads only and its counts
    fit together: [totalTasks] is the number of the caller's tasks and
    [totalCategories] the number of the caller's categories; the todo,
    in-progress and completed counts together do not exceed [totalTasks];
    neither [highPriorityTasks] nor [overdueTasks] exceeds the todo and
    in-progress counts together; and when the caller has no task that is
    todo, in progress or completed (no task at all, or archived ones
    only), [completionRate] is 0. *)
Theorem summary_counts_consistent ctx u st :
  getAuthUser ctx = Some u →
  ∃ l s,
    TasksEndpoint.list ctx st = (inr l, st)
    ∧ DashboardEndpoint.summary ctx st = (inr s, st)
    ∧ DashboardEndpoint.totalTasks s = length l
    ∧ DashboardEndpoint.totalCategories s = category_count st (_id u)
    ∧ (DashboardEndpoint.todoTasks s + DashboardEndpoint.inProgressTasks s
       + DashboardEndpoint.completedTasks s ≤ DashboardEndpoint.totalTasks s)%nat
    ∧ (DashboardEndpoint.highPriorityTasks s
       ≤ DashboardEndpoint.todoTasks s + DashboardEndpoint.inProgressTasks s)%nat
    ∧ (DashboardEndpoint.overdueTasks s
       ≤ DashboardEndpoint.todoTasks s + DashboardEndpoint.inProgressTasks s)%nat
    ∧ ((DashboardEndpoint.todoTasks s + DashboardEndpoint.inProgressTasks s
        + DashboardEndpoint.completedTasks s = 0)%nat →
       DashboardEndpoint.completionRate s = 0).
Proof.
  intros Hu. unfold TasksEndpoint.list, DashboardEndpoint.summary.
  rewrite !bind_run, (authenticate_ok _ _ _ Hu).
  rewrite bind_run, getTasksByUser_run.
  set (docs := List.filter _ (map_to_list (tasks st))).
  rewrite bind_run. unfold Tasks.getOverdueTasks.
  rewrite bind_run. unfold db.collect at 1. cbn [get_table tasks_table]. fold docs.
  cbn [mret M_ret].
  rewrite bind_run.
  destruct (getCategoriesByUser_length ctx (_id u) st) as (cats & -> & Hcats).
  eexists _, _. do 2 (split; [reflexivity|]). cbn.
  split; [reflexivity|]. split; [done|].
  pose proof (count_status_partition (reverse docs)) as Hsum.
  split; [lia|]. split; [|split].
  - apply count_open_bound. intros t.
    rewrite !andb_true_iff, !negb_true_iff, !bool_decide_eq_false. tauto.
  - rewrite !count_status_reverse. apply count_open_bound. intros t.
    destruct (truthy_number (Task.dueDate t.2)); [|done].
    rewrite !andb_true_iff, !negb_true_iff, !bool_decide_eq_false. tauto.
  - intros Hzero. rewrite count_active.
    unfold DashboardEndpoint.completion_rate.
    destruct (Nat.ltb_spec 0 (DashboardEndpoint.count_status todo (reverse docs)
                              + DashboardEndpoint.count_status in_progress (reverse docs)
                              + DashboardEndpoint.count_status completed (reverse docs)));
      [lia|done].
Qed.

Lemma summary_counts_consistent_witness :
  ∃ l s,
    TasksEndpoint.list Examples.ctx Examples.store = (inr l, Examples.store)
    ∧ DashboardEndpoint.summary Examples.ctx Examples.store = (inr s, Examples.store)
    ∧ DashboardEndpoint.totalTasks s = length l
    ∧ DashboardEndpoint.totalCategories s = category_count Examples.store "alice"
    ∧ (DashboardEndpoint.todoTasks s + DashboardEndpoint.inProgressTasks s
       + DashboardEndpoint.completedTasks s ≤ DashboardEndpoint.totalTasks s)%nat
    ∧ (DashboardEndpoint.highPriorityTasks s
       ≤ DashboardEndpoint.todoTasks s + DashboardEndpoint.inProgressTasks s)%nat
    ∧ (DashboardEndpoint.overdueTasks s
       ≤ DashboardEndpoint.todoTasks s + DashboardEndpoint.inProgressTasks s)%nat
    ∧ ((DashboardEndpoint.todoTasks s + DashboardEndpoint.inProgressTasks s
        + DashboardEndpoint.completedTasks s = 0)%nat →
       DashboardEndpoint.completionRate s = 0).
Proof.
  exact (summary_counts_consistent Examples.ctx Examples.alice Examples.store eq_refl).
Defined.

(** ** Category handlers *)

Lemma getCategoryById_run ctx id st :
  Categories.getCategoryById ctx id st = (inr (categories st !! id), st).
Proof. reflexivity. Qed.




(** The category that [update] leaves in place of [category]. *)
Definition updated_category (ctx : Ctx) (args : CategoriesEndpoint.UpdateArgs)
    (category : Category.t) : Category.t :=
  {| Category.userId := Category.userId category;
     Category.name := default (Category.name category) (CategoriesEndpoint.u_name args);
     Category.color := default (Category.color category) (CategoriesEndpoint.u_color args);
     Category.icon :=
       match CategoriesEndpoint.u_icon args with
       | Some icon => Some icon
       | None => Category.icon category
       end;
     Category.order := Category.order category;
     Category.createdAt := Category.createdAt category;
     Category.updatedAt := now ctx |}.

Lemma update_category_run ctx u args category st :
  getAuthUser ctx = Some u →
  ok (rateLimiter_limit ctx "updateCategory" (_id u)) = true →
  categories st !! CategoriesEndpoint.u_id args = Some category →
  Category.userId category = _id u →
  present_and_not (CategoriesEndpoint.u_name args)
    (λ name, validation.isValidCategoryName (validation.sanitizeInput name)) = false →
  present_and_not (truthy_string (CategoriesEndpoint.u_color args))
    validation.isValidHexColor = false →
  present_and_not (truthy_string (CategoriesEndpoint.u_icon args))
    validation.isValidIconName = false →
  ∃ st',
    CategoriesEndpoint.update ctx args st = (inr (CategoriesEndpoint.u_id args), st')
    ∧ categories st'
      = <[CategoriesEndpoint.u_id args := updated_category ctx args category]> (categories st)
    ∧ tasks st' = tasks st
    ∧ taskComments st' = taskComments st
    ∧ taskActivity st' = taskActivity st
    ∧ writes st' = writes st ++ [written Category.t Patched (CategoriesEndpoint.u_id args)].
Proof.
  intros Hu Hrl Hc Ho Hname Hcolor Hicon. unfold CategoriesEndpoint.update.
  rewrite bind_run, (authenticate_ok _ _ _ Hu).
  rewrite bind_run, (rate_limit_ok _ _ _ _ Hrl).
  rewrite bind_run, getCategoryById_run, Hc.
  rewrite bind_run, bool_decide_true, throw_if_false by done.
  rewrite bind_run, Hname, throw_if_false.
  rewrite bind_run, Hcolor, throw_if_false.
  rewrite bind_run, Hicon, throw_if_false.
  rewrite bind_run. unfold Categories.updateCategory, db.patch.
  cbn [get_table categories_table]. rewrite Hc. cbn [mret M_ret].
  eexists. split; [reflexivity|]. cbn. split; [|done].
  f_equal. unfold updated_category, CategoryPatch.apply. cbn.
  by destruct (CategoriesEndpoint.u_name args), (CategoriesEndpoint.u_color args),
       (CategoriesEndpoint.u_icon args).
Qed.

(** X14. A valid [update] of a category of the caller (authenticated,
    past the rate limiter) makes one write, the patch of that category:
    the name, color and icon that the request carries replace the stored
    ones as they are given (the name is checked trimmed and stored
    untrimmed), [updatedAt] becomes the current time, and owner, order
    and [createdAt] stay; no audit record is written. *)
Theorem update_category_effect ctx u args category st :
  getAuthUser ctx = Some u →
  ok (rateLimiter_limit ctx "updateCategory" (_id u)) = true →
  categories st !! CategoriesEndpoint.u_id args = Some category →
  Category.userId category = _id u →
  present_and_not (CategoriesEndpoint.u_name args)
    (λ name, validation.isValidCategoryName (validation.sanitizeInput name)) = false →
  present_and_not (truthy_string (CategoriesEndpoint.u_color args))
    validation.isValidHexColor = false →
  present_and_not (truthy_string (CategoriesEndpoint.u_icon args))
    validation.isValidIconName = false →
  ∃ st' category',
    CategoriesEndpoint.update ctx args st = (inr (CategoriesEndpoint.u_id args), st')
    ∧ categories st' = <[CategoriesEndpoint.u_id args := category']> (categories st)
    ∧ Category.name category'
      = default (Category.name category) (CategoriesEndpoint.u_name args)
    ∧ Category.color category'
      = default (Category.color category) (CategoriesEndpoint.u_color args)
    ∧ Category.icon category'
      = match CategoriesEndpoint.u_icon args with
        | Some icon => Some icon
        | None => Category.icon category
        end
    ∧ Category.updatedAt category' = now ctx
    ∧ Category.userId category' = Category.userId category
    ∧ Category.order category' = Category.order category
    ∧ Category.createdAt category' = Category.createdAt category
    ∧ tasks st' = tasks st
    ∧ taskComments st' = taskComments st
    ∧ taskActivity st' = taskActivity st
    ∧ writes st' = writes st ++ [written Category.t Patched (CategoriesEndpoint.u_id args)].
Proof.
  intros Hu Hrl Hc Ho Hname Hcolor Hicon.
  destruct (update_category_run ctx u args category st)
    as (st' & Hrun & Hst' & Hrest); try done.
  exists st', (updated_category ctx args category).
  split; [done|]. split; [done|]. by do 7 (split; [reflexivity|]).
Qed.

Lemma update_category_effect_witness :
  ∃ st' category',
    CategoriesEndpoint.update Examples.ctx
      {| CategoriesEndpoint.u_id := 0%N; CategoriesEndpoint.u_name := Some " office ";
         CategoriesEndpoint.u_color := None; CategoriesEndpoint.u_icon := None |}
      Examples.store
    = (inr 0%N, st')
    ∧ categories st' = <[0%N := category']> (categories Examples.store)
    ∧ Category.name category' = " office "
    ∧ Category.updatedAt category' = now Examples.ctx
    ∧ writes st' = writes Examples.store ++ [written Category.t Patched 0%N].
Proof.
  destruct (update_category_effect Examples.ctx Examples.alice
              {| CategoriesEndpoint.u_id := 0%N; CategoriesEndpoint.u_name := Some " office ";
                 CategoriesEndpoint.u_color := None; CategoriesEndpoint.u_icon := None |}
              (Examples.category "alice" "work" 0) Examples.store
              eq_refl eq_refl eq_refl eq_refl eq_refl eq_refl eq_refl)
    as (st' & category' & Hrun & Hst' & Hname & _ & _ & Hupdated & _ & _ & _ & _ & _ & _
        & Hwrites).
  exists st', category'. by repeat (split; [assumption|]).
Defined.

(** X15. The empty color: [create] refuses it, [update] stores it.  For
    an authenticated caller past the rate limiters, a create request
    whose color is the empty string throws an invalid-input error (when
    the caller is below the category limit and the name is valid), while
    an update request that carries only the empty color, on a category of
    the caller, succeeds and leaves the category with the empty color. *)
Theorem empty_color_refused_by_create_kept_by_update ctx u st :
  getAuthUser ctx = Some u →
  (∀ args,
     ok (rateLimiter_limit ctx "createCategory" (_id u)) = true →
     (category_count st (_id u) < MAX_CATEGORIES_PER_USER)%nat →
     validation.isValidCategoryName
       (validation.sanitizeInput (CategoriesEndpoint.c_name args)) = true →
     CategoriesEndpoint.c_color args = "" →
     ∃ message, CategoriesEndpoint.create ctx args st = (inl (InvalidInput message), st))
  ∧ (∀ id category,
       ok (rateLimiter_limit ctx "updateCategory" (_id u)) = true →
       categories st !! id = Some category →
       Category.userId category = _id u →
       ∃ st' category',
         CategoriesEndpoint.update ctx
           {| CategoriesEndpoint.u_id := id; CategoriesEndpoint.u_name := None;
              CategoriesEndpoint.u_color := Some ""; CategoriesEndpoint.u_icon := None |} st
         = (inr id, st')
         ∧ categories st' !! id = Some category'
         ∧ Category.color category' = ""
         ∧ validation.isValidHexColor (Category.color category') = false).
Proof.
  intros Hu. split.
  - intros args Hrl Hcount Hname Hcolor. unfold CategoriesEndpoint.create.
    rewrite bind_run, (authenticate_ok _ _ _ Hu).
    rewrite bind_run, (rate_limit_ok _ _ _ _ Hrl).
    rewrite bind_run.
    destruct (getCategoriesByUser_length ctx (_id u) st) as (existing & -> & Hlen).
    rewrite bind_run, Hlen.
    destruct (Nat.leb_spec MAX_CATEGORIES_PER_USER (category_count st (_id u))); [lia|].
    rewrite throw_if_false.
    rewrite bind_run, Hname, throw_if_false.
    rewrite bind_run, Hcolor. cbn. eauto.
  - intros id category Hrl Hc Ho.
    destruct (update_category_run ctx u
                {| CategoriesEndpoint.u_id := id; CategoriesEndpoint.u_name := None;
                   CategoriesEndpoint.u_color := Some ""; CategoriesEndpoint.u_icon := None |}
                category st) as (st' & Hrun & Hst' & _); try done.
    eexists st', _. split; [exact Hrun|]. cbn in Hst'.
    split; [by rewrite Hst', lookup_insert_eq|]. done.
Qed.

Lemma empty_color_refused_by_create_kept_by_update_witness :
  (∃ message,
     CategoriesEndpoint.create Examples.ctx
       {| CategoriesEndpoint.c_name := "home"; CategoriesEndpoint.c_color := "";
          CategoriesEndpoint.c_icon := None |} Examples.store
     = (inl (InvalidInput message), Examples.store))
  ∧ (∃ st' category',
       CategoriesEndpoint.update Examples.ctx
         {| CategoriesEndpoint.u_id := 0%N; CategoriesEndpoint.u_name := None;
            CategoriesEndpoint.u_color := Some ""; CategoriesEndpoint.u_icon := None |}
         Examples.store
       = (inr 0%N, st')
       ∧ categories st' !! 0%N = Some category'
       ∧ Category.color category' = ""
       ∧ validation.isValidHexColor (Category.color category') = false).
Proof.
  destruct (empty_color_refused_by_create_kept_by_update Examples.ctx Examples.alice
              Examples.store eq_refl) as [Hcreate Hupdate].
  split.
  - apply Hcreate; [reflexivity|vm_compute; lia|reflexivity|reflexivity].
  - apply (Hupdate 0%N (Examples.category "alice" "work" 0)); reflexivity.
Defined.

(** Category [id] exists and belongs to [u]. *)
Definition owned_category (st : DB) (u : AuthUser) (id : Id) : Prop :=
  ∃ category, categories st !! id = Some category ∧ Category.userId category = _id u.

Lemma verify_category_updates ctx u updates st :
  (Forall (λ upd, owned_category st u upd.1) updates
   ∧ for_of updates (CategoriesEndpoint.verify_update ctx u) st = (inr tt, st))
  ∨ (Exists (λ upd, ¬ owned_category st u upd.1) updates
     ∧ ∃ e, (e = NotFound ∨ e = NotAuthorized)
            ∧ for_of updates (CategoriesEndpoint.verify_update ctx u) st = (inl e, st)).
Proof.
  induction updates as [|upd updates IH].
  - left. split; [constructor|done].
  - cbn [for_of]. rewrite bind_run. unfold CategoriesEndpoint.verify_update at 1 3.
    rewrite bind_run, getCategoryById_run.
    destruct (categories st !! upd.1) as [category|] eqn:Hc.
    + destruct (decide (Category.userId category = _id u)) as [Ho|Ho].
      * rewrite bool_decide_true, throw_if_false by done.
        destruct IH as [[Hall ->]|[Hex (e & He & ->)]].
        -- left. split; [|done]. constructor; [by exists category|done].
        -- right. split; [by right|]. eauto.
      * rewrite bool_decide_false, throw_if_true by done.
        right. split; [|eauto]. left. intros (category' & Hc' & Ho'). congruence.
    + right. split; [|eauto]. left. intros (category' & Hc' & _). congruence.
Qed.

Lemma updateCategoryOrders_run ctx updates st :
  Forall (λ upd : N * Z, is_Some (categories st !! upd.1)) updates →
  Categories.updateCategoryOrders ctx updates st
  = (inr tt,
     logs (map (λ upd : N * Z, written Category.t Patched upd.1) updates)
       (set_table
          (foldl (λ m (upd : N * Z),
                    alter (CategoryPatch.apply (Categories.order_patch upd.2 (now ctx)))
                      upd.1 m)
             (categories st) updates)
          st)).
Proof.
  intros Hall. unfold Categories.updateCategoryOrders.
  rewrite (for_of_ext _ _
             (λ upd, db.patch upd.1
                       (CategoryPatch.apply (Categories.order_patch upd.2 (now ctx)))))
    by by intros [].
  assert (Hin : ∀ upd, upd ∈ updates → is_Some (get_table (A := Category.t) st !! upd.1)).
  { intros upd Hin. by apply (proj1 (Forall_forall _ _) Hall). }
  exact (for_of_patch (A := Category.t) fst
           (λ upd : N * Z, CategoryPatch.apply (Categories.order_patch upd.2 (now ctx)))
           updates st Hin).
Qed.

Lemma lookup_reordered_categories now id : ∀ updates (m : gmap N Category.t),
  (requested_order updates id = None →
   foldl (λ m (upd : N * Z),
            alter (CategoryPatch.apply (Categories.order_patch upd.2 now)) upd.1 m)
     m updates !! id = m !! id)
  ∧ (∀ o, requested_order updates id = Some o → is_Some (m !! id) →
     ∃ category',
       foldl (λ m (upd : N * Z),
                alter (CategoryPatch.apply (Categories.order_patch upd.2 now)) upd.1 m)
         m updates !! id = Some category'
       ∧ Category.order category' = o).
Proof.
  induction updates as [|[id' o'] updates IH]; intros m; cbn.
  - split; [done|]. intros o [=].
  - destruct (IH (alter (CategoryPatch.apply (Categories.order_patch o' now)) id' m))
      as [IHnone IHsome].
    destruct (requested_order updates id) as [o''|].
    + split; [done|]. intros o [= <-] [category Hc]. apply IHsome; [done|].
      rewrite lookup_alter. case_decide as Heq; [subst id'|]; by rewrite Hc.
    + rewrite IHnone by done. rewrite lookup_alter.
      case_bool_decide as Heq.
      * subst id'. rewrite decide_True by done. split; [done|].
        intros o [= <-] [category ->]. by eexists.
      * rewrite decide_False by done. split; [done|]. intros o [=].
Qed.

(** X16. [reorder] of categories checks every entry before it writes.
    For an authenticated caller: when some entry names a category that
    does not exist or belongs to someone else, it throws NotFound or
    NotAuthorized and has written nothing; when every entry names a
    category of the caller, it succeeds, every listed category gets the
    order of the last entry that names it (its requested order when no
    category is listed twice), no order value is checked, and the
    categories that are not listed are as before. *)
Theorem reorder_categories_all_or_nothing ctx u updates st :
  getAuthUser ctx = Some u →
  (Exists (λ upd, ¬ owned_category st u upd.1) updates →
   ∃ e, (e = NotFound ∨ e = NotAuthorized)
        ∧ CategoriesEndpoint.reorder ctx updates st = (inl e, st))
  ∧ (Forall (λ upd, owned_category st u upd.1) updates →
     ∃ st',
       CategoriesEndpoint.reorder ctx updates st = (inr true, st')
       ∧ (∀ id o, requested_order updates id = Some o →
            ∃ category', categories st' !! id = Some category'
                         ∧ Category.order category' = o)
       ∧ (NoDup updates.*1 →
          ∀ id o, (id, o) ∈ updates →
            ∃ category', categories st' !! id = Some category'
                         ∧ Category.order category' = o)
       ∧ (∀ id, id ∉ updates.*1 → categories st' !! id = categories st !! id)
       ∧ tasks st' = tasks st).
Proof.
  intros Hu. unfold CategoriesEndpoint.reorder.
  rewrite bind_run, (authenticate_ok _ _ _ Hu). rewrite bind_run.
  destruct (verify_category_updates ctx u updates st) as [[Hall ->]|[Hex (e & He & ->)]].
  - split.
    { intros Hex. apply Exists_exists in Hex as (upd & Hin & Hno).
      destruct Hno. by apply (proj1 (Forall_forall _ _) Hall). }
    intros _.
    assert (Hsome : Forall (λ upd : N * Z, is_Some (categories st !! upd.1)) updates).
    { eapply Forall_impl; [exact Hall|]. intros upd (category & -> & _). by eexists. }
    rewrite bind_run, (updateCategoryOrders_run _ _ _ Hsome). cbn [mret M_ret].
    eexists. split; [reflexivity|]. cbn [categories tasks logs set_table categories_table].
    assert (Hlast : ∀ id o, requested_order updates id = Some o →
              ∃ category',
                foldl (λ m (upd : N * Z),
                         alter (CategoryPatch.apply (Categories.order_patch upd.2 (now ctx)))
                           upd.1 m)
                  (categories st) updates !! id = Some category'
                ∧ Category.order category' = o).
    { intros id o Hreq.
      apply (proj2 (lookup_reordered_categories (now ctx) id updates (categories st)) o Hreq).
      assert (Hin : id ∈ updates.*1).
      { destruct (decide (id ∈ updates.*1)) as [|Hnin]; [done|].
        apply requested_order_None in Hnin. congruence. }
      apply list_elem_of_fmap in Hin as (upd & -> & Hin).
      by apply (proj1 (Forall_forall _ _) Hsome). }
    split; [exact Hlast|]. split; [|split; [|done]].
    + intros Hnd id o Hin. apply Hlast. by apply requested_order_NoDup.
    + intros id Hnin.
      apply (proj1 (lookup_reordered_categories (now ctx) id updates (categories st))).
      by apply requested_order_None.
  - split; [eauto|].
    intros Hall. apply Exists_exists in Hex as (upd & Hin & Hno).
    destruct Hno. by apply (proj1 (Forall_forall _ _) Hall).
Qed.

Lemma reorder_categories_all_or_nothing_witness :
  (∃ e, (e = NotFound ∨ e = NotAuthorized)
        ∧ CategoriesEndpoint.reorder Examples.ctx [(0%N, 4); (7%N, 1)] Examples.store
          = (inl e, Examples.store))
  ∧ (∃ st',
       CategoriesEndpoint.reorder Examples.ctx [(0%N, -3)] Examples.store = (inr true, st')
       ∧ ∃ category', categories st' !! 0%N = Some category'
                      ∧ Category.order category' = -3).
Proof.
  split.
  - apply (proj1 (reorder_categories_all_or_nothing Examples.ctx Examples.alice
                    [(0%N, 4); (7%N, 1)] Examples.store eq_refl)).
    apply Exists_cons_tl, Exists_cons_hd.
    intros (category & Hc & _). vm_compute in Hc. discriminate Hc.
  - destruct (proj2 (reorder_categories_all_or_nothing Examples.ctx Examples.alice
                       [(0%N, -3)] Examples.store eq_refl))
      as (st' & Hrun & Hlast & _).
    { repeat constructor. eexists. split; reflexivity. }
    exists st'. split; [exact Hrun|]. by apply Hlast.
Defined.

Ltac category_step :=
  rewrite bind_run, getCategoryById_run;
  lazymatch goal with
  | |- context [categories ?st !! ?id] =>
      destruct (categories st !! id) as [?category|] eqn:?; [|left; eauto]
  end.

Lemma update_category_cases ctx args st :
  (∃ e, CategoriesEndpoint.update ctx args st = (inl e, st))
  ∨ (∃ id st', CategoriesEndpoint.update ctx args st = (inr id, st')).
Proof.
  unfold CategoriesEndpoint.update. auth_step. guard_step. category_step. do 4 guard_step.
  right. rewrite bind_run. unfold Categories.updateCategory, db.patch.
  cbn [get_table categories_table].
  lazymatch goal with H : categories st !! _ = Some _ |- _ => rewrite H end.
  cbn. eauto.
Qed.

(** The result of [remove] of a category once its checks have gone
    through. *)
Lemma remove_category_run ctx u id category mode st :
  getAuthUser ctx = Some u →
  ok (rateLimiter_limit ctx "deleteCategory" (_id u)) = true →
  categories st !! id = Some category →
  Category.userId category = _id u →
  ∃ st',
    CategoriesEndpoint.remove ctx id mode st = (inr id, st')
    ∧ categories st' = delete id (categories st)
    ∧ ∀ k, tasks st' !! k
           = match tasks st !! k with
             | Some task =>
                 if bool_decide (Task.categoryId task = Some id)
                 then match mode with
                      | unlink => Some (unlinked_task ctx task)
                      | deleteTasks => None
                      end
                 else Some task
             | None => None
             end.
Proof.
  intros Hu Hrl Hc Ho. unfold CategoriesEndpoint.remove.
  rewrite bind_run, (authenticate_ok _ _ _ Hu).
  rewrite bind_run, (rate_limit_ok _ _ _ _ Hrl).
  rewrite bind_run. unfold Categories.getCategoryById, db.get.
  cbn [get_table categories_table]. rewrite Hc.
  rewrite bind_run, bool_decide_true, throw_if_false by done.
  destruct (remove_category_tasks ctx id mode st)
    as (st1 & Hrun & Hcat & _ & _ & Htasks).
  rewrite bind_run in Hrun. rewrite bind_run.
  destruct (Tasks.getTasksByCategory ctx id st) as [[e|tasksInCategory] st0]; [done|].
  rewrite bind_run, Hrun.
  rewrite bind_run. unfold Categories.deleteCategory, db.delete.
  cbn [get_table categories_table]. rewrite Hcat, Hc. cbn [mret M_ret].
  eexists. split; [reflexivity|].
  cbn [categories tasks db.write log set_table categories_table].
  done.
Qed.

Lemma remove_category_cases ctx id mode st :
  (∃ e, CategoriesEndpoint.remove ctx id mode st = (inl e, st))
  ∨ (∃ st', CategoriesEndpoint.remove ctx id mode st = (inr id, st')).
Proof.
  destruct (getAuthUser ctx) as [u|] eqn:Hu;
    [|left; unfold CategoriesEndpoint.remove, authenticate; rewrite bind_run, Hu; eauto].
  destruct (ok (rateLimiter_limit ctx "deleteCategory" (_id u))) eqn:Hrl.
  - destruct (categories st !! id) as [category|] eqn:Hc.
    + destruct (decide (Category.userId category = _id u)) as [Ho|Ho].
      * right. destruct (remove_category_run ctx u id category mode st)
          as (st' & Hrun & _); eauto.
      * left. unfold CategoriesEndpoint.remove.
        rewrite bind_run, (authenticate_ok _ _ _ Hu).
        rewrite bind_run, (rate_limit_ok _ _ _ _ Hrl).
        rewrite bind_run, getCategoryById_run, Hc.
        rewrite bind_run, bool_decide_false, throw_if_true by done. eauto.
    + left. unfold CategoriesEndpoint.remove.
      rewrite bind_run, (authenticate_ok _ _ _ Hu).
      rewrite bind_run, (rate_limit_ok _ _ _ _ Hrl).
      rewrite bind_run, getCategoryById_run, Hc. eauto.
  - left. unfold CategoriesEndpoint.remove.
    rewrite bind_run, (authenticate_ok _ _ _ Hu).
    rewrite bind_run. unfold rate_limit. rewrite Hrl. cbn. eauto.
Qed.

Lemma reorder_categories_cases ctx updates st :
  (∃ e, CategoriesEndpoint.reorder ctx updates st = (inl e, st))
  ∨ (∃ st', CategoriesEndpoint.reorder ctx updates st = (inr true, st')).
Proof.
  unfold CategoriesEndpoint.reorder. auth_step. rewrite bind_run.
  destruct (verify_category_updates ctx authUser updates st)
    as [[Hall ->]|[_ (e & _ & ->)]]; [|left; eauto].
  right. rewrite bind_run, updateCategoryOrders_run; [cbn; eauto|].
  eapply Forall_impl; [exact Hall|]. intros upd (category & -> & _). by eexists.
Qed.

(** X17. A category mutation that throws has written nothing: whatever
    the caller, the arguments and the store, when [create], [update],
    [remove] (in either mode) or [reorder] of the categories endpoint ends
    in an error, the store, write log included, is the one it started
    from. *)
Theorem category_mutation_error_leaves_store ctx st e st' :
  (∀ args, CategoriesEndpoint.create ctx args st = (inl e, st') → st' = st)
  ∧ (∀ args, CategoriesEndpoint.update ctx args st = (inl e, st') → st' = st)
  ∧ (∀ id mode, CategoriesEndpoint.remove ctx id mode st = (inl e, st') → st' = st)
  ∧ (∀ updates, CategoriesEndpoint.reorder ctx updates st = (inl e, st') → st' = st).
Proof.
  repeat split.
  - intros args Hrun.
    destruct (create_category_cases ctx args st)
      as [[e' He]|(u & doc & st'' & _ & _ & _ & Hok & _)]; congruence.
  - intros args Hrun.
    destruct (update_category_cases ctx args st) as [[e' He]|(id & st'' & Hok)]; congruence.
  - intros id mode Hrun.
    destruct (remove_category_cases ctx id mode st) as [[e' He]|[st'' Hok]]; congruence.
  - intros updates Hrun.
    destruct (reorder_categories_cases ctx updates st) as [[e' He]|[st'' Hok]]; congruence.
Qed.

Lemma category_mutation_error_leaves_store_witness :
  (CategoriesEndpoint.remove Examples.ctx 5%N deleteTasks Examples.store).2 = Examples.store
  ∧ (CategoriesEndpoint.create Examples.ctx (Examples.category_args "more")
       (Examples.categories_store "alice" 50)).2
    = Examples.categories_store "alice" 50.
Proof.
  split.
  - apply (proj1 (proj2 (proj2
             (category_mutation_error_leaves_store Examples.ctx Examples.store NotFound
                (CategoriesEndpoint.remove Examples.ctx 5%N deleteTasks Examples.store).2)))
             5%N deleteTasks).
    reflexivity.
  - apply (proj1 (category_mutation_error_leaves_store Examples.ctx
                    (Examples.categories_store "alice" 50) (LimitReached 50)
                    (CategoriesEndpoint.create Examples.ctx (Examples.category_args "more")
                       (Examples.categories_store "alice" 50)).2)
             (Examples.category_args "more")).
    vm_compute. reflexivity.
Defined.

(** ** Comments *)

(** The comment that [create] of the comments endpoint stores. *)
Definition created_comment (ctx : Ctx) (u : AuthUser) (taskId : Id) (content : string)
    : TaskComment.t :=
  {| TaskComment.taskId := taskId; TaskComment.userId := _id u;
     TaskComment.content := validation.sanitizeInput content;
     TaskComment.createdAt := now ctx; TaskComment.updatedAt := now ctx |}.

(** The audit record that goes with it. *)
Definition commented_record (ctx : Ctx) (u : AuthUser) (taskId commentId : Id) : Activity.t :=
  {| Activity.taskId := taskId; Activity.userId := _id u;
     Activity.action := commented; Activity.changes := None;
     Activity.metadata := Some (MetaComment commentId);
     Activity.createdAt := now ctx |}.

Lemma getTaskCommentById_run ctx id st :
  TaskComments.getTaskCommentById ctx id st = (inr (taskComments st !! id), st).
Proof. reflexivity. Qed.

Lemma create_comment_run ctx u taskId task content st :
  getAuthUser ctx = Some u →
  ok (rateLimiter_limit ctx "createComment" (_id u)) = true →
  tasks st !! taskId = Some task →
  Task.userId task = _id u →
  validation.isValidCommentContent (validation.sanitizeInput content) = true →
  CommentsEndpoint.create ctx taskId content st
  = (inr (fresh (dom (taskComments st))),
     {| tasks := tasks st; categories := categories st;
        taskComments :=
          <[fresh (dom (taskComments st)) := created_comment ctx u taskId content]>
            (taskComments st);
        taskActivity :=
          <[fresh (dom (taskActivity st))
            := commented_record ctx u taskId (fresh (dom (taskComments st)))]>
            (taskActivity st);
        writes :=
          writes st ++ [written TaskComment.t Inserted (fresh (dom (taskComments st)));
                        written Activity.t Inserted (fresh (dom (taskActivity st)))] |}).
Proof.
  intros Hu Hrl Ht Ho Hvalid. unfold CommentsEndpoint.create.
  rewrite bind_run, (authenticate_ok _ _ _ Hu).
  rewrite bind_run, (rate_limit_ok _ _ _ _ Hrl).
  rewrite bind_run, getTaskById_run, Ht.
  rewrite bind_run, bool_decide_true, throw_if_false by done.
  rewrite bind_run, Hvalid, throw_if_false.
  rewrite bind_run. unfold TaskComments.createTaskComment, db.insert at 1.
  rewrite bind_run. cbn.
  cbv [db.write log written created_comment commented_record mret M_ret]. cbn.
  by rewrite <- app_assoc.
Qed.

Lemma remove_comment_run ctx u id comment st :
  getAuthUser ctx = Some u →
  ok (rateLimiter_limit ctx "deleteComment" (_id u)) = true →
  taskComments st !! id = Some comment →
  TaskComment.userId comment = _id u →
  CommentsEndpoint.remove ctx id st
  = (inr id,
     {| tasks := tasks st; categories := categories st;
        taskComments := delete id (taskComments st);
        taskActivity := taskActivity st;
        writes := writes st ++ [written TaskComment.t Deleted id] |}).
Proof.
  intros Hu Hrl Hc Ho. unfold CommentsEndpoint.remove.
  rewrite bind_run, (authenticate_ok _ _ _ Hu).
  rewrite bind_run, (rate_limit_ok _ _ _ _ Hrl).
  rewrite bind_run, getTaskCommentById_run, Hc.
  rewrite bind_run, bool_decide_true, throw_if_false by done.
  rewrite bind_run. unfold TaskComments.deleteTaskComment, db.delete.
  cbn [get_table taskComments_table]. rewrite Hc. reflexivity.
Qed.

Lemma comment_count_insert ctx taskId i doc st st' :
  taskComments st !! i = None →
  taskComments st' = <[i := doc]> (taskComments st) →
  ∃ n,
    TaskComments.getCommentCountByTask ctx taskId st = (inr n, st)
    ∧ TaskComments.getCommentCountByTask ctx taskId st'
      = (inr (if bool_decide (TaskComment.taskId doc = taskId) then S n else n), st').
Proof.
  intros Hi Hst'. eexists. split; [reflexivity|].
  unfold TaskComments.getCommentCountByTask, db.collect.
  rewrite bind_run. cbn [get_table taskComments_table mret M_ret]. rewrite Hst'.
  rewrite (length_filter_Permutation _ _ _ (map_to_list_insert _ _ doc Hi)).
  cbn. by destruct (bool_decide (TaskComment.taskId doc = taskId)).
Qed.

(** X18. A valid comment of the owner of a task, once past the rate
    limiter, adds one comment and one audit record and nothing else: the
    comment, under a new id, is on that task, by the caller, holds the
    trimmed content and has both timestamps at the current time; the audit
    record, under a new id, is a "commented" record of the caller for the
    task whose metadata names the comment; tasks (the commented one too)
    and categories are as before; the write log grows by the two
    insertions; and the comment count of the task goes up by one. *)
Theorem create_comment_effect ctx u taskId task content st :
  getAuthUser ctx = Some u →
  ok (rateLimiter_limit ctx "createComment" (_id u)) = true →
  tasks st !! taskId = Some task →
  Task.userId task = _id u →
  validation.isValidCommentContent (validation.sanitizeInput content) = true →
  ∃ commentId activityId st',
    CommentsEndpoint.create ctx taskId content st = (inr commentId, st')
    ∧ taskComments st !! commentId = None
    ∧ taskComments st'
      = <[commentId := {| TaskComment.taskId := taskId; TaskComment.userId := _id u;
                          TaskComment.content := validation.sanitizeInput content;
                          TaskComment.createdAt := now ctx;
                          TaskComment.updatedAt := now ctx |}]> (taskComments st)
    ∧ taskActivity st !! activityId = None
    ∧ taskActivity st'
      = <[activityId := {| Activity.taskId := taskId; Activity.userId := _id u;
                           Activity.action := commented; Activity.changes := None;
                           Activity.metadata := Some (MetaComment commentId);
                           Activity.createdAt := now ctx |}]> (taskActivity st)
    ∧ tasks st' = tasks st
    ∧ categories st' = categories st
    ∧ writes st'
      = writes st ++ [written TaskComment.t Inserted commentId;
                      written Activity.t Inserted activityId]
    ∧ ∃ n,
        TaskComments.getCommentCountByTask ctx taskId st = (inr n, st)
        ∧ TaskComments.getCommentCountByTask ctx taskId st' = (inr (S n), st').
Proof.
  intros Hu Hrl Ht Ho Hvalid.
  rewrite (create_comment_run ctx u taskId task content st Hu Hrl Ht Ho Hvalid).
  assert (Hfresh : taskComments st !! fresh (dom (taskComments st)) = None)
    by apply not_elem_of_dom, is_fresh.
  eexists _, _, _. split; [reflexivity|]. cbn [taskComments taskActivity tasks categories writes].
  split; [done|]. split; [reflexivity|].
  split; [apply not_elem_of_dom, is_fresh|]. do 4 (split; [reflexivity|]).
  set (st' := Build_DB _ _ _ _ _).
  destruct (comment_count_insert ctx taskId _ (created_comment ctx u taskId content) st st'
              Hfresh eq_refl) as (n & Hn & Hn').
  exists n. split; [done|]. rewrite Hn'. cbn [created_comment TaskComment.taskId].
  by rewrite bool_decide_true.
Qed.

Lemma create_comment_effect_witness :
  ∃ commentId activityId st',
    CommentsEndpoint.create Examples.ctx 0%N "  first  " Examples.store = (inr commentId, st')
    ∧ taskComments Examples.store !! commentId = None
    ∧ taskComments st'
      = <[commentId := {| TaskComment.taskId := 0%N; TaskComment.userId := "alice";
                          TaskComment.content := validation.sanitizeInput "  first  ";
                          TaskComment.createdAt := now Examples.ctx;
                          TaskComment.updatedAt := now Examples.ctx |}]>
          (taskComments Examples.store)
    ∧ taskActivity Examples.store !! activityId = None
    ∧ taskActivity st'
      = <[activityId := {| Activity.taskId := 0%N; Activity.userId := "alice";
                           Activity.action := commented; Activity.changes := None;
                           Activity.metadata := Some (MetaComment commentId);
                           Activity.createdAt := now Examples.ctx |}]>
          (taskActivity Examples.store)
    ∧ tasks st' = tasks Examples.store
    ∧ categories st' = categories Examples.store
    ∧ writes st'
      = writes Examples.store ++ [written TaskComment.t Inserted commentId;
                                  written Activity.t Inserted activityId]
    ∧ ∃ n,
        TaskComments.getCommentCountByTask Examples.ctx 0%N Examples.store
        = (inr n, Examples.store)
        ∧ TaskComments.getCommentCountByTask Examples.ctx 0%N st' = (inr (S n), st').
Proof.
  apply (create_comment_effect Examples.ctx Examples.alice 0%N
           (Examples.task "alice" "write" (Some 0%N) todo None 0) "  first  " Examples.store);
    reflexivity.
Defined.

(** X19. Deleting a comment is decided by the author of the comment, not
    by the owner of the task: for an authenticated caller past the rate
    limiter, [remove] throws NotFound when the id names no comment and
    NotAuthorized when the comment was written by somebody else, and
    writes nothing; on a comment of the caller it deletes that comment and
    nothing else - the other comments, the tasks, the categories and the
    audit log, its "commented" record included, stay as they are. *)
Theorem remove_comment_by_author_only ctx u id st :
  getAuthUser ctx = Some u →
  ok (rateLimiter_limit ctx "deleteComment" (_id u)) = true →
  match taskComments st !! id with
  | None => CommentsEndpoint.remove ctx id st = (inl NotFound, st)
  | Some comment =>
      if bool_decide (TaskComment.userId comment = _id u)
      then ∃ st',
             CommentsEndpoint.remove ctx id st = (inr id, st')
             ∧ taskComments st' = delete id (taskComments st)
             ∧ taskActivity st' = taskActivity st
             ∧ tasks st' = tasks st
             ∧ categories st' = categories st
             ∧ writes st' = writes st ++ [written TaskComment.t Deleted id]
      else CommentsEndpoint.remove ctx id st = (inl NotAuthorized, st)
  end.
Proof.
  intros Hu Hrl. destruct (taskComments st !! id) as [comment|] eqn:Hc.
  - case_bool_decide as Ho.
    + rewrite (remove_comment_run ctx u id comment st Hu Hrl Hc Ho).
      eexists. split; [reflexivity|]. done.
    + unfold CommentsEndpoint.remove.
      rewrite bind_run, (authenticate_ok _ _ _ Hu).
      rewrite bind_run, (rate_limit_ok _ _ _ _ Hrl).
      rewrite bind_run, getTaskCommentById_run, Hc.
      by rewrite bind_run, bool_decide_false, throw_if_true.
  - unfold CommentsEndpoint.remove.
    rewrite bind_run, (authenticate_ok _ _ _ Hu).
    rewrite bind_run, (rate_limit_ok _ _ _ _ Hrl).
    by rewrite bind_run, getTaskCommentById_run, Hc.
Qed.

Lemma remove_comment_by_author_only_witness :
  (∃ st',
     CommentsEndpoint.remove Examples.ctx 2%N Examples.store = (inr 2%N, st')
     ∧ taskComments st' = delete 2%N (taskComments Examples.store)
     ∧ taskActivity st' = taskActivity Examples.store
     ∧ tasks st' = tasks Examples.store
     ∧ categories st' = categories Examples.store
     ∧ writes st' = writes Examples.store ++ [written TaskComment.t Deleted 2%N])
  ∧ CommentsEndpoint.remove Examples.ctx 9%N Examples.store = (inl NotFound, Examples.store).
Proof.
  split.
  - exact (remove_comment_by_author_only Examples.ctx Examples.alice 2%N Examples.store
             eq_refl eq_refl).
  - exact (remove_comment_by_author_only Examples.ctx Examples.alice 9%N Examples.store
             eq_refl eq_refl).
Defined.

(** X20. A comment that is created and then deleted leaves the comments
    as they were, but not the audit log: after a valid [create] and the
    [remove] of the new comment by the same caller, the table of comments
    is the one before the two calls, the tasks and categories too, and the
    audit log has kept the "commented" record, which names a comment
    that no longer exists. *)
Theorem create_then_remove_comment ctx u taskId task content st :
  getAuthUser ctx = Some u →
  ok (rateLimiter_limit ctx "createComment" (_id u)) = true →
  ok (rateLimiter_limit ctx "deleteComment" (_id u)) = true →
  tasks st !! taskId = Some task →
  Task.userId task = _id u →
  validation.isValidCommentContent (validation.sanitizeInput content) = true →
  ∃ commentId activityId st1 st2,
    CommentsEndpoint.create ctx taskId content st = (inr commentId, st1)
    ∧ CommentsEndpoint.remove ctx commentId st1 = (inr commentId, st2)
    ∧ taskComments st2 = taskComments st
    ∧ tasks st2 = tasks st
    ∧ categories st2 = categories st
    ∧ taskActivity st !! activityId = None
    ∧ taskActivity st2 !! activityId
      = Some {| Activity.taskId := taskId; Activity.userId := _id u;
                Activity.action := commented; Activity.changes := None;
                Activity.metadata := Some (MetaComment commentId);
                Activity.createdAt := now ctx |}
    ∧ taskComments st2 !! commentId = None.
Proof.
  intros Hu Hcreate Hdelete Ht Ho Hvalid.
  rewrite (create_comment_run ctx u taskId task content st Hu Hcreate Ht Ho Hvalid).
  set (commentId := fresh (dom (taskComments st))).
  set (st1 := Build_DB _ _ _ _ _).
  assert (Hfresh : taskComments st !! commentId = None) by apply not_elem_of_dom, is_fresh.
  assert (Hc : taskComments st1 !! commentId = Some (created_comment ctx u taskId content))
    by apply lookup_insert_eq.
  eexists commentId, (fresh (dom (taskActivity st))), st1, _.
  split; [reflexivity|].
  split; [exact (remove_comment_run ctx u commentId _ st1 Hu Hdelete Hc eq_refl)|].
  cbn [taskComments tasks categories taskActivity st1].
  rewrite delete_insert_id by done.
  split; [done|]. split; [done|]. split; [done|].
  split; [apply not_elem_of_dom, is_fresh|].
  split; [apply lookup_insert_eq|done].
Qed.

Lemma create_then_remove_comment_witness :
  ∃ commentId activityId st1 st2,
    CommentsEndpoint.create Examples.ctx 0%N "first" Examples.store = (inr commentId, st1)
    ∧ CommentsEndpoint.remove Examples.ctx commentId st1 = (inr commentId, st2)
    ∧ taskComments st2 = taskComments Examples.store
    ∧ tasks st2 = tasks Examples.store
    ∧ categories st2 = categories Examples.store
    ∧ taskActivity Examples.store !! activityId = None
    ∧ taskActivity st2 !! activityId
      = Some {| Activity.taskId := 0%N; Activity.userId := "alice";
                Activity.action := commented; Activity.changes := None;
                Activity.metadata := Some (MetaComment commentId);
                Activity.createdAt := now Examples.ctx |}
    ∧ taskComments st2 !! commentId = None.
Proof.
  apply (create_then_remove_comment Examples.ctx Examples.alice 0%N
           (Examples.task "alice" "write" (Some 0%N) todo None 0) "first" Examples.store);
    reflexivity.
Defined.

(** X21. [update] of a comment, which consults no rate limiter, is open to
    the author of the comment alone and rewrites its content only: for an
    authenticated caller it throws NotFound when the id names no comment,
    NotAuthorized when the comment is by somebody else, InvalidInput when
    the trimmed content is empty or longer than 2000 characters, and
    writes nothing in these cases; otherwise the comment gets the trimmed
    content and the current time as [updatedAt], keeps its task, author
    and creation time, and nothing else changes - no audit record is
    added. *)
Theorem update_comment_effect ctx u id content st :
  getAuthUser ctx = Some u →
  match taskComments st !! id with
  | None => CommentsEndpoint.update ctx id content st = (inl NotFound, st)
  | Some comment =>
      if negb (bool_decide (TaskComment.userId comment = _id u))
      then CommentsEndpoint.update ctx id content st = (inl NotAuthorized, st)
      else if negb (validation.isValidCommentContent (validation.sanitizeInput content))
      then CommentsEndpoint.update ctx id content st
           = (inl (InvalidInput "Comment must be between 1 and 2000 characters"), st)
      else CommentsEndpoint.update ctx id content st
           = (inr id,
              {| tasks := tasks st; categories := categories st;
                 taskComments :=
                   <[id := {| TaskComment.taskId := TaskComment.taskId comment;
                              TaskComment.userId := TaskComment.userId comment;
                              TaskComment.content := validation.sanitizeInput content;
                              TaskComment.createdAt := TaskComment.createdAt comment;
                              TaskComment.updatedAt := now ctx |}]> (taskComments st);
                 taskActivity := taskActivity st;
                 writes := writes st ++ [written TaskComment.t Patched id] |})
  end.
Proof.
  intros Hu. unfold CommentsEndpoint.update.
  rewrite bind_run, (authenticate_ok _ _ _ Hu).
  rewrite bind_run, getTaskCommentById_run.
  destruct (taskComments st !! id) as [comment|] eqn:Hc; [|done].
  rewrite bind_run.
  destruct (negb (bool_decide (TaskComment.userId comment = _id u))); [done|].
  rewrite throw_if_false, bind_run.
  destruct (negb (validation.isValidCommentContent (validation.sanitizeInput content)));
    [done|].
  rewrite throw_if_false, bind_run.
  unfold TaskComments.updateTaskComment, db.patch.
  cbn [get_table taskComments_table]. rewrite Hc. reflexivity.
Qed.

Lemma update_comment_effect_witness :
  CommentsEndpoint.update Examples.ctx 2%N " later " Examples.store
  = (inr 2%N,
     {| tasks := tasks Examples.store; categories := categories Examples.store;
        taskComments :=
          <[2%N := {| TaskComment.taskId := 0%N; TaskComment.userId := "alice";
                      TaskComment.content := validation.sanitizeInput " later ";
                      TaskComment.createdAt :=
                        TaskComment.createdAt (Examples.comment 0%N "alice");
                      TaskComment.updatedAt := now Examples.ctx |}]>
            (taskComments Examples.store);
        taskActivity := taskActivity Examples.store;
        writes := writes Examples.store ++ [written TaskComment.t Patched 2%N] |}).
Proof.
  exact (update_comment_effect Examples.ctx Examples.alice 2%N " later " Examples.store
           eq_refl).
Defined.

(** X22. [listByTask] answers the owner of the task only, and with every
    comment on it: for an authenticated caller it throws NotFound when the
    task does not exist and NotAuthorized when it belongs to somebody
    else; for the owner it returns, each once, exactly the stored comments
    whose task is the given one, whoever wrote them, and writes
    nothing. *)
Theorem list_comments_scope ctx u taskId st :
  getAuthUser ctx = Some u →
  match tasks st !! taskId with
  | None => CommentsEndpoint.listByTask ctx taskId st = (inl NotFound, st)
  | Some task =>
      if bool_decide (Task.userId task = _id u)
      then ∃ comments,
             CommentsEndpoint.listByTask ctx taskId st = (inr comments, st)
             ∧ NoDup comments.*1
             ∧ ∀ k comment,
                 (k, comment) ∈ comments
                 ↔ taskComments st !! k = Some comment
                   ∧ TaskComment.taskId comment = taskId
      else CommentsEndpoint.listByTask ctx taskId st = (inl NotAuthorized, st)
  end.
Proof.
  intros Hu. unfold CommentsEndpoint.listByTask.
  rewrite bind_run, (authenticate_ok _ _ _ Hu).
  rewrite bind_run, getTaskById_run.
  destruct (tasks st !! taskId) as [task|] eqn:Ht; [|done].
  rewrite bind_run. case_bool_decide as Ho; [|done].
  rewrite throw_if_false.
  unfold TaskComments.getCommentsByTask, db.collect. cbn [get_table taskComments_table].
  eexists. split; [reflexivity|]. split; [apply NoDup_collect|].
  intros k comment. rewrite elem_of_collect. cbn. by rewrite bool_decide_eq_true.
Qed.

Lemma list_comments_scope_witness :
  ∃ comments,
    CommentsEndpoint.listByTask Examples.ctx 0%N Examples.store = (inr comments, Examples.store)
    ∧ NoDup comments.*1
    ∧ ∀ k comment,
        (k, comment) ∈ comments
        ↔ taskComments Examples.store !! k = Some comment
          ∧ TaskComment.taskId comment = 0%N.
Proof.
  exact (list_comments_scope Examples.ctx Examples.alice 0%N Examples.store eq_refl).
Defined.

(** ** What a handler may change *)

(** The outcomes of the task handlers: an error and the store as it was,
    or the success with the tasks and the audit log it leaves. *)

Ltac owner_fact :=
  lazymatch goal with
  | H : negb (bool_decide (_ = _)) = false |- _ =>
      apply negb_false_iff, bool_decide_eq_true in H
  end.

Lemma create_task_outcome ctx args st :
  (∃ e, TasksEndpoint.create ctx args st = (inl e, st))
  ∨ (∃ id task st',
       TasksEndpoint.create ctx args st = (inr id, st')
       ∧ tasks st !! id = None
       ∧ tasks st' = <[id := task]> (tasks st)
       ∧ taskActivity st ⊆ taskActivity st').
Proof.
  unfold TasksEndpoint.create. auth_step. do 5 guard_step.
  right. rewrite bind_run, getTasksByUser_run.
  rewrite bind_run. unfold Tasks.createTask, db.insert at 1.
  rewrite bind_run. cbn.
  eexists _, _, _. split; [reflexivity|]. cbn.
  split; [apply not_elem_of_dom, is_fresh|]. split; [reflexivity|].
  apply insert_subseteq, not_elem_of_dom, is_fresh.
Qed.

Lemma update_task_outcome ctx args st :
  (∃ e, TasksEndpoint.update ctx args st = (inl e, st))
  ∨ (∃ u task st',
       getAuthUser ctx = Some u
       ∧ tasks st !! TasksEndpoint.u_id args = Some task
       ∧ Task.userId task = _id u
       ∧ TasksEndpoint.update ctx args st = (inr (TasksEndpoint.u_id args), st')
       ∧ tasks st' = <[TasksEndpoint.u_id args := updated_task ctx args task]> (tasks st)
       ∧ taskActivity st ⊆ taskActivity st').
Proof.
  unfold TasksEndpoint.update. auth_step. guard_step. task_step. do 5 guard_step.
  owner_fact.
  right. rewrite bind_run. unfold Tasks.updateTask, db.patch at 1.
  cbn [get_table tasks_table].
  lazymatch goal with H : tasks st !! _ = Some _ |- _ => rewrite H end.
  exists authUser, task.
  destruct (TasksEndpoint.changed (TasksEndpoint.u_status args) _) as [[oldStatus newStatus]|].
  - rewrite bind_run. cbn. eexists. do 4 (split; [done|]). cbn.
    split; [done|]. apply insert_subseteq, not_elem_of_dom, is_fresh.
  - destruct (TasksEndpoint.u_title args), (TasksEndpoint.changed (TasksEndpoint.u_priority args) _);
      cbn; eexists; do 4 (split; [done|]); cbn; (split; [done|]);
      first [done | apply insert_subseteq, not_elem_of_dom, is_fresh].
Qed.

Lemma status_handler_outcome ctx id st :
  let outcome (handler : Ctx → Id → M Id) :=
    (∃ e, handler ctx id st = (inl e, st))
    ∨ (∃ u task task' st',
         getAuthUser ctx = Some u
         ∧ tasks st !! id = Some task
         ∧ Task.userId task = _id u
         ∧ handler ctx id st = (inr id, st')
         ∧ tasks st' = <[id := task']> (tasks st)
         ∧ Task.userId task' = Task.userId task
         ∧ Task.createdAt task' = Task.createdAt task
         ∧ taskActivity st ⊆ taskActivity st') in
  outcome TasksEndpoint.complete ∧ outcome TasksEndpoint.reopen
  ∧ outcome TasksEndpoint.archive.
Proof.
  cbv zeta. unfold TasksEndpoint.complete, TasksEndpoint.reopen, TasksEndpoint.archive.
  rewrite !bind_run.
  destruct (owned_task_cases ctx id st) as [[e ->]|(u & task & Hu & Ht & Ho & ->)].
  { repeat split; left; eauto. }
  unfold Tasks.completeTask, Tasks.reopenTask, Tasks.archiveTask, db.patch.
  cbn [get_table tasks_table]. rewrite !bind_run, Ht. cbn.
  repeat split; right; exists u, task; eexists _, _;
    (do 4 (split; [done|])); cbn; (do 3 (split; [done|]));
    apply insert_subseteq, not_elem_of_dom, is_fresh.
Qed.

Lemma remove_task_outcome ctx id st :
  (∃ e, TasksEndpoint.remove ctx id st = (inl e, st))
  ∨ (∃ u task st',
       getAuthUser ctx = Some u
       ∧ tasks st !! id = Some task
       ∧ Task.userId task = _id u
       ∧ TasksEndpoint.remove ctx id st = (inr id, st')
       ∧ tasks st' = delete id (tasks st)).
Proof.
  unfold TasksEndpoint.remove. auth_step. guard_step. task_step. guard_step. owner_fact.
  right. exists authUser, task.
  rewrite bind_run.
  unfold TaskActivity.logTaskDeleted, TaskActivity.createTaskActivity, db.insert at 1.
  set (st1 := db.write Inserted _ _ st).
  rewrite bind_run, deleteCommentsByTask_run. cbv zeta.
  set (st2 := logs _ (set_table _ st1)).
  rewrite bind_run, deleteActivityByTask_run. cbv zeta.
  set (st3 := logs _ (set_table _ st2)).
  rewrite bind_run. unfold Tasks.deleteTask, db.delete.
  assert (Htasks : get_table (A := Task.t) st3 = tasks st) by reflexivity.
  rewrite Htasks.
  lazymatch goal with H : tasks st !! _ = Some _ |- _ => rewrite H end.
  cbn [mret M_ret]. eexists. do 4 (split; [done|]). done.
Qed.

Lemma reorder_tasks_outcome ctx updates st :
  (∃ e, TasksEndpoint.reorder ctx updates st = (inl e, st))
  ∨ (∃ u st',
       getAuthUser ctx = Some u
       ∧ Forall (λ upd, owned_by st u upd.1) updates
       ∧ TasksEndpoint.reorder ctx updates st = (inr true, st')
       ∧ tasks st'
         = foldl (λ m (upd : N * Z),
                    alter (TaskPatch.apply (Tasks.order_patch upd.2 (now ctx))) upd.1 m)
             (tasks st) updates
       ∧ taskActivity st' = taskActivity st).
Proof.
  unfold TasksEndpoint.reorder. auth_step. rewrite bind_run.
  destruct (verify_updates ctx authUser updates st) as [[Hall ->]|[_ (e & _ & ->)]];
    [|left; eauto].
  right. exists authUser. rewrite bind_run, updateTaskOrders_run.
  - cbn. eexists. do 3 (split; [done|]). done.
  - eapply Forall_impl; [exact Hall|]. intros upd (task & -> & _). by eexists.
Qed.

(** A loop of patches changes no field that the patches keep. *)
Lemma fmap_lookup_foldl_alter {A B C} (g : A → C) (key : B → N) (merge : B → A → A)
    (xs : list B) k :
  (∀ x a, g (merge x a) = g a) →
  ∀ m : gmap N A,
  g <$> foldl (λ m x, alter (merge x) (key x) m) m xs !! k = g <$> m !! k.
Proof.
  intros Hg. induction xs as [|x xs IH]; intros m; cbn; [done|].
  rewrite IH, lookup_alter. case_decide as Hk; [|done]. subst k.
  destruct (m !! key x); cbn; [by rewrite Hg|done].
Qed.

Lemma lookup_foldl_alter_other {A B} (key : B → N) (merge : B → A → A) (xs : list B) k :
  k ∉ key <$> xs →
  ∀ m : gmap N A, foldl (λ m x, alter (merge x) (key x) m) m xs !! k = m !! k.
Proof.
  induction xs as [|x xs IH]; intros Hk m; cbn; [done|].
  rewrite fmap_cons, not_elem_of_cons in Hk. destruct Hk as [Hx Hk].
  rewrite IH by done. by rewrite lookup_alter_ne.
Qed.

(** X23. The task handlers keep to the tasks of the caller: for an
    authenticated caller, whatever the arguments and whatever the result,
    [create], [update], [complete], [reopen], [archive], [remove] and
    [reorder] leave every stored task of another user exactly as it
    was. *)
Theorem task_handlers_spare_other_users ctx u st k task :
  getAuthUser ctx = Some u →
  tasks st !! k = Some task →
  Task.userId task ≠ _id u →
  (∀ args r st', TasksEndpoint.create ctx args st = (r, st') → tasks st' !! k = Some task)
  ∧ (∀ args r st', TasksEndpoint.update ctx args st = (r, st') → tasks st' !! k = Some task)
  ∧ (∀ id r st', TasksEndpoint.complete ctx id st = (r, st') → tasks st' !! k = Some task)
  ∧ (∀ id r st', TasksEndpoint.reopen ctx id st = (r, st') → tasks st' !! k = Some task)
  ∧ (∀ id r st', TasksEndpoint.archive ctx id st = (r, st') → tasks st' !! k = Some task)
  ∧ (∀ id r st', TasksEndpoint.remove ctx id st = (r, st') → tasks st' !! k = Some task)
  ∧ (∀ updates r st',
       TasksEndpoint.reorder ctx updates st = (r, st') → tasks st' !! k = Some task).
Proof.
  intros Hu Hk Hother.
  assert (Hne : ∀ id task', tasks st !! id = Some task' → Task.userId task' = _id u → k ≠ id).
  { intros id task' Hid Ho ->. congruence. }
  split; [|split; [|split; [|split; [|split; [|split]]]]].
  - intros args r st' Hrun.
    destruct (create_task_outcome ctx args st)
      as [[e He]|(id & task' & st'' & Hok & Hid & Htasks & _)].
    + by replace st' with st by congruence.
    + replace st' with st'' by congruence. rewrite Htasks, lookup_insert_ne; congruence.
  - intros args r st' Hrun.
    destruct (update_task_outcome ctx args st)
      as [[e He]|(u' & task' & st'' & Hu' & Hid & Ho & Hok & Htasks & _)].
    + by replace st' with st by congruence.
    + replace st' with st'' by congruence. rewrite Htasks, lookup_insert_ne; [done|].
      intros <-. congruence.
  - intros id r st' Hrun.
    destruct (proj1 (status_handler_outcome ctx id st))
      as [[e He]|(u' & task' & task'' & st'' & Hu' & Hid & Ho & Hok & Htasks & _)].
    + by replace st' with st by congruence.
    + replace st' with st'' by congruence. rewrite Htasks, lookup_insert_ne; [done|].
      intros <-. congruence.
  - intros id r st' Hrun.
    destruct (proj1 (proj2 (status_handler_outcome ctx id st)))
      as [[e He]|(u' & task' & task'' & st'' & Hu' & Hid & Ho & Hok & Htasks & _)].
    + by replace st' with st by congruence.
    + replace st' with st'' by congruence. rewrite Htasks, lookup_insert_ne; [done|].
      intros <-. congruence.
  - intros id r st' Hrun.
    destruct (proj2 (proj2 (status_handler_outcome ctx id st)))
      as [[e He]|(u' & task' & task'' & st'' & Hu' & Hid & Ho & Hok & Htasks & _)].
    + by replace st' with st by congruence.
    + replace st' with st'' by congruence. rewrite Htasks, lookup_insert_ne; [done|].
      intros <-. congruence.
  - intros id r st' Hrun.
    destruct (remove_task_outcome ctx id st)
      as [[e He]|(u' & task' & st'' & Hu' & Hid & Ho & Hok & Htasks)].
    + by replace st' with st by congruence.
    + replace st' with st'' by congruence. rewrite Htasks, lookup_delete_ne; [done|].
      intros <-. congruence.
  - intros updates r st' Hrun.
    destruct (reorder_tasks_outcome ctx updates st)
      as [[e He]|(u' & st'' & Hu' & Hall & Hok & Htasks & _)].
    + by replace st' with st by congruence.
    + replace st' with st'' by congruence. rewrite Htasks.
      rewrite (lookup_foldl_alter_other fst); [done|].
      intros Hin. apply list_elem_of_fmap in Hin as (upd & -> & Hin).
      apply (proj1 (Forall_forall _ _) Hall) in Hin as (task' & Hid & Ho). congruence.
Qed.

Lemma task_handlers_spare_other_users_witness :
  tasks (TasksEndpoint.remove Examples.ctx 2%N Examples.store).2 !! 2%N
  = Some (Examples.task "bob" "cook" None todo None 0)
  ∧ tasks (TasksEndpoint.reorder Examples.ctx [(0%N, 4); (2%N, 1)] Examples.store).2 !! 2%N
    = Some (Examples.task "bob" "cook" None todo None 0).
Proof.
  pose proof (task_handlers_spare_other_users Examples.ctx Examples.alice Examples.store 2%N
                (Examples.task "bob" "cook" None todo None 0) eq_refl eq_refl)
    as Hspare.
  assert (Hother : Task.userId (Examples.task "bob" "cook" None todo None 0)
                   ≠ _id Examples.alice) by discriminate.
  destruct (Hspare Hother) as (_ & _ & _ & _ & _ & Hremove & Hreorder).
  split.
  - exact (Hremove 2%N _ _ (surjective_pairing _)).
  - exact (Hreorder [(0%N, 4); (2%N, 1)] _ _ (surjective_pairing _)).
Defined.

Lemma remove_category_outcome ctx id mode st :
  (∃ e, CategoriesEndpoint.remove ctx id mode st = (inl e, st))
  ∨ (∃ u category,
       getAuthUser ctx = Some u
       ∧ ok (rateLimiter_limit ctx "deleteCategory" (_id u)) = true
       ∧ categories st !! id = Some category
       ∧ Category.userId category = _id u).
Proof.
  destruct (getAuthUser ctx) as [u|] eqn:Hu;
    [|left; unfold CategoriesEndpoint.remove, authenticate; rewrite bind_run, Hu; eauto].
  destruct (ok (rateLimiter_limit ctx "deleteCategory" (_id u))) eqn:Hrl.
  - destruct (categories st !! id) as [category|] eqn:Hc.
    + destruct (decide (Category.userId category = _id u)) as [Ho|Ho];
        [right; by exists u, category|].
      left. unfold CategoriesEndpoint.remove.
      rewrite bind_run, (authenticate_ok _ _ _ Hu).
      rewrite bind_run, (rate_limit_ok _ _ _ _ Hrl).
      rewrite bind_run, getCategoryById_run, Hc.
      rewrite bind_run, bool_decide_false, throw_if_true by done. eauto.
    + left. unfold CategoriesEndpoint.remove.
      rewrite bind_run, (authenticate_ok _ _ _ Hu).
      rewrite bind_run, (rate_limit_ok _ _ _ _ Hrl).
      rewrite bind_run, getCategoryById_run, Hc. eauto.
  - left. unfold CategoriesEndpoint.remove.
    rewrite bind_run, (authenticate_ok _ _ _ Hu).
    rewrite bind_run. unfold rate_limit. rewrite Hrl. cbn. eauto.
Qed.

(** Task [k] is in both stores or in neither, with the same owner and the
    same creation time. *)
Definition same_identity (st st' : DB) (k : Id) : Prop :=
  Task.userId <$> tasks st' !! k = Task.userId <$> tasks st !! k
  ∧ Task.createdAt <$> tasks st' !! k = Task.createdAt <$> tasks st !! k.

(** X24. Owner and creation time of a task are permanent, and only
    deletions remove a task: whatever the caller, the arguments and the
    result, after [update], [complete], [reopen], [archive] or [reorder]
    of the tasks endpoint, or the removal of a category in mode "unlink",
    the store has the same task ids as before and each task has the owner
    and the [createdAt] it had. *)
Theorem task_owner_and_creation_are_permanent ctx st k :
  (∀ args, same_identity st (TasksEndpoint.update ctx args st).2 k)
  ∧ (∀ id, same_identity st (TasksEndpoint.complete ctx id st).2 k)
  ∧ (∀ id, same_identity st (TasksEndpoint.reopen ctx id st).2 k)
  ∧ (∀ id, same_identity st (TasksEndpoint.archive ctx id st).2 k)
  ∧ (∀ updates, same_identity st (TasksEndpoint.reorder ctx updates st).2 k)
  ∧ (∀ id, same_identity st (CategoriesEndpoint.remove ctx id unlink st).2 k).
Proof.
  unfold same_identity.
  assert (Hpatched : ∀ id task task' st',
            tasks st !! id = Some task →
            tasks st' = <[id := task']> (tasks st) →
            Task.userId task' = Task.userId task →
            Task.createdAt task' = Task.createdAt task →
            Task.userId <$> tasks st' !! k = Task.userId <$> tasks st !! k
            ∧ Task.createdAt <$> tasks st' !! k = Task.createdAt <$> tasks st !! k).
  { intros id task task' st' Hid -> Hu Hc. rewrite lookup_insert.
    case_decide as Hk; [|done]. subst k. rewrite Hid. cbn. by rewrite Hu, Hc. }
  split; [|split; [|split; [|split; [|split]]]].
  - intros args.
    destruct (update_task_outcome ctx args st)
      as [[e ->]|(u & task & st' & _ & Hid & _ & -> & Htasks & _)]; [done|].
    exact (Hpatched _ _ _ _ Hid Htasks eq_refl eq_refl).
  - intros id.
    destruct (proj1 (status_handler_outcome ctx id st))
      as [[e ->]|(u & task & task' & st' & _ & Hid & _ & -> & Htasks & Hu & Hc & _)];
      [done|].
    exact (Hpatched _ _ _ _ Hid Htasks Hu Hc).
  - intros id.
    destruct (proj1 (proj2 (status_handler_outcome ctx id st)))
      as [[e ->]|(u & task & task' & st' & _ & Hid & _ & -> & Htasks & Hu & Hc & _)];
      [done|].
    exact (Hpatched _ _ _ _ Hid Htasks Hu Hc).
  - intros id.
    destruct (proj2 (proj2 (status_handler_outcome ctx id st)))
      as [[e ->]|(u & task & task' & st' & _ & Hid & _ & -> & Htasks & Hu & Hc & _)];
      [done|].
    exact (Hpatched _ _ _ _ Hid Htasks Hu Hc).
  - intros updates.
    destruct (reorder_tasks_outcome ctx updates st)
      as [[e ->]|(u & st' & _ & _ & -> & Htasks & _)]; [done|].
    cbn [snd]. rewrite Htasks.
    split; by apply (fmap_lookup_foldl_alter _ fst).
  - intros id.
    destruct (remove_category_outcome ctx id unlink st)
      as [[e ->]|(u & category & Hu & Hrl & Hc & Ho)]; [done|].
    destruct (remove_category_run ctx u id category unlink st Hu Hrl Hc Ho)
      as (st' & -> & _ & Htasks).
    cbn [snd]. rewrite Htasks.
    destruct (tasks st !! k) as [task|]; [|done].
    by case_bool_decide.
Qed.

(** ** The tables a handler writes *)

(** [preserves R m]: a run of [m], whatever its result, takes a store to
    one that [R] relates to it. *)
Definition preserves {A} (R : relation DB) (m : M A) : Prop :=
  ∀ st, R st (m st).2.

(** The stores agree on the table (or the field) [f]. *)
Definition same_on {T} (f : DB → T) : relation DB := λ st st', f st' = f st.

(** The audit log has kept every record it had. *)
Definition audit_grows : relation DB := λ st st', taskActivity st ⊆ taskActivity st'.

#[global] Instance same_on_preorder {T} (f : DB → T) : PreOrder (same_on f).
Proof.
  split; [by intros st|]. unfold same_on. intros st1 st2 st3 H12 H23. congruence.
Qed.

#[global] Instance audit_grows_preorder : PreOrder audit_grows.
Proof.
  split.
  - intros st. unfold audit_grows. reflexivity.
  - unfold audit_grows. intros st1 st2 st3 H12 H23.
    by transitivity (taskActivity st2).
Qed.

Section preserves.
Context (R : relation DB) `{!PreOrder R}.

Lemma preserves_ret {A} (a : A) : preserves R (mret a).
Proof. by intros st. Qed.

Lemma preserves_throw {A} (e : Error) : preserves R (mthrow (M := M) (A := A) e).
Proof. by intros st. Qed.

Lemma preserves_bind {A B} (m : M A) (k : A → M B) :
  preserves R m → (∀ a, preserves R (k a)) → preserves R (m ≫= k).
Proof.
  intros Hm Hk st. rewrite bind_run. specialize (Hm st).
  destruct (m st) as [[e|a] st1]; [done|].
  cbn [snd] in Hm. transitivity st1; [done|apply Hk].
Qed.

Lemma preserves_throw_if (cond : bool) (e : Error) : preserves R (throw_if cond e).
Proof. intros st. by destruct cond. Qed.

Lemma preserves_authenticate ctx : preserves R (authenticate ctx).
Proof. intros st. unfold authenticate. by destruct (getAuthUser ctx). Qed.

Lemma preserves_rate_limit ctx name key : preserves R (rate_limit ctx name key).
Proof. apply preserves_throw_if. Qed.

Lemma preserves_for_of {A} (xs : list A) (body : A → M unit) :
  (∀ x, preserves R (body x)) → preserves R (for_of xs body).
Proof.
  intros Hbody. induction xs as [|x xs IH]; cbn [for_of].
  - apply preserves_ret.
  - apply preserves_bind; [apply Hbody|by intros _].
Qed.

Lemma preserves_get {A} `{Table A} (id : Id) : preserves R (db.get (A := A) id).
Proof. by intros st. Qed.

Lemma preserves_collect {A} `{Table A} (range : A → bool) :
  preserves R (db.collect (A := A) range).
Proof. by intros st. Qed.

(** The writes to a table that [R] does not look at. *)
Section writes.
Context {A} `{Table A}.
Hypothesis written_kept : ∀ op id (m : gmap N A) st, R st (db.write op id m st).

Lemma preserves_insert (doc : A) : preserves R (db.insert doc).
Proof. intros st. apply written_kept. Qed.

Lemma preserves_patch (id : Id) (merge : A → A) : preserves R (db.patch id merge).
Proof.
  intros st. unfold db.patch. destruct (get_table st !! id); [apply written_kept|done].
Qed.

Lemma preserves_delete (id : Id) : preserves R (db.delete (A := A) id).
Proof.
  intros st. unfold db.delete. destruct (get_table st !! id); [apply written_kept|done].
Qed.
End writes.
End preserves.

Lemma audit_grows_insert (doc : Activity.t) : preserves audit_grows (db.insert doc).
Proof.
  intros st. unfold audit_grows, db.insert. cbn.
  apply insert_subseteq, not_elem_of_dom, is_fresh.
Qed.

Create HintDb handlers discriminated.

#[global] Hint Unfold
  Tasks.createTask Tasks.getTaskById Tasks.getTasksByUser Tasks.getTasksByCategory
  Tasks.updateTask Tasks.completeTask Tasks.reopenTask Tasks.archiveTask
  Tasks.updateTaskOrders Tasks.deleteTask Tasks.deleteTasks
  TaskComments.createTaskComment TaskComments.getTaskCommentById
  TaskComments.updateTaskComment TaskComments.deleteTaskComment
  TaskComments.deleteCommentsByTask
  TaskActivity.createTaskActivity TaskActivity.logTaskCreated TaskActivity.logTaskUpdated
  TaskActivity.logStatusChanged TaskActivity.logTaskCompleted TaskActivity.logTaskDeleted
  TaskActivity.logTaskCommented TaskActivity.deleteActivityByTask
  Categories.createCategory Categories.getCategoryById Categories.getCategoriesByUser
  Categories.getNextCategoryOrder Categories.updateCategory Categories.updateCategoryOrders
  Categories.deleteCategory
  TasksEndpoint.create TasksEndpoint.update TasksEndpoint.owned_task TasksEndpoint.complete
  TasksEndpoint.reopen TasksEndpoint.archive TasksEndpoint.remove TasksEndpoint.verify_update
  TasksEndpoint.reorder
  CategoriesEndpoint.create CategoriesEndpoint.update CategoriesEndpoint.remove
  CategoriesEndpoint.verify_update CategoriesEndpoint.reorder
  CommentsEndpoint.create CommentsEndpoint.update CommentsEndpoint.remove
  : handlers.

(** Goes through the body of a handler: binds, loops and branches by the
    lemmas above, each write by [written], which says why [R] survives
    it. *)
Ltac frame written :=
  autounfold with handlers;
  repeat first
    [ apply preserves_bind; [tc_solve| |intros ?]
    | apply preserves_ret; tc_solve
    | apply preserves_throw; tc_solve
    | apply preserves_throw_if; tc_solve
    | apply preserves_authenticate; tc_solve
    | apply preserves_rate_limit; tc_solve
    | apply preserves_get; tc_solve
    | apply preserves_collect; tc_solve
    | apply preserves_for_of; [tc_solve|intros ?]
    | solve [written]
    | lazymatch goal with
      | |- preserves _ (match ?x with _ => _ end) => destruct x
      | |- preserves _ (let _ := _ in _) => cbv zeta
      | |- preserves _ (let '(_, _) := ?x in _) => destruct x
      end ].

Ltac other_table :=
  first [ apply preserves_insert | apply preserves_patch | apply preserves_delete ];
  first [ tc_solve | intros; cbv [audit_grows same_on]; cbn; reflexivity ].

Ltac audit_write :=
  first [ apply audit_grows_insert | other_table ].

(** X25. The audit log is append-only outside the deletion of a task:
    whatever the caller, the arguments and the result, after [create],
    [update], [complete], [reopen], [archive] or [reorder] of the tasks
    endpoint, after any mutation of the categories endpoint and after any
    mutation of the comments endpoint, every audit record that was stored
    is still stored, unchanged. *)
Theorem audit_log_is_append_only ctx :
  (∀ args, preserves audit_grows (TasksEndpoint.create ctx args))
  ∧ (∀ args, preserves audit_grows (TasksEndpoint.update ctx args))
  ∧ (∀ id, preserves audit_grows (TasksEndpoint.complete ctx id))
  ∧ (∀ id, preserves audit_grows (TasksEndpoint.reopen ctx id))
  ∧ (∀ id, preserves audit_grows (TasksEndpoint.archive ctx id))
  ∧ (∀ updates, preserves audit_grows (TasksEndpoint.reorder ctx updates))
  ∧ (∀ args, preserves audit_grows (CategoriesEndpoint.create ctx args))
  ∧ (∀ args, preserves audit_grows (CategoriesEndpoint.update ctx args))
  ∧ (∀ id mode, preserves audit_grows (CategoriesEndpoint.remove ctx id mode))
  ∧ (∀ updates, preserves audit_grows (CategoriesEndpoint.reorder ctx updates))
  ∧ (∀ taskId content, preserves audit_grows (CommentsEndpoint.create ctx taskId content))
  ∧ (∀ id content, preserves audit_grows (CommentsEndpoint.update ctx id content))
  ∧ (∀ id, preserves audit_grows (CommentsEndpoint.remove ctx id)).
Proof.
  do 12 (split; [intros; frame audit_write|]). intros; frame audit_write.
Qed.

(** A run of [m] leaves the table [f] as it was. *)
Definition leaves {A T} (f : DB → T) (m : M A) : Prop := preserves (same_on f) m.

(** X26. Each mutation keeps to its tables, whatever the caller, the
    arguments and the result.  [create], [update], [complete], [reopen],
    [archive] and [reorder] of the tasks endpoint leave categories and
    comments as they were, and [remove] of a task the categories.  The
    mutations of the categories endpoint leave comments and audit log as
    they were (so do both modes of [remove], which may delete tasks), and
    [create], [update] and [reorder] the tasks too.  The mutations of the
    comments endpoint leave tasks and categories as they were - a comment
    does not touch its task - and [update] and [remove] the audit log
    too. *)
Theorem mutations_keep_to_their_tables ctx :
  (∀ args, leaves categories (TasksEndpoint.create ctx args)
           ∧ leaves taskComments (TasksEndpoint.create ctx args))
  ∧ (∀ args, leaves categories (TasksEndpoint.update ctx args)
             ∧ leaves taskComments (TasksEndpoint.update ctx args))
  ∧ (∀ id, leaves categories (TasksEndpoint.complete ctx id)
           ∧ leaves taskComments (TasksEndpoint.complete ctx id))
  ∧ (∀ id, leaves categories (TasksEndpoint.reopen ctx id)
           ∧ leaves taskComments (TasksEndpoint.reopen ctx id))
  ∧ (∀ id, leaves categories (TasksEndpoint.archive ctx id)
           ∧ leaves taskComments (TasksEndpoint.archive ctx id))
  ∧ (∀ updates, leaves categories (TasksEndpoint.reorder ctx updates)
                ∧ leaves taskComments (TasksEndpoint.reorder ctx updates))
  ∧ (∀ id, leaves categories (TasksEndpoint.remove ctx id))
  ∧ (∀ args, leaves tasks (CategoriesEndpoint.create ctx args)
             ∧ leaves taskComments (CategoriesEndpoint.create ctx args)
             ∧ leaves taskActivity (CategoriesEndpoint.create ctx args))
  ∧ (∀ args, leaves tasks (CategoriesEndpoint.update ctx args)
             ∧ leaves taskComments (CategoriesEndpoint.update ctx args)
             ∧ leaves taskActivity (CategoriesEndpoint.update ctx args))
  ∧ (∀ updates, leaves tasks (CategoriesEndpoint.reorder ctx updates)
                ∧ leaves taskComments (CategoriesEndpoint.reorder ctx updates)
                ∧ leaves taskActivity (CategoriesEndpoint.reorder ctx updates))
  ∧ (∀ id mode, leaves taskComments (CategoriesEndpoint.remove ctx id mode)
                ∧ leaves taskActivity (CategoriesEndpoint.remove ctx id mode))
  ∧ (∀ taskId content, leaves tasks (CommentsEndpoint.create ctx taskId content)
                       ∧ leaves categories (CommentsEndpoint.create ctx taskId content))
  ∧ (∀ id content, leaves tasks (CommentsEndpoint.update ctx id content)
                   ∧ leaves categories (CommentsEndpoint.update ctx id content)
                   ∧ leaves taskActivity (CommentsEndpoint.update ctx id content))
  ∧ (∀ id, leaves tasks (CommentsEndpoint.remove ctx id)
           ∧ leaves categories (CommentsEndpoint.remove ctx id)
           ∧ leaves taskActivity (CommentsEndpoint.remove ctx id)).
Proof.
  unfold leaves.
  do 6 (split; [intros; split; frame other_table|]).
  split; [intros; frame other_table|].
  do 3 (split; [intros; split; [|split]; frame other_table|]).
  do 2 (split; [intros; split; frame other_table|]).
  split; intros; (split; [|split]); frame other_table.
Qed.

(** ** Categories across users *)

Module TwoUsers.

Definition bob : AuthUser := {| _id := "bob" |}.

(** A call by bob, under the platform of [Examples.ctx]. *)
Definition ctx : Ctx :=
  {| auth := Some bob;
     now := now Examples.ctx;
     limiter := limiter Examples.ctx;
     text_search := text_search Examples.ctx |}.

(** A task for the category [categoryId]. *)
Definition filed (title : string) (categoryId : Id) : TasksEndpoint.CreateArgs :=
  {| TasksEndpoint.c_title := title; TasksEndpoint.c_description := None;
     TasksEndpoint.c_categoryId := Some categoryId; TasksEndpoint.c_priority := None;
     TasksEndpoint.c_dueDate := None; TasksEndpoint.c_tags := None |}.

End TwoUsers.

(** X27. [create] of a task takes any category id, and the removal of a
    category goes by that id alone.  So when a caller files a new task,
    by an otherwise valid request, under a category that belongs to some
    user, the task is stored as the caller's with that category; and when
    the owner of the category then removes it, the task of the caller is
    deleted in mode "deleteTasks" and stripped of its category in mode
    "unlink" - whoever the two users are. *)
Theorem category_removal_reaches_filed_tasks ctx u ctx' owner args id category st :
  getAuthUser ctx = Some u →
  ok (rateLimiter_limit ctx "createTask" (_id u)) = true →
  validation.isValidTaskTitle (validation.sanitizeInput (TasksEndpoint.c_title args)) = true →
  present_and_not (truthy_string (TasksEndpoint.c_description args))
    validation.isValidTaskDescription = false →
  present_and_not (TasksEndpoint.c_tags args) validation.isValidTags = false →
  present_and_not (truthy_number (TasksEndpoint.c_dueDate args))
    (validation.isValidDueDate (now ctx)) = false →
  TasksEndpoint.c_categoryId args = Some id →
  getAuthUser ctx' = Some owner →
  ok (rateLimiter_limit ctx' "deleteCategory" (_id owner)) = true →
  categories st !! id = Some category →
  Category.userId category = _id owner →
  ∃ taskId task st1 st2 st3,
    TasksEndpoint.create ctx args st = (inr taskId, st1)
    ∧ tasks st !! taskId = None
    ∧ tasks st1 !! taskId = Some task
    ∧ Task.userId task = _id u
    ∧ Task.categoryId task = Some id
    ∧ CategoriesEndpoint.remove ctx' id deleteTasks st1 = (inr id, st2)
    ∧ tasks st2 !! taskId = None
    ∧ CategoriesEndpoint.remove ctx' id unlink st1 = (inr id, st3)
    ∧ tasks st3 !! taskId = Some (unlinked_task ctx' task).
Proof.
  intros Hu Hrl Htitle Hdesc Htags Hdue Hfiled Howner Hrl' Hc Ho.
  destruct (create_ok ctx u args st Hu Hrl Htitle Hdesc Htags Hdue) as (st1 & Hrun & Htasks).
  assert (Hcategories : categories st1 = categories st).
  { assert (Hkept : preserves (same_on categories) (TasksEndpoint.create ctx args))
      by frame other_table.
    specialize (Hkept st). by rewrite Hrun in Hkept. }
  assert (Hc1 : categories st1 !! id = Some category) by by rewrite Hcategories.
  destruct (remove_category_run ctx' owner id category deleteTasks st1 Howner Hrl' Hc1 Ho)
    as (st2 & Hrun2 & _ & Htasks2).
  destruct (remove_category_run ctx' owner id category unlink st1 Howner Hrl' Hc1 Ho)
    as (st3 & Hrun3 & _ & Htasks3).
  assert (Htask : tasks st1 !! fresh (dom (tasks st)) = Some (created_task ctx u args st))
    by (rewrite Htasks; apply lookup_insert_eq).
  exists (fresh (dom (tasks st))), (created_task ctx u args st), st1, st2, st3.
  split; [done|]. split; [apply not_elem_of_dom, is_fresh|].
  split; [done|]. split; [done|]. split; [done|]. split; [done|].
  split; [|split; [done|]].
  - rewrite Htasks2, Htask. cbn [created_task Task.categoryId].
    by rewrite Hfiled, bool_decide_true.
  - rewrite Htasks3, Htask. cbn [created_task Task.categoryId].
    by rewrite Hfiled, bool_decide_true.
Qed.

Lemma category_removal_reaches_filed_tasks_witness :
  ∃ taskId task st1 st2 st3,
    TasksEndpoint.create TwoUsers.ctx (TwoUsers.filed "shop" 0%N) Examples.store
    = (inr taskId, st1)
    ∧ tasks Examples.store !! taskId = None
    ∧ tasks st1 !! taskId = Some task
    ∧ Task.userId task = "bob"
    ∧ Task.categoryId task = Some 0%N
    ∧ CategoriesEndpoint.remove Examples.ctx 0%N deleteTasks st1 = (inr 0%N, st2)
    ∧ tasks st2 !! taskId = None
    ∧ CategoriesEndpoint.remove Examples.ctx 0%N unlink st1 = (inr 0%N, st3)
    ∧ tasks st3 !! taskId = Some (unlinked_task Examples.ctx task).
Proof.
  apply (category_removal_reaches_filed_tasks TwoUsers.ctx TwoUsers.bob Examples.ctx
           Examples.alice (TwoUsers.filed "shop" 0%N) 0%N
           (Examples.category "alice" "work" 0) Examples.store);
    reflexivity.
Defined.

(** ** Reading a category *)

Lemma length_filter_split {A} (f : A → bool) (l : list A) :
  (length (List.filter (λ x, negb (f x)) l) + length (List.filter f l))%nat = length l.
Proof. induction l as [|x l IH]; cbn; [done|]. destruct (f x); cbn; lia. Qed.

(** The size of a table after the deletion of an index range. *)
Lemma size_without_collected {A} (range : A → bool) (m m' : gmap N A) :
  (∀ k, m' !! k = match m !! k with
                  | Some a => if range a then None else Some a
                  | None => None
                  end) →
  (size m' + length (List.filter (λ doc : N * A, range doc.2) (map_to_list m)))%nat = size m.
Proof.
  intros Hm'. rewrite <- !length_map_to_list.
  rewrite <- (length_filter_split (λ doc : N * A, range doc.2) (map_to_list m)).
  f_equal. apply Permutation_length, NoDup_Permutation.
  - apply NoDup_map_to_list.
  - apply (NoDup_fmap_1 fst), NoDup_collect.
  - intros [k a]. rewrite elem_of_map_to_list, elem_of_collect, Hm'. cbn.
    destruct (m !! k) as [a'|]; [|naive_solver].
    destruct (range a') eqn:Hr; split.
    + done.
    + intros [[= ->] Hneg]. by rewrite Hr in Hneg.
    + intros [= ->]. by rewrite Hr.
    + by intros [? _].
Qed.

(** X28. The two queries on one category, [get] and [getTaskCount], read
    only and answer the owner of the category alone: for an authenticated
    caller they throw NotFound when the id names no category and
    NotAuthorized when it belongs to somebody else.  For the owner, [get]
    returns the category, and [getTaskCount] the number of stored tasks,
    of whatever user, whose category is this one - which is the number of
    tasks that a removal of the category in mode "deleteTasks" takes out
    of the store. *)
Theorem category_queries ctx u id st :
  getAuthUser ctx = Some u →
  match categories st !! id with
  | None =>
      CategoriesEndpoint.get ctx id st = (inl NotFound, st)
      ∧ CategoriesEndpoint.getTaskCount ctx id st = (inl NotFound, st)
  | Some category =>
      if bool_decide (Category.userId category = _id u)
      then CategoriesEndpoint.get ctx id st = (inr category, st)
           ∧ ∃ n,
               CategoriesEndpoint.getTaskCount ctx id st = (inr n, st)
               ∧ n = length (List.filter
                               (λ doc : N * Task.t,
                                  bool_decide (Task.categoryId doc.2 = Some id))
                               (map_to_list (tasks st)))
               ∧ (ok (rateLimiter_limit ctx "deleteCategory" (_id u)) = true →
                  ∃ st',
                    CategoriesEndpoint.remove ctx id deleteTasks st = (inr id, st')
                    ∧ (size (tasks st') + n)%nat = size (tasks st))
      else CategoriesEndpoint.get ctx id st = (inl NotAuthorized, st)
           ∧ CategoriesEndpoint.getTaskCount ctx id st = (inl NotAuthorized, st)
  end.
Proof.
  intros Hu. unfold CategoriesEndpoint.get, CategoriesEndpoint.getTaskCount.
  rewrite !bind_run, (authenticate_ok _ _ _ Hu).
  rewrite !bind_run, getCategoryById_run.
  destruct (categories st !! id) as [category|] eqn:Hc; [|done].
  rewrite !bind_run. case_bool_decide as Ho; [|done].
  cbn [negb]. rewrite throw_if_false. split; [done|].
  eexists. split; [reflexivity|]. split; [reflexivity|].
  intros Hrl.
  destruct (remove_category_run ctx u id category deleteTasks st Hu Hrl Hc Ho)
    as (st' & Hrun & _ & Htasks).
  exists st'. split; [done|].
  assert (Hlookup : ∀ k, tasks st' !! k
            = match tasks st !! k with
              | Some task =>
                  if (λ t : Task.t, bool_decide (Task.categoryId t = Some id)) task
                  then None else Some task
              | None => None
              end).
  { intros k. rewrite Htasks. by destruct (tasks st !! k). }
  exact (size_without_collected _ (tasks st) (tasks st') Hlookup).
Qed.

Lemma category_queries_witness :
  CategoriesEndpoint.get Examples.ctx 0%N Examples.store
  = (inr (Examples.category "alice" "work" 0), Examples.store)
  ∧ ∃ n,
      CategoriesEndpoint.getTaskCount Examples.ctx 0%N Examples.store = (inr n, Examples.store)
      ∧ n = length (List.filter
                      (λ doc : N * Task.t, bool_decide (Task.categoryId doc.2 = Some 0%N))
                      (map_to_list (tasks Examples.store)))
      ∧ (ok (rateLimiter_limit Examples.ctx "deleteCategory" "alice") = true →
         ∃ st',
           CategoriesEndpoint.remove Examples.ctx 0%N deleteTasks Examples.store
           = (inr 0%N, st')
           ∧ (size (tasks st') + n)%nat = size (tasks Examples.store)).
Proof.
  exact (category_queries Examples.ctx Examples.alice 0%N Examples.store eq_refl).
Defined.

(** ** Blank text *)

Lemma sanitizeInput_blank s :
  forallb validation.is_whitespace (String.list_ascii_of_string s) = true →
  validation.sanitizeInput s = "".
Proof.
  intros Hblank. apply chars_inj. rewrite chars_sanitizeInput.
  by rewrite (drop_whitespace_all _ Hblank).
Qed.

(** X29. Text of white space only counts as no text.  For an
    authenticated caller, and with every check before the one of the text
    passed, a title, a category name or a comment that is empty or
    consists of white space only is refused with the invalid-input error
    of its field, and nothing is written: by [create] and [update] of a
    task, by [create] and [update] of a category, and by [create] and
    [update] of a comment. *)
Theorem blank_text_is_refused ctx u s st :
  getAuthUser ctx = Some u →
  forallb validation.is_whitespace (String.list_ascii_of_string s) = true →
  (∀ args,
     TasksEndpoint.c_title args = s →
     ok (rateLimiter_limit ctx "createTask" (_id u)) = true →
     TasksEndpoint.create ctx args st
     = (inl (InvalidInput "Title must be between 1 and 200 characters"), st))
  ∧ (∀ args task,
       TasksEndpoint.u_title args = Some s →
       ok (rateLimiter_limit ctx "updateTask" (_id u)) = true →
       tasks st !! TasksEndpoint.u_id args = Some task →
       Task.userId task = _id u →
       TasksEndpoint.update ctx args st
       = (inl (InvalidInput "Title must be between 1 and 200 characters"), st))
  ∧ (∀ args,
       CategoriesEndpoint.c_name args = s →
       ok (rateLimiter_limit ctx "createCategory" (_id u)) = true →
       (category_count st (_id u) < MAX_CATEGORIES_PER_USER)%nat →
       CategoriesEndpoint.create ctx args st
       = (inl (InvalidInput "Category name must be between 1 and 50 characters"), st))
  ∧ (∀ args category,
       CategoriesEndpoint.u_name args = Some s →
       ok (rateLimiter_limit ctx "updateCategory" (_id u)) = true →
       categories st !! CategoriesEndpoint.u_id args = Some category →
       Category.userId category = _id u →
       CategoriesEndpoint.update ctx args st
       = (inl (InvalidInput "Category name must be between 1 and 50 characters"), st))
  ∧ (∀ taskId task,
       ok (rateLimiter_limit ctx "createComment" (_id u)) = true →
       tasks st !! taskId = Some task →
       Task.userId task = _id u →
       CommentsEndpoint.create ctx taskId s st
       = (inl (InvalidInput "Comment must be between 1 and 2000 characters"), st))
  ∧ (∀ id comment,
       taskComments st !! id = Some comment →
       TaskComment.userId comment = _id u →
       CommentsEndpoint.update ctx id s st
       = (inl (InvalidInput "Comment must be between 1 and 2000 characters"), st)).
Proof.
  intros Hu Hblank. pose proof (sanitizeInput_blank s Hblank) as Hempty.
  split; [|split; [|split; [|split; [|split]]]].
  - intros args Htitle Hrl. unfold TasksEndpoint.create.
    rewrite bind_run, (authenticate_ok _ _ _ Hu).
    rewrite bind_run, (rate_limit_ok _ _ _ _ Hrl).
    by rewrite bind_run, Htitle, Hempty.
  - intros args task Htitle Hrl Ht Ho. unfold TasksEndpoint.update.
    rewrite bind_run, (authenticate_ok _ _ _ Hu).
    rewrite bind_run, (rate_limit_ok _ _ _ _ Hrl).
    rewrite bind_run, getTaskById_run, Ht.
    rewrite bind_run, bool_decide_true, throw_if_false by done.
    rewrite bind_run, Htitle. cbn. by rewrite Hempty.
  - intros args Hname Hrl Hcount. unfold CategoriesEndpoint.create.
    rewrite bind_run, (authenticate_ok _ _ _ Hu).
    rewrite bind_run, (rate_limit_ok _ _ _ _ Hrl).
    rewrite bind_run.
    destruct (getCategoriesByUser_length ctx (_id u) st) as (existing & -> & Hlen).
    rewrite bind_run, Hlen.
    rewrite (proj2 (Nat.leb_gt _ _) Hcount), throw_if_false.
    by rewrite bind_run, Hname, Hempty.
  - intros args category Hname Hrl Hc Ho. unfold CategoriesEndpoint.update.
    rewrite bind_run, (authenticate_ok _ _ _ Hu).
    rewrite bind_run, (rate_limit_ok _ _ _ _ Hrl).
    rewrite bind_run, getCategoryById_run, Hc.
    rewrite bind_run, bool_decide_true, throw_if_false by done.
    rewrite bind_run, Hname. cbn. by rewrite Hempty.
  - intros taskId task Hrl Ht Ho. unfold CommentsEndpoint.create.
    rewrite bind_run, (authenticate_ok _ _ _ Hu).
    rewrite bind_run, (rate_limit_ok _ _ _ _ Hrl).
    rewrite bind_run, getTaskById_run, Ht.
    rewrite bind_run, bool_decide_true, throw_if_false by done.
    by rewrite bind_run, Hempty.
  - intros id comment Hc Ho. unfold CommentsEndpoint.update.
    rewrite bind_run, (authenticate_ok _ _ _ Hu).
    rewrite bind_run, getTaskCommentById_run, Hc.
    rewrite bind_run, bool_decide_true, throw_if_false by done.
    by rewrite bind_run, Hempty.
Qed.

Lemma blank_text_is_refused_witness :
  TasksEndpoint.create Examples.ctx (Examples.create_args "   " None) Examples.store
  = (inl (InvalidInput "Title must be between 1 and 200 characters"), Examples.store)
  ∧ CommentsEndpoint.update Examples.ctx 2%N "   " Examples.store
    = (inl (InvalidInput "Comment must be between 1 and 2000 characters"), Examples.store).
Proof.
  pose proof (blank_text_is_refused Examples.ctx Examples.alice "   " Examples.store
                eq_refl eq_refl) as (Hcreate & _ & _ & _ & _ & Hupdate).
  split.
  - exact (Hcreate (Examples.create_args "   " None) eq_refl eq_refl).
  - exact (Hupdate 2%N (Examples.comment 0%N "alice") eq_refl eq_refl).
Defined.

(** ** The recent tasks and the recent activity *)

(** X30. For an authenticated caller, [recent] and [recentActivity] read
    only and are bounded.  [recent] returns the first ten of the tasks
    that [list] returns - all of them when the caller has ten tasks or
    fewer.  [recentActivity] returns at most twenty audit records, each
    once, each stored and recorded by the caller (as acting user); when
    the caller has recorded twenty or fewer, it returns them all. *)
Theorem recent_queries_are_bounded ctx u st :
  getAuthUser ctx = Some u →
  ∃ all_tasks recent_tasks activity,
    TasksEndpoint.list ctx st = (inr all_tasks, st)
    ∧ DashboardEndpoint.recent ctx st = (inr recent_tasks, st)
    ∧ recent_tasks = take 10 all_tasks
    ∧ length recent_tasks = (length all_tasks `min` 10)%nat
    ∧ ((length all_tasks ≤ 10)%nat → recent_tasks = all_tasks)
    ∧ DashboardEndpoint.recentActivity ctx st = (inr activity, st)
    ∧ (length activity ≤ 20)%nat
    ∧ NoDup activity.*1
    ∧ (∀ k a, (k, a) ∈ activity → taskActivity st !! k = Some a ∧ Activity.userId a = _id u)
    ∧ ((length (List.filter (λ doc : N * Activity.t,
                               bool_decide (Activity.userId doc.2 = _id u))
                  (map_to_list (taskActivity st))) ≤ 20)%nat →
       ∀ k a, taskActivity st !! k = Some a → Activity.userId a = _id u →
              (k, a) ∈ activity).
Proof.
  intros Hu.
  unfold TasksEndpoint.list, DashboardEndpoint.recent, DashboardEndpoint.recentActivity.
  rewrite !bind_run, (authenticate_ok _ _ _ Hu).
  rewrite !bind_run, getTasksByUser_run.
  unfold TaskActivity.getRecentActivityByUser, db.collect.
  rewrite bind_run. cbn [get_table taskActivity_table mret M_ret].
  set (records := List.filter _ (map_to_list (taskActivity st))).
  eexists _, _, _. split; [reflexivity|]. split; [reflexivity|]. split; [reflexivity|].
  split; [by rewrite length_take; lia|].
  split; [intros Hle; by apply take_ge|].
  split; [reflexivity|].
  split; [rewrite length_take; lia|].
  assert (Hnd : NoDup (reverse records).*1).
  { apply NoDup_fst_reverse, NoDup_collect. }
  split; [|split].
  - rewrite <- (take_drop 20 (reverse records)), fmap_app in Hnd.
    by apply NoDup_app in Hnd as [Hnd _].
  - intros k a Hin. apply elem_of_take in Hin as (i & Hin & _).
    apply list_elem_of_lookup_2 in Hin.
    rewrite elem_of_reverse in Hin. apply elem_of_collect in Hin as [Hk Ho].
    cbn in Ho. by rewrite bool_decide_eq_true in Ho.
  - intros Hle k a Hk Ho. rewrite take_ge by by rewrite length_reverse.
    rewrite elem_of_reverse. apply elem_of_collect. split; [done|].
    cbn. by rewrite bool_decide_eq_true.
Qed.

Lemma recent_queries_are_bounded_witness :
  ∃ all_tasks recent_tasks activity,
    TasksEndpoint.list Examples.ctx (Examples.progress_store "alice" 4 12)
    = (inr all_tasks, Examples.progress_store "alice" 4 12)
    ∧ DashboardEndpoint.recent Examples.ctx (Examples.progress_store "alice" 4 12)
      = (inr recent_tasks, Examples.progress_store "alice" 4 12)
    ∧ recent_tasks = take 10 all_tasks
    ∧ length recent_tasks = (length all_tasks `min` 10)%nat
    ∧ ((length all_tasks ≤ 10)%nat → recent_tasks = all_tasks)
    ∧ DashboardEndpoint.recentActivity Examples.ctx (Examples.progress_store "alice" 4 12)
      = (inr activity, Examples.progress_store "alice" 4 12)
    ∧ (length activity ≤ 20)%nat
    ∧ NoDup activity.*1
    ∧ (∀ k a, (k, a) ∈ activity →
              taskActivity (Examples.progress_store "alice" 4 12) !! k = Some a
              ∧ Activity.userId a = "alice")
    ∧ ((length (List.filter (λ doc : N * Activity.t,
                               bool_decide (Activity.userId doc.2 = "alice"))
                  (map_to_list (taskActivity (Examples.progress_store "alice" 4 12))))
        ≤ 20)%nat →
       ∀ k a, taskActivity (Examples.progress_store "alice" 4 12) !! k = Some a →
              Activity.userId a = "alice" → (k, a) ∈ activity).
Proof.
  exact (recent_queries_are_bounded Examples.ctx Examples.alice
           (Examples.progress_store "alice" 4 12) eq_refl).
Defined.
